(** * Authentication and session lifecycle of sim-one-chat

    A shallow embedding of
      - [src/lib/frontend-sdk/src/services/auth-service.ts]
        ([SessionManager], [PasswordUtils], [AuthService]) and
      - [src/utils/password-hashing.ts]
    together with the properties of the session table, of the tiered
    [authenticate] call and of the password utilities.

    Conventions of the embedding.
      - A JavaScript string is a [string]; a character stands for one
        UTF-16 code unit (the code units below 256 are represented).
      - [Date.now()] and [uuidv4()] are oracles: the n-th reading of the
        clock is [clock n], the n-th drawn identifier is [uuidv4 n]; the
        world counts how many readings and draws have been made.
      - The class instances keep their mutable state in a [World]: the
        [sessions] map of the [SessionManager], the two counters, and the
        list of payloads that were handed to [jwt.sign].
      - A call into an external package ([jsonwebtoken], [argon2]) either
        completes normally or throws; this is a [Completion]. *)

From Stdlib Require Import ZArith Lia Ascii String.
From stdpp Require Import base option gmap strings list pretty.

Local Open Scope string_scope.
Local Open Scope Z_scope.

(* ===================================================================== *)
(** ** JavaScript values used by the sources                              *)
(* ===================================================================== *)

(** Outcome of a call that may throw [new Error(msg)]. *)
Inductive Completion (A : Type) : Type :=
  | Normal (a : A)
  | Throw (msg : string).
Arguments Normal {A} a.
Arguments Throw {A} msg.

Module Js.

(** [!s] is false exactly for a non-empty string. *)
Definition truthy (s : string) : bool := negb (String.eqb s EmptyString).

(** A property that may be [undefined]: [o && ...] in a condition. *)
Definition truthy_opt (o : option string) : bool :=
  match o with
  | Some s => truthy s
  | None => false
  end.

(** [o || d] for an optional string. *)
Definition or_else (o : option string) (d : string) : string :=
  match o with
  | Some s => if truthy s then s else d
  | None => d
  end.

(** The double-quote character inside a message. *)
Definition quote : string := String "034"%char EmptyString.

(** [array.push(x)]. *)
Definition push {A : Type} (l : list A) (x : A) : list A := (l ++ [x])%list.

(** [s.startsWith(p)]. *)
Definition startsWith (s p : string) : bool := String.prefix p s.

(** [s.slice(-n)]: the last [n] code units, the whole string when it is
    shorter. *)
Definition slice_last (n : nat) (s : string) : string :=
  String.substring (String.length s - n) n s.

(** [regex.test(s)] for a one-character class. *)
Fixpoint test_class (cls : ascii -> bool) (s : string) : bool :=
  match s with
  | EmptyString => false
  | String c r => cls c || test_class cls r
  end.

Definition between (lo hi : N) (c : ascii) : bool :=
  (lo <=? N_of_ascii c)%N && (N_of_ascii c <=? hi)%N.

(** [[a-z]], [[A-Z]], [[0-9]] and [[^a-zA-Z0-9]]. *)
Definition lower (c : ascii) : bool := between 97 122 c.
Definition upper (c : ascii) : bool := between 65 90 c.
Definition digit (c : ascii) : bool := between 48 57 c.
Definition other (c : ascii) : bool := negb (lower c || upper c || digit c).

(** The dot of a regular expression without the [s] flag matches every
    code unit but the line terminators (of which LF and CR lie in the
    represented range). *)
Definition dot (c : ascii) : bool :=
  negb ((N_of_ascii c =? 10)%N || (N_of_ascii c =? 13)%N).

(** [/(.)\1{2,}/.test(s)]: some code unit matched by the dot is followed
    by two more copies of itself. *)
Fixpoint test_repeat (s : string) : bool :=
  match s with
  | String a ((String b (String c _)) as r) =>
      (dot a && Ascii.eqb a b && Ascii.eqb a c) || test_repeat r
  | _ => false
  end.

End Js.

(* ===================================================================== *)
(** ** Core types (auth-service.ts, lines 28-98)                          *)
(* ===================================================================== *)

Module Argon2Config.
Record t := mk {
  memoryCost : Z;
  timeCost : Z;
  parallelism : Z;
  hashLength : Z
}.
End Argon2Config.

Module UserInfo.
Record t := mk {
  id : string;
  email : option string;
  name : option string;
  permissions : list string;
  roles : list string
}.
End UserInfo.

Module Session.
Record t := mk {
  id : string;
  userId : string;
  user : UserInfo.t;
  createdAt : Z;
  expiresAt : Z;
  lastAccessedAt : Z;
  permissions : list string;
  metadata : list (string * string)
}.

(** [session.lastAccessedAt = now]. *)
Definition touch (now : Z) (s : t) : t :=
  mk (id s) (userId s) (user s) (createdAt s) (expiresAt s) now
     (permissions s) (metadata s).
End Session.

(** The object handed to [jwt.sign]. *)
Module JwtPayload.
Record t := mk {
  userId : string;
  permissions : list string;
  sessionId : string;
  provider : option string
}.
End JwtPayload.

(** The object [jwt.verify] decodes; every property may be missing
    but [userId]. *)
Module JwtClaims.
Record t := mk {
  userId : string;
  permissions : option (list string);
  sessionId : option string
}.
End JwtClaims.

(* ===================================================================== *)
(** ** The world and its state monad                                      *)
(* ===================================================================== *)

Record World := mkWorld {
  sessions : gmap string Session.t;  (* SessionManager.sessions *)
  ticks : nat;                       (* readings of Date.now() so far *)
  draws : nat;                       (* calls of uuidv4() so far *)
  signed : list JwtPayload.t         (* payloads given to jwt.sign, newest first *)
}.

Definition M (A : Type) : Type := World -> A * World.

#[global] Instance M_ret : MRet M := fun A a w => (a, w).
#[global] Instance M_bind : MBind M :=
  fun A B f m w => let '(a, w') := m w in f a w'.

Definition set_sessions (f : gmap string Session.t -> gmap string Session.t) : M unit :=
  fun w => (tt, mkWorld (f (sessions w)) (ticks w) (draws w) (signed w)).

Definition get_sessions : M (gmap string Session.t) :=
  fun w => (sessions w, w).

Definition log_signed (p : JwtPayload.t) : M unit :=
  fun w => (tt, mkWorld (sessions w) (ticks w) (draws w) (p :: signed w)).

(** A world in which nothing has happened yet. *)
Definition fresh_world (t0 d0 : nat) : World := mkWorld ∅ t0 d0 [].

(* ===================================================================== *)
(** ** SessionManager (auth-service.ts, lines 104-186)                    *)
(* ===================================================================== *)

Module SessionManager.

Record Config := mkConfig {
  sessionTimeout : Z;
  cleanupInterval : Z
}.

Section WithOracles.

Variable clock : nat -> Z.
Variable uuidv4 : nat -> string.
Variable config : Config.

(** [Date.now()]. *)
Definition Date_now : M Z :=
  fun w => (clock (ticks w),
            mkWorld (sessions w) (S (ticks w)) (draws w) (signed w)).

(** [uuidv4()]. *)
Definition uuid : M string :=
  fun w => (uuidv4 (draws w),
            mkWorld (sessions w) (ticks w) (S (draws w)) (signed w)).

Definition createSession (user : UserInfo.t) (permissions : list string)
  : M Session.t :=
  t ← Date_now;
  u ← uuid;
  let sessionId := "session_" +:+ pretty t +:+ "_" +:+ u in
  now ← Date_now;
  let session :=
    Session.mk sessionId (UserInfo.id user) user now
               (now + sessionTimeout config) now permissions [] in
  set_sessions (insert sessionId session);;
  mret session.

Definition validateSession (sessionId : string) : M (option Session.t) :=
  m ← get_sessions;
  match m !! sessionId with
  | None => mret None
  | Some session =>
      now ← Date_now;
      if Session.expiresAt session <? now then
        set_sessions (delete sessionId);;
        mret None
      else
        let session' := Session.touch now session in
        set_sessions (insert sessionId session');;
        mret (Some session')
  end.

Definition refreshSession (sessionId : string) : M (option Session.t) :=
  r ← validateSession sessionId;
  match r with
  | None => mret None
  | Some session =>
      newSession ← createSession (Session.user session)
                                 (Session.permissions session);
      set_sessions (delete sessionId);;
      mret (Some newSession)
  end.

Definition destroySession (sessionId : string) : M bool :=
  m ← get_sessions;
  set_sessions (delete sessionId);;
  mret (bool_decide (is_Some (m !! sessionId))).

(** The callback that [startCleanup] hands to [setInterval]. *)
Definition startCleanup_tick : M unit :=
  now ← Date_now;
  set_sessions (filter (fun kv => ¬ (Session.expiresAt kv.2 < now))).

(** [cleanup()]: the timer is cleared and the table emptied. *)
Definition cleanup : M unit := set_sessions (fun _ => ∅).

(** [getStats().activeSessions]. *)
Definition getStats : M nat :=
  m ← get_sessions; mret (size m).

(** The identifier the next [createSession] will use in world [w]. *)
Definition next_id (w : World) : string :=
  "session_" +:+ pretty (clock (ticks w)) +:+ "_" +:+ uuidv4 (draws w).

End WithOracles.

End SessionManager.


(* ===================================================================== *)
(** ** Operations of a session table as data                              *)
(* ===================================================================== *)

(** One call on a [SessionManager], or one firing of its cleanup
    timer. *)
Inductive Op :=
  | OpCreate (user : UserInfo.t) (permissions : list string)
  | OpValidate (sessionId : string)
  | OpRefresh (sessionId : string)
  | OpDestroy (sessionId : string)
  | OpSweep.

Section RunOps.

Variable clock : nat -> Z.
Variable uuidv4 : nat -> string.
Variable config : SessionManager.Config.

(** Runs one operation; the answer is the identifier of the session the
    operation created, if it created one. *)
Definition run_op (o : Op) : M (option string) :=
  match o with
  | OpCreate user permissions =>
      s ← SessionManager.createSession clock uuidv4 config user permissions;
      mret (Some (Session.id s))
  | OpValidate sessionId =>
      SessionManager.validateSession clock sessionId;;
      mret None
  | OpRefresh sessionId =>
      r ← SessionManager.refreshSession clock uuidv4 config sessionId;
      mret (Session.id <$> r)
  | OpDestroy sessionId =>
      SessionManager.destroySession sessionId;;
      mret None
  | OpSweep =>
      SessionManager.startCleanup_tick clock;;
      mret None
  end.

(** Runs the operations in order and collects the identifiers created. *)
Fixpoint run_ops (os : list Op) : M (list string) :=
  match os with
  | [] => mret []
  | o :: rest =>
      r ← run_op o;
      ids ← run_ops rest;
      mret (match r with Some i => i :: ids | None => ids end)
  end.

(** The identifier generator did its job for operation [o] in world [w]:
    the identifier it handed out, if any, was not in use. *)
Definition unique_id (o : Op) (w : World) : Prop :=
  forall i, (run_op o w).1 = Some i -> sessions w !! i = None.

(** Worlds that a session manager can be in: it starts with an empty
    table and serves one call after the other. *)
Inductive reachable : World -> Prop :=
  | reach_start t0 d0 l : reachable (mkWorld ∅ t0 d0 l)
  | reach_step w o : reachable w -> reachable (run_op o w).2.

End RunOps.

(* ===================================================================== *)
(** ** The argon2 package                                                 *)
(* ===================================================================== *)

(** The package is an external dependency and is kept abstract. [hash]
    is the call [argon2.hash(plain, options)] as a whole, as a function
    of the random salt the call draws: it returns the digest string or
    throws. Of [argon2.verify(digest, plain)] the package documents how
    it proceeds: it takes the digest apart into the parameters, the salt
    and the key it encodes (throwing when the digest is malformed),
    derives the key of [plain] under these parameters and this salt, and
    compares the two keys. *)
Module Argon2.

Record Options := mkOptions {
  memoryCost : Z;
  timeCost : Z;
  parallelism : Z;
  hashLength : Z;
  saltLength : nat
}.

(** What a digest string encodes. *)
Record Phc := mkPhc {
  phc_memoryCost : Z;
  phc_timeCost : Z;
  phc_parallelism : Z;
  phc_salt : string;
  phc_key : string
}.

Record Lib := mkLib {
  hash : string -> string -> Options -> Completion string;
    (* salt drawn, plain, options *)
  deserialize : string -> Completion Phc;
  kdf : string -> string -> Z -> Z -> Z -> nat -> string
    (* plain, salt, memoryCost, timeCost, parallelism, key length *)
}.

(** The key [plain] derives under the parameters and salt of a digest. *)
Definition rederive (lib : Lib) (d : Phc) (plain : string) : string :=
  kdf lib plain (phc_salt d) (phc_memoryCost d) (phc_timeCost d)
      (phc_parallelism d) (String.length (phc_key d)).

Definition verify (lib : Lib) (digest plain : string) : Completion bool :=
  match deserialize lib digest with
  | Throw msg => Throw msg
  | Normal d => Normal (String.eqb (rederive lib d plain) (phc_key d))
  end.

End Argon2.

(** [try { body } catch (error) { handler(error.message) }]. *)
Definition try_catch {A : Type} (body : Completion A)
  (handler : string -> Completion A) : Completion A :=
  match body with
  | Normal a => Normal a
  | Throw msg => handler msg
  end.

(** The result of both [validatePasswordStrength] functions. *)
Module Strength.
Record t := mk {
  score : Z;
  isValid : bool;
  feedback : list string
}.
End Strength.

(* ===================================================================== *)
(** ** PasswordUtils (auth-service.ts, lines 192-260)                     *)
(* ===================================================================== *)

Module PasswordUtils.

Definition defaultConfig : Argon2Config.t :=
  Argon2Config.mk 65536 3 4 32.

Definition hashPassword (lib : Argon2.Lib) (salt : string) (password : string)
  (config : option Argon2Config.t) : Completion string :=
  let argon2Config := default defaultConfig config in
  try_catch
    (Argon2.hash lib salt password
       (Argon2.mkOptions (Argon2Config.memoryCost argon2Config)
                         (Argon2Config.timeCost argon2Config)
                         (Argon2Config.parallelism argon2Config)
                         (Argon2Config.hashLength argon2Config)
                         32))
    (fun message => Throw ("Password hashing failed: " +:+ message)).

Definition verifyPassword (lib : Argon2.Lib) (password hash : string)
  : Completion bool :=
  try_catch (Argon2.verify lib hash password) (fun _ => Normal false).

Definition validatePasswordStrength (password : string) : Strength.t :=
  let feedback : list string := [] in
  let score := 0 in
  let '(score, feedback) :=
    if (12 <=? String.length password)%nat then (score + 2, feedback)
    else if (8 <=? String.length password)%nat then (score + 1, feedback)
    else (score, Js.push feedback "Password should be at least 8 characters long") in
  let '(score, feedback) :=
    if Js.test_class Js.lower password then (score + 1, feedback)
    else (score, Js.push feedback "Include lowercase letters") in
  let '(score, feedback) :=
    if Js.test_class Js.upper password then (score + 1, feedback)
    else (score, Js.push feedback "Include uppercase letters") in
  let '(score, feedback) :=
    if Js.test_class Js.digit password then (score + 1, feedback)
    else (score, Js.push feedback "Include numbers") in
  let '(score, feedback) :=
    if Js.test_class Js.other password then (score + 1, feedback)
    else (score, Js.push feedback "Include special characters") in
  let '(score, feedback) :=
    if negb (Js.test_repeat password) then (score + 1, feedback)
    else (score, Js.push feedback "Avoid repeating characters") in
  let isValid := 6 <=? score in
  Strength.mk score isValid
    (if isValid then ["Password strength is good"] else feedback).

End PasswordUtils.

(* ===================================================================== *)
(** ** utils/password-hashing.ts                                          *)
(* ===================================================================== *)

Module PasswordHashing.

Definition ARGON2_CONFIG : Argon2.Options :=
  Argon2.mkOptions (2 ^ 16) 3 1 32 16.

Definition hashPassword (lib : Argon2.Lib) (salt : string) (password : string)
  : Completion string :=
  try_catch
    (if negb (Js.truthy password) || (String.length password <? 1)%nat
     then Throw "Password cannot be empty"
     else Argon2.hash lib salt password ARGON2_CONFIG)
    (fun _ => Throw "Failed to hash password").

Definition verifyPassword (lib : Argon2.Lib) (password hashedPassword : string)
  : Completion bool :=
  try_catch
    (if negb (Js.truthy password) || negb (Js.truthy hashedPassword)
     then Normal false
     else Argon2.verify lib hashedPassword password)
    (fun _ => Normal false).

Definition validatePasswordStrength (password : string) : Strength.t :=
  let feedback : list string := [] in
  let score := 0 in
  let '(score, feedback) :=
    if (8 <=? String.length password)%nat then (score + 1, feedback)
    else (score, Js.push feedback "Password must be at least 8 characters long") in
  let score :=
    if (12 <=? String.length password)%nat then score + 1 else score in
  let '(score, feedback) :=
    if Js.test_class Js.lower password then (score + 1, feedback)
    else (score, Js.push feedback "Password must contain lowercase letters") in
  let '(score, feedback) :=
    if Js.test_class Js.upper password then (score + 1, feedback)
    else (score, Js.push feedback "Password must contain uppercase letters") in
  let '(score, feedback) :=
    if Js.test_class Js.digit password then (score + 1, feedback)
    else (score, Js.push feedback "Password must contain numbers") in
  let '(score, feedback) :=
    if Js.test_class Js.other password then (score + 1, feedback)
    else (score, Js.push feedback "Password must contain special characters") in
  let '(score, feedback) :=
    if negb (Js.test_repeat password) then (score + 1, feedback)
    else (score, Js.push feedback "Password should not contain repeated characters") in
  let isValid := (5 <=? score) && (length feedback =? 0)%nat in
  Strength.mk score isValid feedback.

End PasswordHashing.


(* ===================================================================== *)
(** ** AuthService (auth-service.ts, lines 266-595)                       *)
(* ===================================================================== *)

Module AuthError.
Record t := mk {
  code : string;
  message : string;
  timestamp : Z   (* the clock reading that [new Date()] took *)
}.
End AuthError.

Module AuthStep.
Record t := mk {
  step : Z;
  method : string;
  duration : Z;
  success : bool;
  permissions : option (list string);
  securityLevel : string
}.
End AuthStep.

Module AuthResult.
Record t := mk {
  success : bool;
  sessionId : option string;
  token : option string;
  expiresAt : option Z;
  permissions : option (list string);
  user : option UserInfo.t;
  authSteps : option (list AuthStep.t);
  totalDuration : option Z;
  securityLevel : option string;
  error : option AuthError.t
}.

(** [{ success: false, error }]. *)
Definition failed (e : AuthError.t) : t :=
  mk false None None None None None None None None (Some e).

(** [{ success: true, sessionId, token, expiresAt, permissions, user }]. *)
Definition succeeded (sessionId token : string) (expiresAt : Z)
  (permissions : list string) (user : UserInfo.t) : t :=
  mk true (Some sessionId) (Some token) (Some expiresAt) (Some permissions)
     (Some user) None None None None.

(** [{ ...r, authSteps, totalDuration, securityLevel }]. *)
Definition with_steps (r : t) (authSteps : list AuthStep.t)
  (totalDuration : Z) (securityLevel : string) : t :=
  mk (success r) (sessionId r) (token r) (expiresAt r) (permissions r)
     (user r) (Some authSteps) (Some totalDuration) (Some securityLevel)
     (error r).
End AuthResult.

Module AuthRequest.
Record t := mk {
  method : string;
  apiKey : option string;
  token : option string;
  clientId : option string;
  clientSecret : option string;
  redirectUri : option string;
  provider : option string;
  permissions : option (list string)
}.
End AuthRequest.

Module OAuth2Params.
Record t := mk {
  clientId : string;
  clientSecret : string;
  redirectUri : string;
  provider : string
}.
End OAuth2Params.

Module AuthService.

Record Config := mkConfig {
  jwtSecret : string;
  jwtExpiresIn : string;
  argon2 : Argon2Config.t;
  sessionTimeout : Z;
  enableLogging : bool
}.

Section WithOracles.

Variable clock : nat -> Z.
Variable uuidv4 : nat -> string.

(** The jsonwebtoken package: both calls read the clock, take the secret,
    and may throw. *)
Variable jwt_sign : Z -> JwtPayload.t -> string -> string -> Completion string.
Variable jwt_verify : Z -> string -> string -> Completion JwtClaims.t.

Variable config : Config.

(** The session manager the constructor builds. *)
Definition sessionManager : SessionManager.Config :=
  SessionManager.mkConfig (sessionTimeout config) (5 * 60 * 1000).

Local Abbreviation Date_now := (SessionManager.Date_now clock).
Local Abbreviation createSession := (SessionManager.createSession clock uuidv4 sessionManager).
Local Abbreviation validateSession := (SessionManager.validateSession clock).

(** [jwt.sign(payload, this.config.jwtSecret, { expiresIn })]. *)
Definition sign (payload : JwtPayload.t) : M (Completion string) :=
  now ← Date_now;
  log_signed payload;;
  mret (jwt_sign now payload (jwtSecret config) (jwtExpiresIn config)).

(** [jwt.verify(token, this.config.jwtSecret)]. *)
Definition verify (token : string) : M (Completion JwtClaims.t) :=
  now ← Date_now;
  mret (jwt_verify now token (jwtSecret config)).

(** [{ success: false, error: { code, message, timestamp } }]. *)
Definition fail_with (code message : string) : M AuthResult.t :=
  timestamp ← Date_now;
  mret (AuthResult.failed (AuthError.mk code message timestamp)).

(** API Key Authentication (Level 1). *)
Definition authenticateAPIKey (apiKey : string)
  (requestedPermissions : list string) : M AuthResult.t :=
  if negb (Js.startsWith apiKey "agentui_") || (String.length apiKey <? 32)%nat then
    fail_with "INVALID_API_KEY_FORMAT"
              ("API key must start with " +:+ Js.quote +:+ "agentui_" +:+ Js.quote
               +:+ " and be at least 32 characters")
  else
    let isValidKey :=
      (32 <=? String.length apiKey)%nat && Js.startsWith apiKey "agentui_" in
    if negb isValidKey then
      fail_with "INVALID_API_KEY" "Invalid API key provided"
    else
      let user :=
        UserInfo.mk ("user_" +:+ Js.slice_last 8 apiKey) None
          (Some "API Key User")
          (if (0 <? length requestedPermissions)%nat
           then requestedPermissions else ["basic"; "read"])
          ["api_user"] in
      session ← createSession user (UserInfo.permissions user);
      let payload :=
        JwtPayload.mk (UserInfo.id user) (UserInfo.permissions user)
                      (Session.id session) None in
      signed ← sign payload;
      match signed with
      | Normal token =>
          mret (AuthResult.succeeded (Session.id session) token
                  (Session.expiresAt session) (UserInfo.permissions user) user)
      | Throw message => fail_with "API_KEY_AUTH_ERROR" message
      end.

(** JWT Authentication (Level 2). *)
Definition authenticateJWT (token : string) : M AuthResult.t :=
  verified ← verify token;
  match verified with
  | Throw _ => fail_with "INVALID_JWT_TOKEN" "Invalid or expired JWT token"
  | Normal decoded =>
      let user :=
        UserInfo.mk (JwtClaims.userId decoded) None (Some "JWT User")
          (default ["basic"] (JwtClaims.permissions decoded))
          ["jwt_user"] in
      existing ←
        (if Js.truthy_opt (JwtClaims.sessionId decoded)
         then validateSession (default EmptyString (JwtClaims.sessionId decoded))
         else mret None);
      match existing with
      | Some session =>
          mret (AuthResult.succeeded (Session.id session) token
                  (Session.expiresAt session) (UserInfo.permissions user) user)
      | None =>
          session ← createSession user (UserInfo.permissions user);
          mret (AuthResult.succeeded (Session.id session) token
                  (Session.expiresAt session) (UserInfo.permissions user) user)
      end
  end.

(** OAuth2 Authentication (Level 3). *)
Definition authenticateOAuth2 (c : OAuth2Params.t) : M AuthResult.t :=
  let isValidOAuth2 :=
    (0 <? String.length (OAuth2Params.clientId c))%nat
    && (0 <? String.length (OAuth2Params.clientSecret c))%nat in
  if negb isValidOAuth2 then
    fail_with "INVALID_OAUTH2_CREDENTIALS" "Invalid OAuth2 client credentials"
  else
    let user :=
      UserInfo.mk ("oauth2_" +:+ Js.slice_last 8 (OAuth2Params.clientId c))
        (Some ("user@" +:+ OAuth2Params.provider c +:+ ".com"))
        (Some (OAuth2Params.provider c +:+ " User"))
        ["basic"; "read"; "write"; "admin"]
        ["oauth2_user"; "premium_user"] in
    session ← createSession user (UserInfo.permissions user);
    let payload :=
      JwtPayload.mk (UserInfo.id user) (UserInfo.permissions user)
                    (Session.id session) (Some (OAuth2Params.provider c)) in
    signed ← sign payload;
    match signed with
    | Normal token =>
        mret (AuthResult.succeeded (Session.id session) token
                (Session.expiresAt session) (UserInfo.permissions user) user)
    | Throw message => fail_with "OAUTH2_AUTH_ERROR" message
    end.

(** Each of the three [if] blocks of [authenticate] either returns a
    result or falls through with the steps recorded so far. *)
Definition step_api_key (request : AuthRequest.t) (startTime : Z)
  (authSteps : list AuthStep.t) : M (option AuthResult.t * list AuthStep.t) :=
  if String.eqb (AuthRequest.method request) "api-key"
     && Js.truthy_opt (AuthRequest.apiKey request) then
    apiKeyResult ← authenticateAPIKey (default EmptyString (AuthRequest.apiKey request))
                     (default [] (AuthRequest.permissions request));
    t ← Date_now;
    let stepDuration := t - startTime in
    let authSteps :=
      Js.push authSteps
        (AuthStep.mk 1 "api-key" stepDuration (AuthResult.success apiKeyResult)
                     (AuthResult.permissions apiKeyResult) "basic") in
    if AuthResult.success apiKeyResult then
      t' ← Date_now;
      let totalDuration := t' - startTime in
      mret (Some (AuthResult.with_steps apiKeyResult authSteps totalDuration
                    "standard"), authSteps)
    else mret (None, authSteps)
  else mret (None, authSteps).

Definition step_jwt (request : AuthRequest.t) (startTime totalDuration : Z)
  (authSteps : list AuthStep.t) : M (option AuthResult.t * list AuthStep.t) :=
  if String.eqb (AuthRequest.method request) "jwt"
     && Js.truthy_opt (AuthRequest.token request) then
    jwtResult ← authenticateJWT (default EmptyString (AuthRequest.token request));
    t ← Date_now;
    let stepDuration := t - startTime - totalDuration in
    let authSteps :=
      Js.push authSteps
        (AuthStep.mk 2 "jwt" stepDuration (AuthResult.success jwtResult)
                     (AuthResult.permissions jwtResult) "standard") in
    if AuthResult.success jwtResult then
      t' ← Date_now;
      let totalDuration := t' - startTime in
      mret (Some (AuthResult.with_steps jwtResult authSteps totalDuration
                    "high"), authSteps)
    else mret (None, authSteps)
  else mret (None, authSteps).

Definition step_oauth2 (request : AuthRequest.t) (startTime totalDuration : Z)
  (authSteps : list AuthStep.t) : M (option AuthResult.t * list AuthStep.t) :=
  if String.eqb (AuthRequest.method request) "oauth2"
     && Js.truthy_opt (AuthRequest.clientId request)
     && Js.truthy_opt (AuthRequest.clientSecret request) then
    oauth2Result ← authenticateOAuth2
      (OAuth2Params.mk (default EmptyString (AuthRequest.clientId request))
                       (default EmptyString (AuthRequest.clientSecret request))
                       (Js.or_else (AuthRequest.redirectUri request) EmptyString)
                       (Js.or_else (AuthRequest.provider request) "generic"));
    t ← Date_now;
    let stepDuration := t - startTime - totalDuration in
    let authSteps :=
      Js.push authSteps
        (AuthStep.mk 3 "oauth2" stepDuration (AuthResult.success oauth2Result)
                     (AuthResult.permissions oauth2Result) "enterprise") in
    t' ← Date_now;
    let totalDuration := t' - startTime in
    mret (Some (AuthResult.with_steps oauth2Result authSteps totalDuration
                  "enterprise"), authSteps)
  else mret (None, authSteps).

(** [authenticate(request)]. No statement between the inner calls can
    throw, so the outer [catch] (code AUTH_SERVICE_ERROR) is never
    entered. *)
Definition authenticate (request : AuthRequest.t) : M AuthResult.t :=
  startTime ← Date_now;
  let authSteps : list AuthStep.t := [] in
  let totalDuration := 0 in
  '(returned, authSteps) ← step_api_key request startTime authSteps;
  match returned with
  | Some result => mret result
  | None =>
  '(returned, authSteps) ← step_jwt request startTime totalDuration authSteps;
  match returned with
  | Some result => mret result
  | None =>
  '(returned, authSteps) ← step_oauth2 request startTime totalDuration authSteps;
  match returned with
  | Some result => mret result
  | None =>
      t ← Date_now;
      timestamp ← Date_now;
      mret (AuthResult.mk false None None None None None (Some authSteps)
              (Some (t - startTime)) None
              (Some (AuthError.mk "AUTH_METHOD_REQUIRED"
                       "Valid authentication method required" timestamp)))
  end end end.

End WithOracles.

End AuthService.


(* ===================================================================== *)
(** ** Vocabulary of the properties                                       *)
(* ===================================================================== *)

(** Two session records that differ in [lastAccessedAt] at most. *)
Definition same_but_lastAccessedAt (s s' : Session.t) : Prop :=
  s' = Session.touch (Session.lastAccessedAt s') s.

(** Every record of the table is stored under its own identifier and
    expires one timeout after its creation. *)
Definition well_formed_table (timeout : Z) (w : World) : Prop :=
  forall i s, sessions w !! i = Some s ->
    Session.id s = i /\ Session.expiresAt s = Session.createdAt s + timeout.

(** A character other than the underscore. *)
Definition not_underscore (c : ascii) : bool := negb (Ascii.eqb c "_").

(** The identifier was made by [createSession] from one of the first [n]
    draws of the generator. *)
Definition drawn_before (uuidv4 : nat -> string) (n : nat) (i : string) : Prop :=
  exists t d, i = "session_" +:+ pretty (t : Z) +:+ "_" +:+ uuidv4 d /\ (d < n)%nat.

(** Every identifier of the table was made from a draw that has been
    taken. *)
Definition table_drawn (uuidv4 : nat -> string) (w : World) : Prop :=
  forall i s, sessions w !! i = Some s -> drawn_before uuidv4 (draws w) i.

(** The shape checks [authenticate] makes before it runs a tier: the
    guards of its three [if] blocks and the format check of the API-key
    tier. A request that fails them reaches no tier that creates a
    session. *)
Definition structurally_invalid (request : AuthRequest.t) : bool :=
  if String.eqb (AuthRequest.method request) "api-key" then
    negb (Js.truthy_opt (AuthRequest.apiKey request))
    || negb (Js.startsWith (default EmptyString (AuthRequest.apiKey request)) "agentui_")
    || (String.length (default EmptyString (AuthRequest.apiKey request)) <? 32)%nat
  else if String.eqb (AuthRequest.method request) "jwt" then
    negb (Js.truthy_opt (AuthRequest.token request))
  else if String.eqb (AuthRequest.method request) "oauth2" then
    negb (Js.truthy_opt (AuthRequest.clientId request))
    || negb (Js.truthy_opt (AuthRequest.clientSecret request))
  else true.

(** The code of an error result, if the result carries an error. *)
Definition error_code (r : AuthResult.t) : option string :=
  AuthError.code <$> AuthResult.error r.

(** The error codes the specification names, as the sources spell them
    (the last one occurs in the REST controller only). *)
Definition InvalidAPIKeyFormat : string := "INVALID_API_KEY_FORMAT".
Definition AuthMethodRequired : string := "AUTH_METHOD_REQUIRED".
Definition MissingOAuth2Config : string := "MISSING_OAUTH2_CONFIG".

(** The user the JWT tier builds from the decoded claims. *)
Definition jwt_user (decoded : JwtClaims.t) : UserInfo.t :=
  UserInfo.mk (JwtClaims.userId decoded) None (Some "JWT User")
    (default ["basic"] (JwtClaims.permissions decoded)) ["jwt_user"].

(** A digest the package cannot take apart. *)
Definition malformed (lib : Argon2.Lib) (digest : string) : Prop :=
  forall d, Argon2.deserialize lib digest <> Normal d.

(** The password derives the key of the digest again, under the
    parameters and the salt the digest carries. *)
Definition rederives (lib : Argon2.Lib) (password digest : string) : Prop :=
  exists d, Argon2.deserialize lib digest = Normal d
            /\ Argon2.rederive lib d password = Argon2.phc_key d.

(** The seven criteria of the strength score. *)
Inductive Criterion :=
  | Len8 | Len12 | Lowercase | Uppercase | Digit | Symbol | NoRepeat.

#[global] Instance Criterion_eq_dec : EqDecision Criterion.
Proof. solve_decision. Defined.

Definition criteria : list Criterion :=
  [Len8; Len12; Lowercase; Uppercase; Digit; Symbol; NoRepeat].

(** Three equal characters in a row, whatever the character. *)
Fixpoint has_run3 (s : string) : bool :=
  match s with
  | String a ((String b (String c _)) as r) =>
      (Ascii.eqb a b && Ascii.eqb a c) || has_run3 r
  | _ => false
  end.

(** The criteria as the specification words them. *)
Definition met_as_worded (c : Criterion) (password : string) : bool :=
  match c with
  | Len8 => (8 <=? String.length password)%nat
  | Len12 => (12 <=? String.length password)%nat
  | Lowercase => Js.test_class Js.lower password
  | Uppercase => Js.test_class Js.upper password
  | Digit => Js.test_class Js.digit password
  | Symbol => Js.test_class Js.other password
  | NoRepeat => negb (has_run3 password)
  end.

(** The criteria as the sources test them: the repetition test is the
    regular expression, whose dot skips line terminators. *)
Definition met (c : Criterion) (password : string) : bool :=
  match c with
  | NoRepeat => negb (Js.test_repeat password)
  | _ => met_as_worded c password
  end.

Definition points (test : Criterion -> string -> bool) (password : string) : Z :=
  Z.of_nat (length (filter (fun c => test c password = true) criteria)).

(** The feedback line of each criterion, in [PasswordUtils] and in
    [utils/password-hashing.ts]; meeting [Len12] has no line. *)
Definition line_PasswordUtils (c : Criterion) : option string :=
  match c with
  | Len8 => Some "Password should be at least 8 characters long"
  | Len12 => None
  | Lowercase => Some "Include lowercase letters"
  | Uppercase => Some "Include uppercase letters"
  | Digit => Some "Include numbers"
  | Symbol => Some "Include special characters"
  | NoRepeat => Some "Avoid repeating characters"
  end.

Definition line_PasswordHashing (c : Criterion) : option string :=
  match c with
  | Len8 => Some "Password must be at least 8 characters long"
  | Len12 => None
  | Lowercase => Some "Password must contain lowercase letters"
  | Uppercase => Some "Password must contain uppercase letters"
  | Digit => Some "Password must contain numbers"
  | Symbol => Some "Password must contain special characters"
  | NoRepeat => Some "Password should not contain repeated characters"
  end.

(** The lines of the criteria a password does not meet, in order. *)
Definition unmet_lines (line : Criterion -> option string)
  (password : string) : list string :=
  omap line (filter (fun c => met c password = false) criteria).


(* ===================================================================== *)
(** ** A concrete deployment, for the examples                            *)
(* ===================================================================== *)

Module Scenario.

(** A clock that stands at 0 while a session is created and reads 1000
    from the third reading on. *)
Definition clock_0_then_1000 (n : nat) : Z :=
  match n with
  | O | S O => 0
  | _ => 1000
  end.

(** A clock that advances one millisecond per reading. *)
Definition clock_1ms (n : nat) : Z := Z.of_nat n.

Definition uuidv4 (n : nat) : string := "uuid-" +:+ pretty n.

Definition one_second : SessionManager.Config :=
  SessionManager.mkConfig 1000 300000.

Definition alice : UserInfo.t :=
  UserInfo.mk "alice" None (Some "Alice") ["basic"] ["member"].

Definition config : AuthService.Config :=
  AuthService.mkConfig "secret" "1h" PasswordUtils.defaultConfig 3600000 false.

(** A signer that always succeeds, and a verifier that accepts exactly
    the token issued for the first session of the scenario. *)
Definition jwt_sign (now : Z) (p : JwtPayload.t) (secret expiresIn : string)
  : Completion string :=
  Normal ("jwt." +:+ JwtPayload.sessionId p).

Definition jwt_verify (now : Z) (token secret : string)
  : Completion JwtClaims.t :=
  if String.eqb token "jwt.session_1_uuid-0" then
    Normal (JwtClaims.mk "user_89abcdef" (Some ["basic"; "chat"])
              (Some "session_1_uuid-0"))
  else Throw "jwt malformed".

(** Three line feeds. *)
Definition three_newlines : string :=
  String "010"%char (String "010"%char (String "010"%char EmptyString)).

Definition api_key_request (k : string) : AuthRequest.t :=
  AuthRequest.mk "api-key" (Some k) None None None None None
                 (Some ["basic"; "chat"]).

Definition good_key : string := "agentui_0123456789abcdef0123456789abcdef".

(** A stand-in for the argon2 package: it rejects cost parameters that
    are not positive, the key is the password itself, and a digest is the
    algorithm tag followed by the key. *)
Definition argon2 : Argon2.Lib :=
  Argon2.mkLib
    (fun salt plain o =>
       if (Argon2.memoryCost o <=? 0) || (Argon2.timeCost o <=? 0)
          || (Argon2.parallelism o <=? 0) || (Argon2.hashLength o <=? 0)
       then Throw "Invalid options"
       else Normal ("$argon2id$" +:+ plain))
    (fun s =>
       if String.prefix "$argon2id$" s
       then Normal (Argon2.mkPhc 65536 3 4 EmptyString
                      (String.substring 10 (String.length s - 10) s))
       else Throw "pchstr must contain a $ as first char")
    (fun plain salt m t p len => plain).

End Scenario.


(* ===================================================================== *)
(** ** AuthService, session methods (auth-service.ts, lines 600-700)      *)
(* ===================================================================== *)

Module AuthServiceSession.

Section WithOracles.

Variable clock : nat -> Z.
Variable uuidv4 : nat -> string.
Variable jwt_sign : Z -> JwtPayload.t -> string -> string -> Completion string.
Variable config : AuthService.Config.

(** [validateSession(sessionId)]: nothing in its [try] block throws. *)
Definition validateSession (sessionId : string) : M AuthResult.t :=
  session ← SessionManager.validateSession clock sessionId;
  match session with
  | None =>
      AuthService.fail_with clock "SESSION_NOT_FOUND"
                            "Session not found or expired"
  | Some session =>
      mret (AuthResult.mk true (Some (Session.id session)) None
              (Some (Session.expiresAt session))
              (Some (Session.permissions session))
              (Some (Session.user session)) None None None None)
  end.

(** [refreshSession(sessionId)]: [jwt.sign] is the one call that can
    throw, and it is made after the session manager has rotated the
    session. *)
Definition refreshSession (sessionId : string) : M AuthResult.t :=
  newSession ← SessionManager.refreshSession clock uuidv4
                  (AuthService.sessionManager config) sessionId;
  match newSession with
  | None =>
      AuthService.fail_with clock "SESSION_REFRESH_FAILED"
                            "Unable to refresh session"
  | Some newSession =>
      let payload :=
        JwtPayload.mk (Session.userId newSession)
                      (Session.permissions newSession)
                      (Session.id newSession) None in
      signed ← AuthService.sign clock jwt_sign config payload;
      match signed with
      | Normal token =>
          mret (AuthResult.succeeded (Session.id newSession) token
                  (Session.expiresAt newSession)
                  (Session.permissions newSession)
                  (Session.user newSession))
      | Throw message =>
          AuthService.fail_with clock "SESSION_REFRESH_ERROR" message
      end
  end.

(** [destroySession(sessionId)]: the error, with its timestamp, is built
    only when nothing was destroyed. *)
Definition destroySession (sessionId : string) : M AuthResult.t :=
  destroyed ← SessionManager.destroySession sessionId;
  if destroyed : bool then
    (mret (AuthResult.mk true None None None None None None None None None)
       : M AuthResult.t)
  else
    AuthService.fail_with clock "SESSION_DESTROY_FAILED" "Session not found".

End WithOracles.

End AuthServiceSession.

(** The world after one reading of the clock and nothing else. *)
Definition after_reading (w : World) : World :=
  mkWorld (sessions w) (S (ticks w)) (draws w) (signed w).

(** A clock that never runs backwards. *)
Definition monotone (clock : nat -> Z) : Prop :=
  forall n, clock n <= clock (S n).

(** The format check of the API-key tier. *)
Definition well_formed_key (apiKey : string) : bool :=
  Js.startsWith apiKey "agentui_" && (32 <=? String.length apiKey)%nat.

(** The user the API-key tier builds for a key and the requested
    permissions. *)
Definition api_key_user (apiKey : string) (requested : list string)
  : UserInfo.t :=
  UserInfo.mk ("user_" +:+ Js.slice_last 8 apiKey) None (Some "API Key User")
    (if (0 <? length requested)%nat then requested else ["basic"; "read"])
    ["api_user"].

(** The world after [k] readings of the clock and nothing else. *)
Definition after_readings (k : nat) (w : World) : World :=
  mkWorld (sessions w) (k + ticks w) (draws w) (signed w).

(** The world after [jwt.sign] was called for a payload: the call reads
    the clock once. *)
Definition after_signing (p : JwtPayload.t) (w : World) : World :=
  mkWorld (sessions w) (S (ticks w)) (draws w) (p :: signed w).

(** The failure [authenticate] ends with when no tier returned. *)
Definition no_method_result (authSteps : list AuthStep.t)
  (totalDuration timestamp : Z) : AuthResult.t :=
  AuthResult.mk false None None None None None (Some authSteps)
    (Some totalDuration) None
    (Some (AuthError.mk "AUTH_METHOD_REQUIRED"
             "Valid authentication method required" timestamp)).

(** A signer that always throws, as [jwt.sign] does without a secret. *)
Module Faulty.

Definition jwt_sign (now : Z) (p : JwtPayload.t) (secret expiresIn : string)
  : Completion string :=
  Throw "secretOrPrivateKey must have a value".

End Faulty.

(* ===================================================================== *)
(** ** utils/password-hashing.ts, generateSecurePassword (lines 98-111)   *)
(* ===================================================================== *)

(** A JS number, as far as [generateSecurePassword] tells numbers apart:
    an integer, a finite number that is no integer (given by the integer
    below it), NaN, or an infinity. *)
Module JsNumber.
Inductive t :=
  | Int (n : Z)
  | Frac (floor : Z)
  | NaN
  | PosInf
  | NegInf.
End JsNumber.

Module SecurePassword.

Definition charset : string :=
  "ABCDEFGHIJKLMNOPQRSTUVWXYZabcdefghijklmnopqrstuvwxyz0123456789!@#$%^&*".

(** [charset[n]] appended to a string: a character, or the text
    [undefined] when [n] is out of range. *)
Definition charset_at (n : nat) : string :=
  match String.get n charset with
  | Some c => String c EmptyString
  | None => "undefined"
  end.

(** [array[i] % charset.length] for a byte of the [Uint8Array]. *)
Definition index_of_byte (b : ascii) : nat :=
  nat_of_ascii b mod String.length charset.

(** [new Uint8Array(length)] takes the integer part of [length] and
    throws a RangeError when that is negative or more than the engine
    allocates; [max_length] is the largest length it does allocate (at
    most 2^53 - 1, and in every engine far above the quota of
    [getRandomValues]). *)
Definition array_length (max_length : Z) (length : JsNumber.t)
  : Completion Z :=
  let checked (n : Z) : Completion Z :=
    if (n <? 0) || (max_length <? n)
    then Throw "RangeError: Invalid typed array length"
    else Normal n in
  match length with
  | JsNumber.Int n => checked n
  | JsNumber.Frac floor => checked (if floor <? 0 then floor + 1 else floor)
  | JsNumber.NaN => Normal 0
  | JsNumber.PosInf | JsNumber.NegInf =>
      Throw "RangeError: Invalid typed array length"
  end.

(** How often the test [i < length] of the loop holds, for i = 0, 1, ... *)
Definition rounds (length : JsNumber.t) : nat :=
  match length with
  | JsNumber.Int n => Z.to_nat n
  | JsNumber.Frac floor => Z.to_nat (floor + 1)
  | JsNumber.NaN | JsNumber.NegInf | JsNumber.PosInf => O
  end.

(** What round [i] appends: [charset[array[i] % charset.length]]. Past
    the end of the array, [array[i]] is undefined, the remainder is NaN,
    and [charset[NaN]] is undefined. *)
Definition appended (array : list ascii) (i : nat) : string :=
  match array !! i with
  | Some b => charset_at (index_of_byte b)
  | None => "undefined"
  end.

(** The loop [for (let i = 0; i < length; i++)], run from [i] for
    [count] more rounds. *)
Fixpoint loop (array : list ascii) (i count : nat) (password : string)
  : string :=
  match count with
  | O => password
  | S count' => loop array (S i) count' (password +:+ appended array i)
  end.

(** [generateSecurePassword(length)], with [length] 16 when the
    argument is left out; [random_byte i] is the byte that
    [crypto.getRandomValues] writes at position [i]. That call throws a
    QuotaExceededError for an array of more than 65536 bytes. *)
Definition generateSecurePassword (max_length : Z) (random_byte : nat -> ascii)
  (length : option JsNumber.t) : Completion string :=
  let length := default (JsNumber.Int 16) length in
  match array_length max_length length with
  | Throw message => Throw message
  | Normal size =>
      if 65536 <? size then
        Throw "QuotaExceededError: The requested length exceeds 65,536 bytes"
      else
        let array := map random_byte (seq 0 (Z.to_nat size)) in
        Normal (loop array 0 (rounds length) EmptyString)
  end.

(** All 256 values of a byte. *)
Definition all_bytes : list ascii := map ascii_of_nat (seq 0 256).

End SecurePassword.

(** Every character of a string satisfies a test. *)
Fixpoint all_chars (p : ascii -> bool) (s : string) : bool :=
  match s with
  | EmptyString => true
  | String c r => p c && all_chars p r
  end.

(** A character of the generator's alphabet: a letter, a digit or one of
    the eight symbols. *)
Definition in_charset (c : ascii) : bool :=
  Js.test_class (Ascii.eqb c) SecurePassword.charset.

(* ===================================================================== *)
(** ** Regular expressions and text functions of the endpoints            *)
(* ===================================================================== *)

(** The regular expressions the endpoints use have no back-references
    and no look-around; [test] on a pattern anchored by ^ and $ decides
    whether the whole string is in the language of the pattern. *)
Module Regex.

Inductive t :=
  | Void
  | Eps
  | Cls (p : ascii -> bool)
  | Cat (a b : t)
  | Alt (a b : t)
  | Star (a : t).

(** A literal character, and [a+]. *)
Definition Chr (c : ascii) : t := Cls (Ascii.eqb c).
Definition Plus (a : t) : t := Cat a (Star a).

Fixpoint nullable (r : t) : bool :=
  match r with
  | Void => false
  | Eps => true
  | Cls _ => false
  | Cat a b => nullable a && nullable b
  | Alt a b => nullable a || nullable b
  | Star _ => true
  end.

(** What is left of [r] after it has read the character [c]. *)
Fixpoint deriv (c : ascii) (r : t) : t :=
  match r with
  | Void => Void
  | Eps => Void
  | Cls p => if p c then Eps else Void
  | Cat a b =>
      if nullable a then Alt (Cat (deriv c a) b) (deriv c b)
      else Cat (deriv c a) b
  | Alt a b => Alt (deriv c a) (deriv c b)
  | Star a => Cat (deriv c a) (Star a)
  end.

(** [/^r$/.test(s)]. *)
Fixpoint test (r : t) (s : string) : bool :=
  match s with
  | EmptyString => nullable r
  | String c s' => test (deriv c r) s'
  end.

(** The language of a pattern. *)
Inductive lang : t -> string -> Prop :=
  | lang_eps : lang Eps EmptyString
  | lang_cls p c : p c = true -> lang (Cls p) (String c EmptyString)
  | lang_cat a b s1 s2 : lang a s1 -> lang b s2 -> lang (Cat a b) (s1 +:+ s2)
  | lang_alt_l a b s : lang a s -> lang (Alt a b) s
  | lang_alt_r a b s : lang b s -> lang (Alt a b) s
  | lang_star_nil a : lang (Star a) EmptyString
  | lang_star_cons a s1 s2 :
      lang a s1 -> lang (Star a) s2 -> lang (Star a) (s1 +:+ s2).

End Regex.

Module JsText.

(** The class \s, as far as it lies in the represented range: tab, line
    feed, vertical tab, form feed, carriage return, space and the
    no-break space. *)
Definition space (c : ascii) : bool :=
  let n := N_of_ascii c in
  ((9 <=? n) && (n <=? 13) || (n =? 32) || (n =? 160))%N.

(** [toLowerCase] on one code unit: A-Z and the capital letters of
    Latin-1 move up by 32. *)
Definition lower_char (c : ascii) : ascii :=
  let n := N_of_ascii c in
  if ((65 <=? n) && (n <=? 90) || (192 <=? n) && (n <=? 214)
      || (216 <=? n) && (n <=? 222))%N
  then ascii_of_N (n + 32) else c.

Fixpoint toLowerCase (s : string) : string :=
  match s with
  | EmptyString => EmptyString
  | String c r => String (lower_char c) (toLowerCase r)
  end.

Fixpoint trimStart (s : string) : string :=
  match s with
  | String c r => if space c then trimStart r else s
  | EmptyString => EmptyString
  end.

(** [trimEnd], processing the string from its end. *)
Fixpoint trimEnd (s : string) : string :=
  match s with
  | EmptyString => EmptyString
  | String c r =>
      match trimEnd r with
      | EmptyString => if space c then EmptyString else String c EmptyString
      | r' => String c r'
      end
  end.

(** [s.trim()]. *)
Definition trim (s : string) : string := trimEnd (trimStart s).

(** How often a character occurs in a string. *)
Fixpoint count_char (c : ascii) (s : string) : nat :=
  match s with
  | EmptyString => O
  | String d r => ((if Ascii.eqb c d then 1 else 0) + count_char c r)%nat
  end.

End JsText.

(** The email pattern of signup.ts, of the login endpoint and of
    forgot-password.ts: [/^[^\s@]+@[^\s@]+\.[^\s@]+$/]. *)
Module Email.

(** [[^\s@]]. *)
Definition plain (c : ascii) : bool :=
  negb (JsText.space c || Ascii.eqb c "@").

Definition emailRegex : Regex.t :=
  Regex.Cat (Regex.Plus (Regex.Cls plain))
    (Regex.Cat (Regex.Chr "@")
       (Regex.Cat (Regex.Plus (Regex.Cls plain))
          (Regex.Cat (Regex.Chr ".")
             (Regex.Plus (Regex.Cls plain))))).

(** A non-empty run of characters other than white space and the at
    sign. *)
Definition word (s : string) : Prop :=
  s <> EmptyString /\ all_chars plain s = true.

End Email.

(* ===================================================================== *)
(** ** The signup and login endpoints                                     *)
(**    (pages/api/auth/signup.ts; the login endpoint that follows the     *)
(**    forgot-password endpoint in pages/api/auth/forgot-password.ts)     *)
(* ===================================================================== *)

(** An entry of a [mockUsers] array. The login endpoint's entries have no
    [emailVerified] property. *)
Module Account.
Record t := mk {
  id : string;
  email : string;
  password : string;
  name : string;
  permissions : list string;
  createdAt : Z;
  lastLogin : option Z;
  emailVerified : option bool
}.

(** [user.lastLogin = new Date()]. *)
Definition logged_in (now : Z) (u : t) : t :=
  mk (id u) (email u) (password u) (name u) (permissions u) (createdAt u)
     (Some now) (emailVerified u).
End Account.

(** The [user] object inside a response body; it has no password. *)
Module UserView.
Record t := mk {
  id : string;
  email : string;
  name : string;
  permissions : list string;
  createdAt : option Z;
  emailVerified : option bool;
  lastLogin : option Z
}.
End UserView.

(** The object that is serialised into the token. *)
Module TokenPayload.
Record t := mk {
  sub : string;
  email : string;
  name : string;
  permissions : list string;
  sessionId : string;
  iat : Z;
  exp : Z
}.
End TokenPayload.

(** A [Response]: status, the properties of the JSON body, and the
    Set-Cookie header. *)
Module Response.
Record t := mk {
  status : Z;
  success : bool;
  error : option string;
  message : option string;
  details : option (list string);
  sessionId : option string;
  token : option string;
  expiresAt : option Z;
  permissions : option (list string);
  user : option UserView.t;
  setCookie : option string
}.

(** [{ success: false, error }] with a status. *)
Definition failure (status : Z) (error : string) : t :=
  mk status false (Some error) None None None None None None None None.
End Response.

(** The state of an endpoint module: its [mockUsers] array, and how often
    the clock was read and an identifier drawn. *)
Record Site := mkSite {
  mockUsers : list Account.t;
  site_ticks : nat;
  site_draws : nat
}.

(** The fields of a parsed JSON body; a field that is present holds a
    string, [acceptTerms] and [rememberMe] are taken by their truth
    value. *)
Module SignupBody.
Record t := mk {
  email : option string;
  password : option string;
  name : option string;
  acceptTerms : bool
}.
End SignupBody.

Module LoginBody.
Record t := mk {
  email : option string;
  password : option string;
  rememberMe : bool
}.
End LoginBody.

(** A signup request that has passed the checks and waits for its
    hash. *)
Module Pending.
Record t := mk {
  email : string;
  password : string;
  name : string
}.
End Pending.

Section Endpoints.

Variable clock : nat -> Z.
Variable randomUUID : nat -> string.
Variable argon2 : Argon2.Lib.

(** [btoa(JSON.stringify(payload))]; [btoa] throws on a character
    outside Latin-1. *)
Variable encode : TokenPayload.t -> Completion string.

(** [mockUsers.find(u => u.email.toLowerCase() === email.toLowerCase())]. *)
Definition find_by_email (email : string) (users : list Account.t)
  : option Account.t :=
  List.find (fun u => String.eqb (JsText.toLowerCase (Account.email u))
                                 (JsText.toLowerCase email)) users.

(** The signup handler runs in two parts. The first part, up to
    [await hashPassword(password)], checks the request and looks the
    email up in the array; it answers the request or leaves it waiting
    for the hash. [body] is [None] when [request.json()] threw. *)
Definition signup_check (body : option SignupBody.t) (users : list Account.t)
  : Response.t + Pending.t :=
  match body with
  | None => inl (Response.failure 400 "Invalid JSON in request body")
  | Some b =>
      if negb (Js.truthy_opt (SignupBody.email b))
         || negb (Js.truthy_opt (SignupBody.password b))
         || negb (Js.truthy_opt (SignupBody.name b)) then
        inl (Response.failure 400 "Email, password, and name are required")
      else
        let email := default EmptyString (SignupBody.email b) in
        let password := default EmptyString (SignupBody.password b) in
        let name := default EmptyString (SignupBody.name b) in
        if negb (SignupBody.acceptTerms b) then
          inl (Response.failure 400 "You must accept the terms of service")
        else if negb (Regex.test Email.emailRegex email) then
          inl (Response.failure 400 "Invalid email format")
        else if (String.length name <? 2)%nat || (50 <? String.length name)%nat then
          inl (Response.failure 400 "Name must be between 2 and 50 characters")
        else
          let passwordValidation :=
            PasswordHashing.validatePasswordStrength password in
          if negb (Strength.isValid passwordValidation) then
            inl (Response.mk 400 false
                   (Some "Password does not meet security requirements") None
                   (Some (Strength.feedback passwordValidation))
                   None None None None None None)
          else
            match find_by_email email users with
            | Some _ =>
                inl (Response.failure 409
                       "An account with this email already exists")
            | None => inr (Pending.mk email password name)
            end
  end.

(** The second part runs when the hash is there, on the array as it is
    then; other requests may have been served in between. [salt] is the
    salt that hashing drew. *)
Definition signup_resume (p : Pending.t) (salt : string) (st : Site)
  : Response.t * Site :=
  let email := Pending.email p in
  let password := Pending.password p in
  let name := Pending.name p in
  match PasswordHashing.hashPassword argon2 salt password with
  | Throw _ => (Response.failure 500 "Internal server error", st)
  | Normal hashedPassword =>
      let t := site_ticks st in
      let d := site_draws st in
      let newUser :=
        Account.mk (randomUUID d) (JsText.toLowerCase email)
          hashedPassword (JsText.trim name) ["basic"; "chat"]
          (clock t) None (Some false) in
      let users := (mockUsers st ++ [newUser])%list in
      let sessionId := randomUUID (S d) in
      let tokenPayload :=
        TokenPayload.mk (Account.id newUser)
          (Account.email newUser) (Account.name newUser)
          (Account.permissions newUser) sessionId
          (clock (S t) / 1000)
          (clock (S (S t)) / 1000 + 60 * 60) in
      match encode tokenPayload with
      | Throw _ =>
          (Response.failure 500 "Internal server error",
           mkSite users (S (S (S t))) (S (S d)))
      | Normal token =>
          let expiresAt :=
            clock (S (S (S t))) + 60 * 60 * 1000 in
          (Response.mk 201 true None None None (Some sessionId)
             (Some token) (Some expiresAt)
             (Some (Account.permissions newUser))
             (Some (UserView.mk (Account.id newUser)
                      (Account.email newUser)
                      (Account.name newUser)
                      (Account.permissions newUser)
                      (Some (Account.createdAt newUser))
                      (Account.emailVerified newUser) None))
             (Some ("sessionId=" +:+ sessionId
                    +:+ "; HttpOnly; Secure; SameSite=Strict; Max-Age=3600; Path=/")),
           mkSite users (S (S (S (S t)))) (S (S d)))
      end
  end.

(** A request that is served without another one in between. *)
Definition signup_POST (body : option SignupBody.t) (salt : string)
  (st : Site) : Response.t * Site :=
  match signup_check body (mockUsers st) with
  | inl response => (response, st)
  | inr p => signup_resume p salt st
  end.

(** [user.lastLogin = new Date()] for the entry that [find] returned:
    the first entry with that email. *)
Fixpoint mark_login (email : string) (now : Z) (users : list Account.t)
  : list Account.t :=
  match users with
  | [] => []
  | u :: rest =>
      if String.eqb (JsText.toLowerCase (Account.email u))
                    (JsText.toLowerCase email)
      then Account.logged_in now u :: rest
      else u :: mark_login email now rest
  end.

(** The login endpoint. *)
Definition login_POST (body : option LoginBody.t) (st : Site)
  : Response.t * Site :=
  match body with
  | None => (Response.failure 400 "Invalid JSON in request body", st)
  | Some b =>
      if negb (Js.truthy_opt (LoginBody.email b))
         || negb (Js.truthy_opt (LoginBody.password b)) then
        (Response.failure 400 "Email and password are required", st)
      else
        let email := default EmptyString (LoginBody.email b) in
        let password := default EmptyString (LoginBody.password b) in
        let rememberMe := LoginBody.rememberMe b in
        if negb (Regex.test Email.emailRegex email) then
          (Response.failure 400 "Invalid email format", st)
        else
          match find_by_email email (mockUsers st) with
          | None => (Response.failure 401 "Invalid email or password", st)
          | Some user =>
              match PasswordHashing.verifyPassword argon2 password
                      (Account.password user) with
              | Throw _ => (Response.failure 500 "Internal server error", st)
              | Normal false =>
                  (Response.failure 401 "Invalid email or password", st)
              | Normal true =>
                  let t := site_ticks st in
                  let d := site_draws st in
                  let sessionId := randomUUID d in
                  let tokenPayload :=
                    TokenPayload.mk (Account.id user) (Account.email user)
                      (Account.name user) (Account.permissions user) sessionId
                      (clock t / 1000)
                      (clock (S t) / 1000
                       + (if rememberMe then 30 * 24 * 60 * 60 else 60 * 60)) in
                  match encode tokenPayload with
                  | Throw _ =>
                      (Response.failure 500 "Internal server error",
                       mkSite (mockUsers st) (S (S t)) (S d))
                  | Normal token =>
                      let expiresAt :=
                        clock (S (S t))
                        + (if rememberMe then 30 * 24 * 60 * 60 * 1000
                           else 60 * 60 * 1000) in
                      let lastLogin := clock (S (S (S t))) in
                      (Response.mk 200 true None None None (Some sessionId)
                         (Some token) (Some expiresAt)
                         (Some (Account.permissions user))
                         (Some (UserView.mk (Account.id user)
                                  (Account.email user) (Account.name user)
                                  (Account.permissions user) None None
                                  (Some lastLogin)))
                         (Some ("sessionId=" +:+ sessionId
                                +:+ "; HttpOnly; Secure; SameSite=Strict; Max-Age="
                                +:+ pretty (if rememberMe
                                            then 30 * 24 * 60 * 60 else 60 * 60)
                                +:+ "; Path=/")),
                       mkSite (mark_login email lastLogin (mockUsers st))
                              (S (S (S (S t)))) (S d))
                  end
              end
          end
  end.

(** The states of the signup endpoint: the array and the counters, and
    the requests that wait for their hash. The array starts empty; a
    request arrives and is checked against the array as it is; a waiting
    request, whichever, is resumed. *)
Inductive signup_reachable : Site -> list Pending.t -> Prop :=
  | signup_start t0 d0 : signup_reachable (mkSite [] t0 d0) []
  | signup_arrives st waiting body :
      signup_reachable st waiting ->
      signup_reachable st
        (match signup_check body (mockUsers st) with
         | inl _ => waiting
         | inr p => p :: waiting
         end)
  | signup_resumes st before p after salt :
      signup_reachable st (before ++ p :: after)%list ->
      signup_reachable (signup_resume p salt st).2 (before ++ after)%list.

(** The states reached when the requests are served one at a time: none
    arrives while another waits for its hash. *)
Inductive signup_serial : Site -> Prop :=
  | serial_start t0 d0 : signup_serial (mkSite [] t0 d0)
  | serial_step st body salt :
      signup_serial st -> signup_serial (signup_POST body salt st).2.

End Endpoints.

(** The two accounts of the login endpoint's [mockUsers] array. *)
Definition login_mockUsers : list Account.t :=
  [ Account.mk "1" "demo@simone.ai"
      "$argon2id$v=19$m=65536,t=3,p=1$cvixXt9aAHfs24zAKIeiag$JHBg/LEloAPvgLxeF0Xcc/6qnhvaTCaeiGUtMzFm/c8"
      "Demo User" ["basic"; "chat"] 1704067200000 None None;
    Account.mk "2" "admin@simone.ai"
      "$argon2id$v=19$m=65536,t=3,p=1$cvixXt9aAHfs24zAKIeiag$JHBg/LEloAPvgLxeF0Xcc/6qnhvaTCaeiGUtMzFm/c8"
      "Admin User" ["basic"; "chat"; "admin"] 1704067200000 None None ].

(** Oracles for the examples of the endpoints. *)
Module EndpointScenario.

Definition randomUUID (n : nat) : string := "id-" +:+ pretty n.

Definition encode (p : TokenPayload.t) : Completion string :=
  Normal ("token-for-" +:+ TokenPayload.sessionId p).

(** An encoder that throws, as [btoa] does on a name outside Latin-1. *)
Definition encode_throws (p : TokenPayload.t) : Completion string :=
  Throw "Invalid character".

Definition body : SignupBody.t :=
  SignupBody.mk (Some "Ada@Example.org") (Some "Str0ng!Passw0rd")
                (Some "  Ada Lovelace ") true.

End EndpointScenario.

(** The keys by which [find] compares the stored accounts. *)
Definition email_keys (users : list Account.t) : list string :=
  map (fun u => JsText.toLowerCase (Account.email u)) users.

(** An account apart from its [lastLogin]. *)
Definition without_lastLogin (u : Account.t) : Account.t :=
  Account.mk (Account.id u) (Account.email u) (Account.password u)
    (Account.name u) (Account.permissions u) (Account.createdAt u) None
    (Account.emailVerified u).

(** The account that the signup endpoint builds. *)
Definition is_new_account (u : Account.t) : Prop :=
  JsText.toLowerCase (Account.email u) = Account.email u
  /\ Regex.test Email.emailRegex (Account.email u) = true
  /\ (String.length (Account.name u) <= 50)%nat
  /\ Account.permissions u = ["basic"; "chat"]
  /\ Account.lastLogin u = None
  /\ Account.emailVerified u = Some false.

(** What the checks have established of a waiting request. *)
Definition is_checked (p : Pending.t) : Prop :=
  Regex.test Email.emailRegex (Pending.email p) = true
  /\ (String.length (Pending.name p) <= 50)%nat.

(** The character classes of a pattern do not tell a character from its
    image under [f]. *)
Fixpoint class_stable (f : ascii -> ascii) (r : Regex.t) : Prop :=
  match r with
  | Regex.Cls p => forall c, p (f c) = p c
  | Regex.Cat a b | Regex.Alt a b => class_stable f a /\ class_stable f b
  | Regex.Star a => class_stable f a
  | _ => True
  end.

(** States that the login endpoint can be in: its array starts with the
    two accounts and changes by requests only. *)
Section LoginStates.

Variable clock : nat -> Z.
Variable randomUUID : nat -> string.
Variable argon2 : Argon2.Lib.
Variable encode : TokenPayload.t -> Completion string.

Inductive login_reachable : Site -> Prop :=
  | login_start t0 d0 : login_reachable (mkSite login_mockUsers t0 d0)
  | login_step st body :
      login_reachable st ->
      login_reachable (login_POST clock randomUUID argon2 encode body st).2.

End LoginStates.

(* ===================================================================== *)
(** * Properties                                                          *)
(* ===================================================================== *)

(** ** The session table *)

Module SessionFacts.

Import SessionManager.

Section Equations.

Variable clock : nat -> Z.
Variable uuidv4 : nat -> string.
Variable config : Config.

(** What [createSession] computes, in one equation. *)
Lemma createSession_eq user permissions w :
  createSession clock uuidv4 config user permissions w =
  let now := clock (S (ticks w)) in
  let s := Session.mk (next_id clock uuidv4 w) (UserInfo.id user) user now
             (now + sessionTimeout config) now permissions [] in
  (s, mkWorld (<[next_id clock uuidv4 w := s]> (sessions w))
              (S (S (ticks w))) (S (draws w)) (signed w)).
Proof. reflexivity. Qed.

Lemma validateSession_absent sessionId w :
  sessions w !! sessionId = None ->
  validateSession clock sessionId w = (None, w).
Proof.
  intros H. unfold validateSession, mbind, M_bind, get_sessions. simpl.
  rewrite H. reflexivity.
Qed.

(** What [validateSession] computes on a session that is in the table:
    the session is expired exactly when [expiresAt < now]. *)
Lemma validateSession_present sessionId s w :
  sessions w !! sessionId = Some s ->
  validateSession clock sessionId w =
  let now := clock (ticks w) in
  if Session.expiresAt s <? now then
    (None, mkWorld (delete sessionId (sessions w)) (S (ticks w)) (draws w)
                   (signed w))
  else
    (Some (Session.touch now s),
     mkWorld (<[sessionId := Session.touch now s]> (sessions w))
             (S (ticks w)) (draws w) (signed w)).
Proof.
  intros H. unfold validateSession, mbind, M_bind, get_sessions. simpl.
  rewrite H. simpl. destruct (Session.expiresAt s <? clock (ticks w)); reflexivity.
Qed.

Lemma refreshSession_eq sessionId w :
  refreshSession clock uuidv4 config sessionId w =
  match validateSession clock sessionId w with
  | (None, w1) => (None, w1)
  | (Some session, w1) =>
      let '(newSession, w2) :=
        createSession clock uuidv4 config (Session.user session)
                      (Session.permissions session) w1 in
      (Some newSession,
       mkWorld (delete sessionId (sessions w2)) (ticks w2) (draws w2) (signed w2))
  end.
Proof.
  unfold refreshSession. unfold mbind at 1. unfold M_bind at 1.
  destruct (validateSession clock sessionId w) as [[s|] w1]; reflexivity.
Qed.

Lemma destroySession_eq sessionId w :
  destroySession sessionId w =
  (bool_decide (is_Some (sessions w !! sessionId)),
   mkWorld (delete sessionId (sessions w)) (ticks w) (draws w) (signed w)).
Proof. reflexivity. Qed.

End Equations.

(** C1 (as amended). A session created at time T under
    [sessionTimeout = 1000] has [expiresAt = T + 1000]; as long as the
    table holds it, every [validateSession] at a time up to and including
    T + 1000 returns it (with [lastAccessedAt] set to that time) and keeps
    it, and every [validateSession] from T + 1001 on removes the entry and
    returns null. In general a stored session is treated as expired
    exactly when [expiresAt < now]. *)
Theorem session_expiry_boundary
  (clock : nat -> Z) (uuidv4 : nat -> string) (config : Config)
  (user : UserInfo.t) (permissions : list string) (w0 : World) :
  sessionTimeout config = 1000 ->
  let s := (createSession clock uuidv4 config user permissions w0).1 in
  let w1 := (createSession clock uuidv4 config user permissions w0).2 in
  let T := Session.createdAt s in
  sessions w1 !! Session.id s = Some s
  /\ Session.expiresAt s = T + 1000
  /\ (forall w s',
        sessions w !! Session.id s = Some s' ->
        Session.expiresAt s' = Session.expiresAt s ->
        let t := clock (ticks w) in
        (t <= T + 1000 ->
           (validateSession clock (Session.id s) w).1 = Some (Session.touch t s')
           /\ sessions (validateSession clock (Session.id s) w).2 !! Session.id s
              = Some (Session.touch t s'))
        /\ (T + 1001 <= t ->
           (validateSession clock (Session.id s) w).1 = None
           /\ sessions (validateSession clock (Session.id s) w).2 !! Session.id s
              = None))
  /\ (forall w sessionId s',
        sessions w !! sessionId = Some s' ->
        (validateSession clock sessionId w).1 = None
        <-> Session.expiresAt s' < clock (ticks w)).
Proof.
  intros Hto s w1 T. subst s w1 T. rewrite createSession_eq. cbn zeta. simpl.
  split; [apply lookup_insert_eq|].
  split; [rewrite Hto; reflexivity|].
  split.
  - intros w s' Hs' Hexp. simpl in Hexp.
    rewrite (validateSession_present clock _ s' w Hs'). cbn zeta.
    split; intros Ht.
    + destruct (Z.ltb_spec (Session.expiresAt s') (clock (ticks w))); [lia|].
      simpl. split; [reflexivity|apply lookup_insert_eq].
    + destruct (Z.ltb_spec (Session.expiresAt s') (clock (ticks w))); [|lia].
      simpl. split; [reflexivity|apply lookup_delete_eq].
  - intros w sessionId s' Hs'.
    rewrite (validateSession_present clock _ s' w Hs'). cbn zeta.
    destruct (Z.ltb_spec (Session.expiresAt s') (clock (ticks w))); simpl.
    + split; [intros _; assumption|reflexivity].
    + split; [discriminate|lia].
Qed.

(** The boundary on the scenario clock: created at 0, validated at 1000
    and again, in a world where the clock reads 1001. *)
Lemma session_expiry_boundary_witness :
  SessionManager.sessionTimeout Scenario.one_second = 1000
  /\ (validateSession Scenario.clock_0_then_1000
        "session_0_uuid-0"
        (createSession Scenario.clock_0_then_1000 Scenario.uuidv4
           Scenario.one_second Scenario.alice ["basic"] (fresh_world 0 0)).2).1
     = Some (Session.mk "session_0_uuid-0" "alice" Scenario.alice 0 1000 1000
               ["basic"] []).
Proof.
  split; [reflexivity|].
  pose proof (session_expiry_boundary Scenario.clock_0_then_1000 Scenario.uuidv4
                Scenario.one_second Scenario.alice ["basic"] (fresh_world 0 0)
                eq_refl) as H.
  cbn zeta in H. destruct H as (Hin & _ & Hb & _).
  specialize (Hb _ _ Hin eq_refl). cbn zeta in Hb. destruct Hb as [Hv _].
  destruct Hv as [Hv _]; [vm_compute; discriminate|].
  exact Hv.
Defined.

(** C1 as stated fails at the boundary itself: a session created at 0
    with a timeout of 1000 is still returned, and kept, by a
    [validateSession] at time 1000. *)
Lemma session_valid_at_timeout :
  let created :=
    createSession Scenario.clock_0_then_1000 Scenario.uuidv4
      Scenario.one_second Scenario.alice ["basic"] (fresh_world 0 0) in
  let validated :=
    validateSession Scenario.clock_0_then_1000 (Session.id created.1) created.2 in
  Session.createdAt created.1 = 0
  /\ Scenario.clock_0_then_1000 (ticks created.2) = 0 + 1000
  /\ validated.1 <> None
  /\ sessions validated.2 !! Session.id created.1 <> None.
Proof. vm_compute. repeat split; discriminate. Qed.

Section Frames.

Variable clock : nat -> Z.
Variable uuidv4 : nat -> string.
Variable config : Config.

Lemma run_op_create user permissions w :
  run_op clock uuidv4 config (OpCreate user permissions) w =
  (Some (next_id clock uuidv4 w),
   (createSession clock uuidv4 config user permissions w).2).
Proof. reflexivity. Qed.

Lemma run_op_validate sessionId w :
  run_op clock uuidv4 config (OpValidate sessionId) w =
  (None, (validateSession clock sessionId w).2).
Proof.
  unfold run_op, mbind, M_bind.
  destruct (validateSession clock sessionId w); reflexivity.
Qed.

Lemma run_op_refresh sessionId w :
  run_op clock uuidv4 config (OpRefresh sessionId) w =
  (Session.id <$> (refreshSession clock uuidv4 config sessionId w).1,
   (refreshSession clock uuidv4 config sessionId w).2).
Proof.
  unfold run_op, mbind, M_bind.
  destruct (refreshSession clock uuidv4 config sessionId w); reflexivity.
Qed.

Lemma run_op_destroy sessionId w :
  run_op clock uuidv4 config (OpDestroy sessionId) w =
  (None, mkWorld (delete sessionId (sessions w)) (ticks w) (draws w) (signed w)).
Proof. reflexivity. Qed.

Lemma run_op_sweep w :
  run_op clock uuidv4 config OpSweep w =
  (None,
   mkWorld (filter (fun kv => ¬ (Session.expiresAt kv.2 < clock (ticks w)))
                   (sessions w))
           (S (ticks w)) (draws w) (signed w)).
Proof. reflexivity. Qed.

(** A table entry after [validateSession] was there before, and is the
    old record or, under the validated identifier and when the validation
    went through, the old record with a new [lastAccessedAt]. *)
Lemma validateSession_frame sessionId w i s' :
  sessions (validateSession clock sessionId w).2 !! i = Some s' ->
  exists s, sessions w !! i = Some s
    /\ (s' = s
        \/ (i = sessionId /\ s' = Session.touch (clock (ticks w)) s
            /\ (validateSession clock sessionId w).1 = Some s')).
Proof.
  destruct (sessions w !! sessionId) as [s0|] eqn:E.
  - rewrite (validateSession_present clock _ _ _ E). cbn zeta.
    destruct (Session.expiresAt s0 <? clock (ticks w)); simpl; intros H.
    + apply lookup_delete_Some in H as [_ H]. eauto.
    + destruct (decide (sessionId = i)) as [->|Hne].
      * rewrite lookup_insert_eq in H. injection H as <-. eauto 6.
      * rewrite lookup_insert_ne in H by done. eauto.
  - rewrite (validateSession_absent clock _ _ E). eauto.
Qed.

(** [validateSession] adds no identifier to the table. *)
Lemma validateSession_None sessionId w i :
  sessions w !! i = None ->
  sessions (validateSession clock sessionId w).2 !! i = None.
Proof.
  intros Hi.
  destruct (sessions (validateSession clock sessionId w).2 !! i) eqn:E; [|done].
  apply validateSession_frame in E as (s & Hs & _). congruence.
Qed.

(** When [validateSession] answers with a session, that session was in
    the table under the identifier asked for. *)
Lemma validateSession_Some sessionId w s' :
  (validateSession clock sessionId w).1 = Some s' ->
  exists s, sessions w !! sessionId = Some s
    /\ s' = Session.touch (clock (ticks w)) s
    /\ ¬ (Session.expiresAt s < clock (ticks w))
    /\ (validateSession clock sessionId w).2 =
       mkWorld (<[sessionId := s']> (sessions w)) (S (ticks w)) (draws w)
               (signed w).
Proof.
  destruct (sessions w !! sessionId) as [s0|] eqn:E.
  - rewrite (validateSession_present clock _ _ _ E). cbn zeta.
    destruct (Z.ltb_spec (Session.expiresAt s0) (clock (ticks w))); simpl;
      [discriminate|].
    intros [= <-]. exists s0.
    split; [done|]. split; [done|]. split; [lia|done].
  - rewrite (validateSession_absent clock _ _ E). discriminate.
Qed.

(** The table after a refresh that went through. *)
Lemma refreshSession_Some sessionId w s :
  (validateSession clock sessionId w).1 = Some s ->
  let w1 := (validateSession clock sessionId w).2 in
  let newSession :=
    (createSession clock uuidv4 config (Session.user s) (Session.permissions s) w1).1 in
  refreshSession clock uuidv4 config sessionId w =
  (Some newSession,
   mkWorld (delete sessionId (<[Session.id newSession := newSession]> (sessions w1)))
           (S (S (ticks w1))) (S (draws w1)) (signed w1)).
Proof.
  intros Hv. rewrite refreshSession_eq.
  destruct (validateSession clock sessionId w) as [r w1] eqn:E.
  simpl in Hv. subst r. reflexivity.
Qed.

Lemma refreshSession_None sessionId w :
  (validateSession clock sessionId w).1 = None ->
  refreshSession clock uuidv4 config sessionId w =
  (None, (validateSession clock sessionId w).2).
Proof.
  intros Hv. rewrite refreshSession_eq.
  destruct (validateSession clock sessionId w) as [r w1] eqn:E.
  simpl in Hv. subst r. reflexivity.
Qed.

(** An operation that did not create identifier [i] leaves under [i]
    nothing but what was there, touched by a successful validation at
    most. *)
Lemma run_op_frame o w i s' :
  (run_op clock uuidv4 config o w).1 <> Some i ->
  sessions (run_op clock uuidv4 config o w).2 !! i = Some s' ->
  exists s, sessions w !! i = Some s
    /\ (s' = s
        \/ (o = OpValidate i /\ s' = Session.touch (clock (ticks w)) s
            /\ (validateSession clock i w).1 = Some s')).
Proof.
  destruct o as [user permissions|sessionId|sessionId|sessionId|].
  - rewrite run_op_create, createSession_eq. cbn zeta. simpl. intros Hne H.
    rewrite lookup_insert_ne in H by congruence. eauto.
  - rewrite run_op_validate. simpl. intros _ H.
    apply validateSession_frame in H as (s & Hs & [->|(-> & -> & Hv)]); eauto 6.
  - rewrite run_op_refresh.
    destruct ((validateSession clock sessionId w).1) as [s0|] eqn:Ev.
    + rewrite (refreshSession_Some _ _ _ Ev). cbn zeta. simpl. intros Hne H.
      apply lookup_delete_Some in H as [Hd H].
      rewrite lookup_insert_ne in H by congruence.
      apply validateSession_frame in H as (s & Hs & [->|(-> & _)]); eauto.
      congruence.
    + rewrite (refreshSession_None _ _ Ev). simpl. intros _ H.
      apply validateSession_frame in H as (s & Hs & [->|(_ & _ & Hv)]); eauto.
      congruence.
  - rewrite run_op_destroy. simpl. intros _ H.
    apply lookup_delete_Some in H as [_ H]. eauto.
  - rewrite run_op_sweep. simpl. intros _ H.
    apply map_lookup_filter_Some in H as [H _]. eauto.
Qed.

(** The record found under an identifier that the operation created is
    the new session. *)
Lemma run_op_created o w i s' :
  (run_op clock uuidv4 config o w).1 = Some i ->
  sessions (run_op clock uuidv4 config o w).2 !! i = Some s' ->
  Session.id s' = i
  /\ Session.expiresAt s' = Session.createdAt s' + sessionTimeout config.
Proof.
  destruct o as [user permissions|sessionId|sessionId|sessionId|].
  - rewrite run_op_create, createSession_eq. cbn zeta. simpl.
    intros [= <-]. rewrite lookup_insert_eq. intros [= <-]. done.
  - rewrite run_op_validate. discriminate.
  - rewrite run_op_refresh.
    destruct ((validateSession clock sessionId w).1) as [s0|] eqn:Ev.
    + rewrite (refreshSession_Some _ _ _ Ev). cbn zeta. simpl.
      intros [= <-] H. apply lookup_delete_Some in H as [_ H].
      rewrite lookup_insert_eq in H. injection H as <-. done.
    + rewrite (refreshSession_None _ _ Ev). discriminate.
  - rewrite run_op_destroy. discriminate.
  - rewrite run_op_sweep. discriminate.
Qed.

Lemma run_op_well_formed o w :
  well_formed_table (sessionTimeout config) w ->
  well_formed_table (sessionTimeout config) (run_op clock uuidv4 config o w).2.
Proof.
  intros Hw i s' Hs'.
  destruct (decide ((run_op clock uuidv4 config o w).1 = Some i)) as [Hc|Hc].
  - eapply run_op_created; eauto.
  - destruct (run_op_frame _ _ _ _ Hc Hs') as (s & Hs & [->|(_ & -> & _)]).
    + auto.
    + apply Hw in Hs. exact Hs.
Qed.

Lemma reachable_well_formed w :
  reachable clock uuidv4 config w ->
  well_formed_table (sessionTimeout config) w.
Proof.
  induction 1 as [t0 d0 l|w o Hr IH].
  - intros i s H. simpl in H. rewrite lookup_empty in H. discriminate.
  - apply run_op_well_formed, IH.
Qed.

Lemma run_ops_cons o rest w :
  run_ops clock uuidv4 config (o :: rest) w =
  let w1 := (run_op clock uuidv4 config o w).2 in
  (match (run_op clock uuidv4 config o w).1 with
   | Some i => i :: (run_ops clock uuidv4 config rest w1).1
   | None => (run_ops clock uuidv4 config rest w1).1
   end,
   (run_ops clock uuidv4 config rest w1).2).
Proof.
  cbn [run_ops]. unfold mbind at 1. unfold M_bind at 1.
  destruct (run_op clock uuidv4 config o w) as [r w1]. cbn zeta. simpl.
  unfold mbind, M_bind.
  destruct (run_ops clock uuidv4 config rest w1) as [ids w2]. reflexivity.
Qed.

(** An identifier that is not in the table stays out of it for as long
    as no operation creates it again. *)
Lemma run_ops_absent os : forall w i,
  sessions w !! i = None ->
  i ∉ (run_ops clock uuidv4 config os w).1 ->
  sessions (run_ops clock uuidv4 config os w).2 !! i = None.
Proof.
  induction os as [|o rest IH]; intros w i Hi Hnot.
  - exact Hi.
  - rewrite run_ops_cons in Hnot |- *. cbn zeta in *. simpl in *.
    apply IH.
    + destruct (sessions (run_op clock uuidv4 config o w).2 !! i) as [s'|] eqn:E;
        [|reflexivity].
      apply run_op_frame in E as (s & Hs & _); [congruence|].
      intros Hc. rewrite Hc in Hnot. apply Hnot. left.
    + destruct ((run_op clock uuidv4 config o w).1); [|exact Hnot].
      intros Hin. apply Hnot. right. exact Hin.
Qed.

(** A refresh that draws an unused identifier: the new session has a
    new identifier, the old identifier is gone and the new one is in. *)
Lemma refresh_new_id sessionId w s :
  (validateSession clock sessionId w).1 = Some s ->
  unique_id clock uuidv4 config (OpRefresh sessionId) w ->
  exists newSession,
    (refreshSession clock uuidv4 config sessionId w).1 = Some newSession
    /\ Session.id newSession <> sessionId
    /\ Session.user newSession = Session.user s
    /\ Session.permissions newSession = Session.permissions s
    /\ sessions (refreshSession clock uuidv4 config sessionId w).2 !! sessionId
       = None
    /\ sessions (refreshSession clock uuidv4 config sessionId w).2
         !! Session.id newSession
       = Some newSession.
Proof.
  intros Hv Hu. unfold unique_id in Hu. rewrite run_op_refresh in Hu.
  rewrite (refreshSession_Some _ _ _ Hv) in Hu |- *. cbn zeta in *. simpl in *.
  set (newId := next_id clock uuidv4 (validateSession clock sessionId w).2) in *.
  specialize (Hu newId eq_refl).
  apply validateSession_Some in Hv as (s0 & Hs0 & _).
  assert (newId <> sessionId) by congruence.
  eexists. split; [reflexivity|]. simpl.
  split; [done|]. split; [done|]. split; [done|].
  split; [apply lookup_delete_eq|].
  rewrite lookup_delete_ne by done. apply lookup_insert_eq.
Qed.

End Frames.

(** Identifiers made from different draws differ: the time stamp holds
    no underscore, so the first underscore after the prefix ends it. *)
Lemma append_nil (s : string) : EmptyString +:+ s = s.
Proof. reflexivity. Qed.

Lemma append_cons (c : ascii) (a b : string) :
  String c a +:+ b = String c (a +:+ b).
Proof. reflexivity. Qed.

Lemma pretty_N_go_plain (x : N) : forall s,
  all_chars not_underscore s = true ->
  all_chars not_underscore (pretty_N_go x s) = true.
Proof.
  induction (N.lt_wf_0 x) as [x _ IH]. intros s Hs.
  destruct (decide (x = 0%N)) as [->|Hx].
  - rewrite pretty_N_go_0. exact Hs.
  - rewrite pretty_N_go_step by lia. apply IH.
    + apply N.div_lt; lia.
    + cbn [all_chars]. rewrite Hs, Bool.andb_true_r.
      unfold pretty_N_char. repeat case_match; reflexivity.
Qed.

Lemma pretty_N_plain (x : N) : all_chars not_underscore (pretty x) = true.
Proof.
  unfold pretty, pretty_N. destruct (decide (x = 0%N)); [reflexivity|].
  apply pretty_N_go_plain. reflexivity.
Qed.

Lemma pretty_Z_plain (z : Z) : all_chars not_underscore (pretty z) = true.
Proof.
  destruct z as [|p|p]; unfold pretty, pretty_Z, pretty, pretty_positive.
  - reflexivity.
  - apply pretty_N_plain.
  - rewrite append_cons, append_nil. cbn [all_chars].
    rewrite pretty_N_plain. reflexivity.
Qed.

(** A text without underscores, an underscore and a rest: the rest is
    determined by the whole. *)
Lemma split_at_underscore (a : string) : forall a' u u',
  all_chars not_underscore a = true ->
  all_chars not_underscore a' = true ->
  a +:+ "_" +:+ u = a' +:+ "_" +:+ u' -> u = u'.
Proof.
  induction a as [|c a IH]; intros [|c' a'] u u' Ha Ha';
    rewrite ?append_cons, ?append_nil; intros H.
  - injection H as H. exact H.
  - injection H as Hc _. subst c'. cbn in Ha'. discriminate Ha'.
  - injection H as Hc _. subst c. cbn in Ha. discriminate Ha.
  - injection H as _ H. cbn [all_chars] in Ha, Ha'.
    apply andb_prop in Ha as [_ Ha]. apply andb_prop in Ha' as [_ Ha'].
    exact (IH _ _ _ Ha Ha' H).
Qed.

Section Fresh.

Variable clock : nat -> Z.
Variable uuidv4 : nat -> string.
Variable config : Config.
Hypothesis uuidv4_inj : Inj (=) (=) uuidv4.

(** Identifiers made from different draws differ. *)
Lemma session_id_inj (t t' : Z) (d d' : nat) :
  "session_" +:+ pretty t +:+ "_" +:+ uuidv4 d
  = "session_" +:+ pretty t' +:+ "_" +:+ uuidv4 d' -> d = d'.
Proof.
  intros H. apply (inj (String.app "session_")) in H.
  apply split_at_underscore in H; [|apply pretty_Z_plain..].
  apply uuidv4_inj, H.
Qed.

End Fresh.


Lemma touch_same s : s = Session.touch (Session.lastAccessedAt s) s.
Proof. destruct s; reflexivity. Qed.

Section Draws.

Variable clock : nat -> Z.
Variable uuidv4 : nat -> string.
Variable config : Config.

(** [validateSession] draws no identifier. *)
Lemma validateSession_draws sessionId w :
  draws (validateSession clock sessionId w).2 = draws w.
Proof.
  destruct (sessions w !! sessionId) as [s|] eqn:E.
  - rewrite (validateSession_present clock _ _ _ E). cbn zeta.
    destruct (Session.expiresAt s <? clock (ticks w)); reflexivity.
  - rewrite (validateSession_absent clock _ _ E). reflexivity.
Qed.

(** An operation that creates a session makes its identifier from the
    next draw and takes that draw; any other operation takes none. *)
Lemma run_op_draws o w :
  match (run_op clock uuidv4 config o w).1 with
  | Some i =>
      (exists t : Z, i = "session_" +:+ pretty t +:+ "_" +:+ uuidv4 (draws w))
      /\ draws (run_op clock uuidv4 config o w).2 = S (draws w)
  | None => draws (run_op clock uuidv4 config o w).2 = draws w
  end.
Proof.
  destruct o as [user permissions|sessionId|sessionId|sessionId|].
  - rewrite run_op_create, createSession_eq. cbn zeta. cbn [fst snd draws].
    split; [|reflexivity]. eexists. reflexivity.
  - rewrite run_op_validate. cbn [fst snd]. apply validateSession_draws.
  - rewrite run_op_refresh.
    destruct ((validateSession clock sessionId w).1) as [s0|] eqn:Ev.
    + rewrite (refreshSession_Some clock uuidv4 config _ _ _ Ev).
      cbn zeta. rewrite createSession_eq. cbn zeta.
      cbn [fst snd draws fmap option_fmap option_map Session.id].
      rewrite validateSession_draws. split; [|reflexivity].
      eexists. unfold next_id. rewrite validateSession_draws. reflexivity.
    + rewrite (refreshSession_None clock uuidv4 config _ _ Ev).
      cbn [fst snd fmap option_fmap option_map].
      apply validateSession_draws.
  - rewrite run_op_destroy. reflexivity.
  - rewrite run_op_sweep. reflexivity.
Qed.

Lemma run_op_draws_le o w :
  (draws w <= draws (run_op clock uuidv4 config o w).2)%nat.
Proof.
  pose proof (run_op_draws o w) as H.
  destruct ((run_op clock uuidv4 config o w).1); [destruct H as [_ ->]|rewrite H]; lia.
Qed.

Lemma drawn_before_le n m i :
  (n <= m)%nat -> drawn_before uuidv4 n i -> drawn_before uuidv4 m i.
Proof. intros Hle (t & d & -> & Hd). exists t, d. split; [reflexivity|lia]. Qed.

(** Every identifier of a reachable table was made from a draw that has
    been taken. *)
Lemma run_op_table_drawn o w :
  table_drawn uuidv4 w -> table_drawn uuidv4 (run_op clock uuidv4 config o w).2.
Proof.
  intros Hw i s' Hs'.
  destruct (decide ((run_op clock uuidv4 config o w).1 = Some i)) as [Hc|Hc].
  - pose proof (run_op_draws o w) as H. rewrite Hc in H.
    destruct H as [[t ->] ->]. exists t, (draws w). split; [reflexivity|lia].
  - destruct (run_op_frame clock uuidv4 config _ _ _ _ Hc Hs') as (s & Hs & _).
    eapply drawn_before_le; [apply run_op_draws_le|]. eapply Hw, Hs.
Qed.

Lemma reachable_table_drawn w :
  reachable clock uuidv4 config w -> table_drawn uuidv4 w.
Proof.
  induction 1 as [t0 d0 l|w o Hr IH].
  - intros i s H. simpl in H. rewrite lookup_empty in H. discriminate.
  - apply run_op_table_drawn, IH.
Qed.

Hypothesis uuidv4_inj : Inj (=) (=) uuidv4.

(** With a generator that never repeats itself, an operation does not
    hand out an identifier made from an earlier draw. *)
Lemma run_op_fresh o w n i :
  drawn_before uuidv4 n i -> (n <= draws w)%nat ->
  (run_op clock uuidv4 config o w).1 <> Some i.
Proof.
  intros (t & d & -> & Hd) Hn Hc.
  pose proof (run_op_draws o w) as H. rewrite Hc in H.
  destruct H as [[t' Heq] _].
  apply (session_id_inj uuidv4 uuidv4_inj) in Heq. lia.
Qed.

(** Hence, in a reachable world, the identifier an operation hands out
    is not in use. *)
Lemma reachable_unique_id o w :
  reachable clock uuidv4 config w -> unique_id clock uuidv4 config o w.
Proof.
  intros Hreach i Hi.
  destruct (sessions w !! i) as [s|] eqn:E; [|reflexivity].
  exfalso. apply (reachable_table_drawn w Hreach) in E.
  exact (run_op_fresh o w _ _ E (Nat.le_refl _) Hi).
Qed.

(** Nor does any later run of operations hand it out again. *)
Lemma run_ops_fresh os : forall w n i,
  drawn_before uuidv4 n i -> (n <= draws w)%nat ->
  i ∉ (run_ops clock uuidv4 config os w).1.
Proof.
  induction os as [|o rest IH]; intros w n i Hi Hn.
  - cbn. apply not_elem_of_nil.
  - rewrite run_ops_cons. cbn zeta. cbn [fst].
    assert (i ∉ (run_ops clock uuidv4 config rest
                   (run_op clock uuidv4 config o w).2).1) as Hrest.
    { apply (IH _ n); [exact Hi|].
      pose proof (run_op_draws_le o w). lia. }
    destruct ((run_op clock uuidv4 config o w).1) as [j|] eqn:Ej; [|exact Hrest].
    apply not_elem_of_cons. split; [|exact Hrest].
    intros ->. exact (run_op_fresh o w _ _ Hi Hn Ej).
Qed.

End Draws.


(** The generator of the scenario never repeats itself. *)
Lemma scenario_uuidv4_inj : Inj (=) (=) Scenario.uuidv4.
Proof.
  intros a b H. unfold Scenario.uuidv4 in H.
  apply (inj (String.app "uuid-")) in H. apply (inj pretty) in H. exact H.
Qed.

(** C2. With an identifier generator that never repeats itself, in every
    world the session manager reaches from an empty table: whenever
    [validateSession(id)] succeeds, [refreshSession(id)] returns a new
    session whose identifier differs from [id] and was not in use;
    afterwards [validateSession(id)] returns null, and keeps returning
    null after any further operations, while [validateSession(newId)]
    succeeds as long as the new session has not expired. *)
Theorem refresh_rotation
  (clock : nat -> Z) (uuidv4 : nat -> string) (config : Config)
  (sessionId : string) (w : World) (s : Session.t) :
  Inj (=) (=) uuidv4 ->
  reachable clock uuidv4 config w ->
  (validateSession clock sessionId w).1 = Some s ->
  let refreshed := refreshSession clock uuidv4 config sessionId w in
  exists newSession,
    refreshed.1 = Some newSession
    /\ Session.id newSession <> sessionId
    /\ sessions w !! Session.id newSession = None
    /\ validateSession clock sessionId refreshed.2 = (None, refreshed.2)
    /\ (forall os,
          let later := (run_ops clock uuidv4 config os refreshed.2).2 in
          validateSession clock sessionId later = (None, later))
    /\ (clock (ticks refreshed.2) <= Session.expiresAt newSession ->
          (validateSession clock (Session.id newSession) refreshed.2).1
          = Some (Session.touch (clock (ticks refreshed.2)) newSession)).
Proof.
  intros Hinj Hreach Hv refreshed.
  pose proof (reachable_unique_id clock uuidv4 config Hinj
                (OpRefresh sessionId) w Hreach) as Hu.
  destruct (refresh_new_id clock uuidv4 config _ _ _ Hv Hu)
    as (newSession & Hr & Hne & _ & _ & Hold & Hnew).
  fold refreshed in Hr, Hold, Hnew.
  exists newSession. split; [exact Hr|]. split; [exact Hne|].
  split.
  { apply Hu. rewrite run_op_refresh. cbn [fst]. fold refreshed.
    rewrite Hr. reflexivity. }
  split; [apply validateSession_absent, Hold|].
  split.
  - intros os later. apply validateSession_absent.
    apply run_ops_absent; [exact Hold|].
    apply validateSession_Some in Hv as (s0 & Hs0 & _).
    apply (run_ops_fresh clock uuidv4 config Hinj os _ (draws w)).
    + exact (reachable_table_drawn clock uuidv4 config w Hreach _ _ Hs0).
    + pose proof (run_op_draws_le clock uuidv4 config (OpRefresh sessionId) w)
        as Hle.
      rewrite run_op_refresh in Hle. exact Hle.
  - intros Hlive. rewrite (validateSession_present clock _ _ _ Hnew). cbn zeta.
    destruct (Z.ltb_spec (Session.expiresAt newSession) (clock (ticks refreshed.2)));
      [lia|reflexivity].
Qed.

(** Alice's session, created at time 1 under a one-second timeout, is
    refreshed at time 2, and then validated and refreshed again under
    its old identifier. *)
Lemma refresh_rotation_witness :
  let w :=
    (run_op Scenario.clock_1ms Scenario.uuidv4 Scenario.one_second
       (OpCreate Scenario.alice ["basic"]) (mkWorld ∅ 0 0 [])).2 in
  let refreshed :=
    refreshSession Scenario.clock_1ms Scenario.uuidv4 Scenario.one_second
      "session_0_uuid-0" w in
  let later :=
    (run_ops Scenario.clock_1ms Scenario.uuidv4 Scenario.one_second
       [OpValidate "session_0_uuid-0"; OpRefresh "session_0_uuid-0";
        OpCreate Scenario.alice ["basic"]] refreshed.2).2 in
  exists newSession,
    refreshed.1 = Some newSession
    /\ Session.id newSession = "session_3_uuid-1"
    /\ Session.id newSession <> "session_0_uuid-0"
    /\ validateSession Scenario.clock_1ms "session_0_uuid-0" refreshed.2
       = (None, refreshed.2)
    /\ validateSession Scenario.clock_1ms "session_0_uuid-0" later
       = (None, later)
    /\ (validateSession Scenario.clock_1ms (Session.id newSession) refreshed.2).1
       = Some (Session.touch 5 newSession).
Proof.
  intros w refreshed later.
  destruct (refresh_rotation Scenario.clock_1ms Scenario.uuidv4
              Scenario.one_second "session_0_uuid-0" w
              (Session.mk "session_0_uuid-0" "alice" Scenario.alice 1 1001 2
                 ["basic"] []) scenario_uuidv4_inj)
    as (newSession & Hr & Hne & _ & Hold & Hlater & Hnew).
  - apply reach_step, reach_start.
  - vm_compute. reflexivity.
  - exists newSession. fold refreshed in Hr, Hold, Hnew, Hlater.
    split; [exact Hr|].
    assert (Session.id newSession = "session_3_uuid-1") as Hid.
    { subst refreshed. vm_compute in Hr. injection Hr as <-. reflexivity. }
    split; [exact Hid|]. split; [exact Hne|]. split; [exact Hold|].
    split; [exact (Hlater _)|].
    apply Hnew. subst refreshed. vm_compute in Hr. injection Hr as <-.
    vm_compute. discriminate.
Defined.

(** C3. With an identifier generator that never repeats itself and a
    positive [sessionTimeout], in every world a session manager reaches
    by create, validate, refresh and destroy calls (and sweeps of its
    timer): every stored session has [expiresAt > createdAt]; no two
    stored records share an identifier; no operation changes a field of
    a stored session other than [lastAccessedAt], and that one only by a
    successful [validateSession] of that very session; and a refresh of
    a session that validates puts its user and permissions into a new
    session, stored under an identifier that differs from the old one
    and was not in use, and removes the old one. *)
Theorem session_store_invariant
  (clock : nat -> Z) (uuidv4 : nat -> string) (config : Config) (w : World) :
  0 < sessionTimeout config ->
  Inj (=) (=) uuidv4 ->
  reachable clock uuidv4 config w ->
  (forall i s, sessions w !! i = Some s ->
     Session.createdAt s < Session.expiresAt s)
  /\ (forall i j s s',
        sessions w !! i = Some s -> sessions w !! j = Some s' ->
        Session.id s = Session.id s' -> i = j /\ s = s')
  /\ (forall o i s s',
        sessions w !! i = Some s ->
        sessions (run_op clock uuidv4 config o w).2 !! i = Some s' ->
        same_but_lastAccessedAt s s'
        /\ (s' <> s ->
            o = OpValidate i /\ (validateSession clock i w).1 = Some s'))
  /\ (forall sessionId s,
        (validateSession clock sessionId w).1 = Some s ->
        let refreshed := refreshSession clock uuidv4 config sessionId w in
        exists newSession,
          refreshed.1 = Some newSession
          /\ Session.id newSession <> sessionId
          /\ sessions w !! Session.id newSession = None
          /\ Session.user newSession = Session.user s
          /\ Session.permissions newSession = Session.permissions s
          /\ sessions refreshed.2 !! sessionId = None
          /\ sessions refreshed.2 !! Session.id newSession = Some newSession).
Proof.
  intros Hpos Hinj Hreach.
  pose proof (reachable_well_formed clock uuidv4 config w Hreach) as Hwf.
  pose proof (fun o => reachable_unique_id clock uuidv4 config Hinj o w Hreach)
    as Hfresh.
  split; [|split; [|split]].
  - intros i s Hs. apply Hwf in Hs as [_ ->]. lia.
  - intros i j s s' Hs Hs' Hid.
    pose proof (Hwf _ _ Hs) as [Hi _]. pose proof (Hwf _ _ Hs') as [Hj _].
    assert (i = j) as Hij by congruence.
    split; [exact Hij|]. rewrite <- Hij in Hs'. congruence.
  - intros o i s s' Hs Hs'.
    destruct (decide ((run_op clock uuidv4 config o w).1 = Some i)) as [Hc|Hc].
    + apply (Hfresh o) in Hc. congruence.
    + destruct (run_op_frame clock uuidv4 config _ _ _ _ Hc Hs')
        as (s0 & Hs0 & Hcase).
      assert (s0 = s) by congruence. subst s0.
      destruct Hcase as [->|(-> & -> & Hv)].
      * split; [apply touch_same|congruence].
      * split; [reflexivity|auto].
  - intros sessionId s Hv refreshed.
    destruct (refresh_new_id clock uuidv4 config _ _ _ Hv
                (Hfresh (OpRefresh sessionId)))
      as (newSession & Hr & Hne & Huser & Hperm & Hold & Hnew).
    exists newSession. split; [exact Hr|]. split; [exact Hne|].
    split; [|auto].
    apply (Hfresh (OpRefresh sessionId)). rewrite run_op_refresh. cbn [fst].
    rewrite Hr. reflexivity.
Qed.

(** Alice's first session is created and then refreshed: the refresh
    moves her to a new identifier. *)
Lemma session_store_invariant_witness :
  let w :=
    (run_op Scenario.clock_1ms Scenario.uuidv4 Scenario.one_second
       (OpCreate Scenario.alice ["basic"]) (mkWorld ∅ 0 0 [])).2 in
  let refreshed :=
    refreshSession Scenario.clock_1ms Scenario.uuidv4 Scenario.one_second
      "session_0_uuid-0" w in
  (exists s, sessions w !! "session_0_uuid-0" = Some s
             /\ Session.createdAt s < Session.expiresAt s)
  /\ (exists newSession,
        refreshed.1 = Some newSession
        /\ Session.id newSession <> "session_0_uuid-0"
        /\ Session.user newSession = Scenario.alice
        /\ sessions refreshed.2 !! "session_0_uuid-0" = None
        /\ sessions refreshed.2 !! Session.id newSession = Some newSession).
Proof.
  intros w refreshed.
  destruct (session_store_invariant Scenario.clock_1ms Scenario.uuidv4
              Scenario.one_second w eq_refl scenario_uuidv4_inj)
    as (Hexp & _ & _ & Hrot).
  - apply reach_step, reach_start.
  - split.
    + exists (Session.mk "session_0_uuid-0" "alice" Scenario.alice 1 1001 1
                ["basic"] []).
      split; [vm_compute; reflexivity|].
      apply (Hexp "session_0_uuid-0"). vm_compute. reflexivity.
    + destruct (Hrot "session_0_uuid-0"
                  (Session.mk "session_0_uuid-0" "alice" Scenario.alice 1 1001 2
                     ["basic"] []))
        as (newSession & Hr & Hne & _ & Hu & _ & Hold & Hnew).
      * vm_compute. reflexivity.
      * exists newSession. fold refreshed in Hr, Hold, Hnew.
        split; [exact Hr|]. split; [exact Hne|].
        split; [exact Hu|]. split; [exact Hold|exact Hnew].
Defined.

End SessionFacts.

(** ** The tiered [authenticate] call *)

Module AuthFacts.

Import AuthService.

(** Unfolds [authenticate] and the monad down to the guards. *)
Ltac unfold_authenticate :=
  unfold authenticate, step_api_key, step_jwt, step_oauth2,
    authenticateAPIKey, authenticateJWT, authenticateOAuth2, fail_with,
    verify, sign, SessionManager.Date_now, log_signed,
    mbind, M_bind, mret, M_ret;
  cbn [AuthRequest.method AuthRequest.apiKey AuthRequest.token
       AuthRequest.clientId AuthRequest.clientSecret AuthRequest.redirectUri
       AuthRequest.provider AuthRequest.permissions].

(** C4 (evaluation at the failing input). For the key [short] the
    API-key tier itself answers INVALID_API_KEY_FORMAT, but
    [authenticate] records the failed step, falls through its other two
    guards and answers AUTH_METHOD_REQUIRED instead. *)
Theorem api_key_format_code_is_dropped
  (clock : nat -> Z) (uuidv4 : nat -> string)
  (jwt_sign : Z -> JwtPayload.t -> string -> string -> Completion string)
  (jwt_verify : Z -> string -> string -> Completion JwtClaims.t)
  (config : Config) (w : World) :
  let request :=
    AuthRequest.mk "api-key" (Some "short") None None None None None None in
  let tier :=
    (authenticateAPIKey clock uuidv4 jwt_sign config "short" [] w).1 in
  let result :=
    (authenticate clock uuidv4 jwt_sign jwt_verify config request w).1 in
  error_code tier = Some InvalidAPIKeyFormat
  /\ AuthResult.success result = false
  /\ error_code result = Some AuthMethodRequired
  /\ error_code result <> Some InvalidAPIKeyFormat
  /\ (AuthStep.success <$> default [] (AuthResult.authSteps result)) = [false].
Proof.
  cbn zeta. unfold_authenticate. simpl.
  repeat split; try reflexivity. discriminate.
Qed.

Section Atomicity.

Variable clock : nat -> Z.
Variable uuidv4 : nat -> string.
Variable jwt_sign : Z -> JwtPayload.t -> string -> string -> Completion string.
Variable jwt_verify : Z -> string -> string -> Completion JwtClaims.t.
Variable config : Config.

Local Abbreviation run_authenticate :=
  (authenticate clock uuidv4 jwt_sign jwt_verify config).

(** What a request that fails the shape checks gets: a failure without
    session or token, the code AUTH_METHOD_REQUIRED, and a world in which
    only the clock has been read. *)
Lemma structurally_invalid_outcome request w :
  structurally_invalid request = true ->
  AuthResult.success (run_authenticate request w).1 = false
  /\ AuthResult.sessionId (run_authenticate request w).1 = None
  /\ AuthResult.token (run_authenticate request w).1 = None
  /\ error_code (run_authenticate request w).1 = Some AuthMethodRequired
  /\ sessions (run_authenticate request w).2 = sessions w
  /\ signed (run_authenticate request w).2 = signed w
  /\ draws (run_authenticate request w).2 = draws w.
Proof.
  destruct request as [method apiKey token clientId clientSecret redirectUri
                         provider permissions].
  unfold structurally_invalid.
  cbn [AuthRequest.method AuthRequest.apiKey AuthRequest.token
       AuthRequest.clientId AuthRequest.clientSecret].
  destruct (String.eqb method "api-key") eqn:E1.
  { apply String.eqb_eq in E1. subst method. intros H.
    unfold_authenticate. cbn [String.eqb Ascii.eqb Bool.eqb andb].
    destruct (Js.truthy_opt apiKey) eqn:Ek; simpl in H |- *.
    - rewrite H. simpl. repeat split; reflexivity.
    - simpl. repeat split; reflexivity. }
  destruct (String.eqb method "jwt") eqn:E2.
  { apply String.eqb_eq in E2. subst method. intros H.
    unfold_authenticate. cbn [String.eqb Ascii.eqb Bool.eqb andb].
    apply Bool.negb_true_iff in H. rewrite H. simpl.
    repeat split; reflexivity. }
  destruct (String.eqb method "oauth2") eqn:E3.
  { apply String.eqb_eq in E3. subst method. intros H.
    unfold_authenticate. cbn [String.eqb Ascii.eqb Bool.eqb andb].
    destruct (Js.truthy_opt clientId); simpl in H |- *.
    - apply Bool.negb_true_iff in H. rewrite H. simpl.
      repeat split; reflexivity.
    - repeat split; reflexivity. }
  intros _. unfold_authenticate. rewrite E1, E2, E3. simpl.
  repeat split; reflexivity.
Qed.

Lemma truthy_length s : Js.truthy s = (0 <? String.length s)%nat.
Proof. destruct s; reflexivity. Qed.

(** An OAuth2 request with a client id and a client secret runs the
    OAuth2 tier, whatever its redirect URI and provider are; when signing
    does not throw, the tier creates a session and the call succeeds. *)
Lemma oauth2_accepts request w :
  AuthRequest.method request = "oauth2" ->
  Js.truthy_opt (AuthRequest.clientId request) = true ->
  Js.truthy_opt (AuthRequest.clientSecret request) = true ->
  (forall now p, exists token,
      jwt_sign now p (jwtSecret config) (jwtExpiresIn config) = Normal token) ->
  AuthResult.success (run_authenticate request w).1 = true
  /\ AuthResult.securityLevel (run_authenticate request w).1 = Some "enterprise"
  /\ exists sessionId,
       AuthResult.sessionId (run_authenticate request w).1 = Some sessionId
       /\ is_Some (sessions (run_authenticate request w).2 !! sessionId).
Proof.
  destruct request as [method apiKey token clientId clientSecret redirectUri
                         provider permissions].
  cbn [AuthRequest.method AuthRequest.clientId AuthRequest.clientSecret].
  intros -> Hid Hsecret Hsign.
  destruct clientId as [clientId|]; [|discriminate].
  destruct clientSecret as [clientSecret|]; [|discriminate].
  simpl in Hid, Hsecret.
  unfold_authenticate. cbn [String.eqb Ascii.eqb Bool.eqb andb Js.truthy_opt].
  rewrite Hid, Hsecret.
  cbn [andb default from_option id OAuth2Params.clientId
       OAuth2Params.clientSecret OAuth2Params.provider
       OAuth2Params.redirectUri].
  rewrite truthy_length in Hid, Hsecret. rewrite Hid, Hsecret. cbn [andb negb].
  rewrite SessionFacts.createSession_eq. cbn zeta.
  cbn [ticks sessions draws signed].
  match goal with
  | |- context [jwt_sign ?now ?p _ _] => destruct (Hsign now p) as [tok ->]
  end.
  cbn. split; [reflexivity|]. split; [reflexivity|].
  eexists. split; [reflexivity|]. rewrite lookup_insert_eq. eauto.
Qed.

(** The OAuth2 tier never reads the redirect URI. *)
Lemma oauth2_ignores_redirectUri request redirectUri w :
  run_authenticate
    (AuthRequest.mk (AuthRequest.method request) (AuthRequest.apiKey request)
       (AuthRequest.token request) (AuthRequest.clientId request)
       (AuthRequest.clientSecret request) redirectUri
       (AuthRequest.provider request) (AuthRequest.permissions request)) w
  = run_authenticate request w.
Proof.
  destruct request as [method apiKey token clientId clientSecret redirectUri0
                         provider permissions].
  unfold_authenticate. reflexivity.
Qed.

(** What the OAuth2 tier stores and signs for a request with client id
    and secret: the provider named in the request, or generic. *)
Lemma oauth2_provider request w :
  AuthRequest.method request = "oauth2" ->
  Js.truthy_opt (AuthRequest.clientId request) = true ->
  Js.truthy_opt (AuthRequest.clientSecret request) = true ->
  let provider :=
    match AuthRequest.provider request with
    | Some p => if Js.truthy p then p else "generic"
    | None => "generic"
    end in
  let out := run_authenticate request w in
  exists payload s,
    signed out.2 = payload :: signed w
    /\ JwtPayload.provider payload = Some provider
    /\ sessions out.2 !! JwtPayload.sessionId payload = Some s
    /\ UserInfo.name (Session.user s) = Some (provider +:+ " User")
    /\ UserInfo.email (Session.user s) = Some ("user@" +:+ provider +:+ ".com").
Proof.
  destruct request as [method apiKey token clientId clientSecret redirectUri
                         provider permissions].
  cbn [AuthRequest.method AuthRequest.clientId AuthRequest.clientSecret
       AuthRequest.provider].
  intros -> Hid Hsecret.
  destruct clientId as [clientId|]; [|discriminate].
  destruct clientSecret as [clientSecret|]; [|discriminate].
  simpl in Hid, Hsecret. cbn zeta.
  unfold_authenticate. cbn [String.eqb Ascii.eqb Bool.eqb andb Js.truthy_opt].
  rewrite Hid, Hsecret.
  cbn [andb default from_option id OAuth2Params.clientId
       OAuth2Params.clientSecret OAuth2Params.provider
       OAuth2Params.redirectUri].
  rewrite truthy_length in Hid, Hsecret. rewrite Hid, Hsecret. cbn [andb negb].
  rewrite SessionFacts.createSession_eq. cbn zeta.
  cbn [ticks sessions draws signed].
  fold (Js.or_else provider "generic").
  match goal with
  | |- context [jwt_sign ?now ?p _ _] => destruct (jwt_sign now p _ _)
  end; cbn; eexists _, _;
    (split; [reflexivity|]); (split; [reflexivity|]);
    (split; [apply lookup_insert_eq|]); split; reflexivity.
Qed.

End Atomicity.

(** C5 (as amended). A request that fails the shape checks this code
    makes (an API key that is missing, lacks the prefix or is too short;
    a missing token; a missing OAuth2 client id or secret; an unknown
    method) gets a failure result, and the call creates no session and
    signs no token: the session table and the list of signed payloads
    are as before. A missing redirect URI or provider is not among the
    checks: an OAuth2 request with client id and secret passes them
    whatever its other fields are, and the call stores a session and
    signs a payload for it. *)
Theorem structural_failure_atomicity
  (clock : nat -> Z) (uuidv4 : nat -> string)
  (jwt_sign : Z -> JwtPayload.t -> string -> string -> Completion string)
  (jwt_verify : Z -> string -> string -> Completion JwtClaims.t)
  (config : Config) (request : AuthRequest.t) (w : World) :
  let out := authenticate clock uuidv4 jwt_sign jwt_verify config request w in
  (structurally_invalid request = true ->
   AuthResult.success out.1 = false
   /\ AuthResult.sessionId out.1 = None
   /\ AuthResult.token out.1 = None
   /\ sessions out.2 = sessions w
   /\ signed out.2 = signed w)
  /\ (AuthRequest.method request = "oauth2" ->
      Js.truthy_opt (AuthRequest.clientId request) = true ->
      Js.truthy_opt (AuthRequest.clientSecret request) = true ->
      structurally_invalid request = false
      /\ exists payload s,
           signed out.2 = payload :: signed w
           /\ sessions out.2 !! JwtPayload.sessionId payload = Some s).
Proof.
  intros out. split.
  - intros H.
    destruct (structurally_invalid_outcome clock uuidv4 jwt_sign jwt_verify
                config request w H) as (H1 & H2 & H3 & _ & H5 & H6 & _).
    auto.
  - intros Hm Hid Hsecret. split.
    + unfold structurally_invalid. rewrite Hm, Hid, Hsecret. reflexivity.
    + destruct (oauth2_provider clock uuidv4 jwt_sign jwt_verify config
                  request w Hm Hid Hsecret) as (payload & s & Hs & _ & Ht & _).
      exists payload, s. split; [exact Hs|exact Ht].
Qed.

(** The key [short], sent to a service that already holds a session. *)
Lemma structural_failure_atomicity_witness :
  let w :=
    (SessionManager.createSession Scenario.clock_1ms Scenario.uuidv4
       Scenario.one_second Scenario.alice ["basic"] (fresh_world 0 0)).2 in
  let out :=
    authenticate Scenario.clock_1ms Scenario.uuidv4 Scenario.jwt_sign
      Scenario.jwt_verify Scenario.config (Scenario.api_key_request "short") w in
  AuthResult.success out.1 = false
  /\ AuthResult.sessionId out.1 = None
  /\ AuthResult.token out.1 = None
  /\ sessions out.2 = sessions w
  /\ signed out.2 = signed w.
Proof.
  intros w.
  destruct (structural_failure_atomicity Scenario.clock_1ms Scenario.uuidv4
              Scenario.jwt_sign Scenario.jwt_verify Scenario.config
              (Scenario.api_key_request "short") w) as [H _].
  apply H. reflexivity.
Defined.

(** C5 as stated fails for the missing OAuth2 fields that the code does
    not check: an OAuth2 request with client id, client secret and
    provider but without redirect URI is not turned away; the call
    stores a session and signs a token. *)
Lemma oauth2_without_redirect_is_served :
  let request :=
    AuthRequest.mk "oauth2" None None (Some "client-0001") (Some "s3cret")
                   None (Some "github") None in
  let out :=
    authenticate Scenario.clock_1ms Scenario.uuidv4 Scenario.jwt_sign
      Scenario.jwt_verify Scenario.config request (fresh_world 0 0) in
  AuthRequest.redirectUri request = None
  /\ AuthResult.success out.1 = true
  /\ AuthResult.token out.1 = Some "jwt.session_1_uuid-0"
  /\ sessions (fresh_world 0 0) !! "session_1_uuid-0" = None
  /\ is_Some (sessions out.2 !! "session_1_uuid-0")
  /\ length (signed (fresh_world 0 0)) = 0%nat
  /\ length (signed out.2) = 1%nat.
Proof.
  vm_compute. repeat split; try reflexivity. eauto.
Qed.

(** C6 (as amended). For an OAuth2 request: when the client id or the
    client secret is empty or absent, the call fails with the code
    AUTH_METHOD_REQUIRED and produces no session and no token. The
    redirect URI and the provider name are optional: a request with
    client id and secret succeeds without them (unless signing throws);
    the redirect URI is never read, so the outcome is the same whatever
    it is; and an absent or empty provider name is replaced by generic,
    which shows in the payload that is signed and in the name and email
    of the user of the session. *)
Theorem oauth2_precondition
  (clock : nat -> Z) (uuidv4 : nat -> string)
  (jwt_sign : Z -> JwtPayload.t -> string -> string -> Completion string)
  (jwt_verify : Z -> string -> string -> Completion JwtClaims.t)
  (config : Config) (request : AuthRequest.t) (w : World) :
  AuthRequest.method request = "oauth2" ->
  let out := authenticate clock uuidv4 jwt_sign jwt_verify config request w in
  (Js.truthy_opt (AuthRequest.clientId request) = false
   \/ Js.truthy_opt (AuthRequest.clientSecret request) = false ->
     AuthResult.success out.1 = false
     /\ error_code out.1 = Some AuthMethodRequired
     /\ AuthResult.sessionId out.1 = None
     /\ AuthResult.token out.1 = None
     /\ sessions out.2 = sessions w
     /\ signed out.2 = signed w)
  /\ (Js.truthy_opt (AuthRequest.clientId request) = true ->
      Js.truthy_opt (AuthRequest.clientSecret request) = true ->
      (forall now p, exists token,
          jwt_sign now p (jwtSecret config) (jwtExpiresIn config) = Normal token) ->
      AuthResult.success out.1 = true
      /\ exists sessionId,
           AuthResult.sessionId out.1 = Some sessionId
           /\ is_Some (sessions out.2 !! sessionId))
  /\ (forall redirectUri,
        authenticate clock uuidv4 jwt_sign jwt_verify config
          (AuthRequest.mk (AuthRequest.method request)
             (AuthRequest.apiKey request) (AuthRequest.token request)
             (AuthRequest.clientId request) (AuthRequest.clientSecret request)
             redirectUri (AuthRequest.provider request)
             (AuthRequest.permissions request)) w
        = out)
  /\ (Js.truthy_opt (AuthRequest.clientId request) = true ->
      Js.truthy_opt (AuthRequest.clientSecret request) = true ->
      let provider :=
        match AuthRequest.provider request with
        | Some p => if Js.truthy p then p else "generic"
        | None => "generic"
        end in
      exists payload s,
        signed out.2 = payload :: signed w
        /\ JwtPayload.provider payload = Some provider
        /\ sessions out.2 !! JwtPayload.sessionId payload = Some s
        /\ UserInfo.name (Session.user s) = Some (provider +:+ " User")
        /\ UserInfo.email (Session.user s)
           = Some ("user@" +:+ provider +:+ ".com")).
Proof.
  intros Hm out. split; [|split; [|split]].
  - intros Hmissing.
    assert (structurally_invalid request = true) as H.
    { unfold structurally_invalid. rewrite Hm. simpl.
      destruct Hmissing as [-> | ->]; simpl; [reflexivity|].
      apply Bool.orb_true_r. }
    destruct (structurally_invalid_outcome clock uuidv4 jwt_sign jwt_verify
                config request w H) as (H1 & H2 & H3 & H4 & H5 & H6 & _).
    auto 7.
  - intros Hid Hsecret Hsign.
    destruct (oauth2_accepts clock uuidv4 jwt_sign jwt_verify config request w
                Hm Hid Hsecret Hsign) as (H1 & _ & H3).
    auto.
  - intros redirectUri. apply oauth2_ignores_redirectUri.
  - intros Hid Hsecret.
    exact (oauth2_provider clock uuidv4 jwt_sign jwt_verify config request w
             Hm Hid Hsecret).
Qed.

(** An OAuth2 request that carries nothing but its method is turned
    away; one with client id and secret and nothing else is signed for
    the provider generic. *)
Lemma oauth2_precondition_witness :
  let run :=
    authenticate Scenario.clock_1ms Scenario.uuidv4 Scenario.jwt_sign
      Scenario.jwt_verify Scenario.config in
  let bare := AuthRequest.mk "oauth2" None None None None None None None in
  let credentials :=
    AuthRequest.mk "oauth2" None None (Some "client-0001") (Some "s3cret")
                   None None None in
  (AuthResult.success (run bare (fresh_world 0 0)).1 = false
   /\ error_code (run bare (fresh_world 0 0)).1 = Some AuthMethodRequired)
  /\ (exists payload,
        signed (run credentials (fresh_world 0 0)).2 = [payload]
        /\ JwtPayload.provider payload = Some "generic").
Proof.
  intros run bare credentials. split.
  - destruct (oauth2_precondition Scenario.clock_1ms Scenario.uuidv4
                Scenario.jwt_sign Scenario.jwt_verify Scenario.config bare
                (fresh_world 0 0) eq_refl) as [Hfail _].
    destruct Hfail as (H1 & H2 & _); [left; reflexivity|].
    split; [exact H1|exact H2].
  - destruct (oauth2_precondition Scenario.clock_1ms Scenario.uuidv4
                Scenario.jwt_sign Scenario.jwt_verify Scenario.config
                credentials (fresh_world 0 0) eq_refl)
      as (_ & _ & _ & Hprov).
    destruct (Hprov eq_refl eq_refl) as (payload & s & Hs & Hp & _).
    exists payload. split; [exact Hs|exact Hp].
Defined.

(** C6 as stated fails twice over: an OAuth2 request without redirect URI
    and provider succeeds and gets a session, and an OAuth2 request
    without client id fails with AUTH_METHOD_REQUIRED, which is not the
    code MISSING_OAUTH2_CONFIG. *)
Lemma oauth2_missing_fields_accepted :
  let run :=
    authenticate Scenario.clock_1ms Scenario.uuidv4 Scenario.jwt_sign
      Scenario.jwt_verify Scenario.config in
  let no_redirect_no_provider :=
    AuthRequest.mk "oauth2" None None (Some "client-0001") (Some "s3cret")
                   None None None in
  let no_client_id :=
    AuthRequest.mk "oauth2" None None None (Some "s3cret")
                   (Some "https://app.example/cb") (Some "github") None in
  (AuthResult.success (run no_redirect_no_provider (fresh_world 0 0)).1 = true
   /\ AuthResult.sessionId (run no_redirect_no_provider (fresh_world 0 0)).1
      = Some "session_1_uuid-0"
   /\ is_Some (sessions (run no_redirect_no_provider (fresh_world 0 0)).2
                 !! "session_1_uuid-0"))
  /\ (error_code (run no_client_id (fresh_world 0 0)).1 = Some AuthMethodRequired
      /\ error_code (run no_client_id (fresh_world 0 0)).1
         <> Some MissingOAuth2Config).
Proof.
  vm_compute. repeat split; try discriminate. eauto.
Qed.

(** What [authenticateJWT] computes, in one equation. *)
Lemma authenticateJWT_eq
  (clock : nat -> Z) (uuidv4 : nat -> string)
  (jwt_verify : Z -> string -> string -> Completion JwtClaims.t)
  (config : Config) (token : string) (w : World) :
  authenticateJWT clock uuidv4 jwt_verify config token w =
  let w1 := (SessionManager.Date_now clock w).2 in
  match jwt_verify (clock (ticks w)) token (jwtSecret config) with
  | Throw _ =>
      fail_with clock "INVALID_JWT_TOKEN" "Invalid or expired JWT token" w1
  | Normal decoded =>
      let user := jwt_user decoded in
      match (if Js.truthy_opt (JwtClaims.sessionId decoded)
             then SessionManager.validateSession clock
                    (default EmptyString (JwtClaims.sessionId decoded))
             else mret None) w1 with
      | (Some session, w2) =>
          (AuthResult.succeeded (Session.id session) token
             (Session.expiresAt session) (UserInfo.permissions user) user, w2)
      | (None, w2) =>
          let created :=
            SessionManager.createSession clock uuidv4 (sessionManager config)
              user (UserInfo.permissions user) w2 in
          (AuthResult.succeeded (Session.id created.1) token
             (Session.expiresAt created.1) (UserInfo.permissions user) user,
           created.2)
      end
  end.
Proof.
  unfold authenticateJWT, verify, jwt_user, fail_with, SessionManager.Date_now,
    mbind, M_bind, mret, M_ret.
  cbn beta iota zeta. cbn [snd ticks].
  destruct (jwt_verify (clock (ticks w)) token (jwtSecret config)) as [decoded|msg];
    [|reflexivity].
  match goal with
  | |- context [(if ?c then ?a else ?b) ?w1] =>
      destruct ((if c then a else b) w1) as [[session|] w2]
  end; [reflexivity|].
  destruct (SessionManager.createSession clock uuidv4 (sessionManager config) _ _ w2);
    reflexivity.
Qed.

(** C7 (as amended). For a token that [jwt.verify] accepts: when the
    decoded claims carry a non-empty [sessionId] that still validates,
    the JWT tier returns that session's identifier and expiry, together
    with the user and the permissions built from the claims, and creates
    no session (the table has the same identifiers, no identifier is
    drawn); when the claims carry no [sessionId], or one that no longer
    validates, the tier creates a fresh session for the user built from
    the claims and returns that. *)
Theorem jwt_session_reuse
  (clock : nat -> Z) (uuidv4 : nat -> string)
  (jwt_verify : Z -> string -> string -> Completion JwtClaims.t)
  (config : Config) (token : string) (w : World) (decoded : JwtClaims.t) :
  jwt_verify (clock (ticks w)) token (jwtSecret config) = Normal decoded ->
  let w1 := (SessionManager.Date_now clock w).2 in
  let user := jwt_user decoded in
  let out := authenticateJWT clock uuidv4 jwt_verify config token w in
  (forall sid s,
      JwtClaims.sessionId decoded = Some sid ->
      Js.truthy sid = true ->
      (SessionManager.validateSession clock sid w1).1 = Some s ->
      out.1 = AuthResult.succeeded (Session.id s) token (Session.expiresAt s)
                (UserInfo.permissions user) user
      /\ out.2 = (SessionManager.validateSession clock sid w1).2
      /\ dom (sessions out.2) = dom (sessions w)
      /\ draws out.2 = draws w)
  /\ (forall w2,
        (Js.truthy_opt (JwtClaims.sessionId decoded) = false /\ w2 = w1)
        \/ (exists sid,
              JwtClaims.sessionId decoded = Some sid /\ Js.truthy sid = true
              /\ SessionManager.validateSession clock sid w1 = (None, w2)) ->
        let created :=
          SessionManager.createSession clock uuidv4 (sessionManager config)
            user (UserInfo.permissions user) w2 in
        out.1 = AuthResult.succeeded (Session.id created.1) token
                  (Session.expiresAt created.1) (UserInfo.permissions user) user
        /\ out.2 = created.2
        /\ sessions out.2 !! Session.id created.1 = Some created.1
        /\ Session.user created.1 = user).
Proof.
  intros Hverify w1 user out. subst out.
  rewrite authenticateJWT_eq, Hverify. cbn zeta. fold w1. fold user.
  split.
  - intros sid s Hsid Htruthy Hvalid. rewrite Hsid.
    cbn [Js.truthy_opt default from_option id]. rewrite Htruthy.
    pose proof Hvalid as Hv.
    apply SessionFacts.validateSession_Some in Hv as (s0 & Hs0 & _ & _ & Hw2).
    destruct (SessionManager.validateSession clock sid w1) as [r w2] eqn:E.
    simpl in Hvalid, Hw2. subst r w2. cbn [fst snd sessions draws].
    split; [reflexivity|]. split; [reflexivity|]. split; [|reflexivity].
    rewrite dom_insert_L. subst w1. cbn [sessions snd SessionManager.Date_now] in *.
    apply subseteq_union_1_L, singleton_subseteq_l.
    eapply elem_of_dom_2. exact Hs0.
  - intros w2 Hcase. cbn zeta.
    assert ((if Js.truthy_opt (JwtClaims.sessionId decoded)
             then SessionManager.validateSession clock
                    (default EmptyString (JwtClaims.sessionId decoded))
             else mret None) w1 = (None, w2)) as ->.
    { destruct Hcase as [[-> ->]|(sid & -> & Ht & Hv)]; [reflexivity|].
      cbn [Js.truthy_opt default from_option id]. rewrite Ht. exact Hv. }
    rewrite SessionFacts.createSession_eq. cbn zeta.
    cbn [fst snd Session.id Session.expiresAt Session.user sessions].
    split; [reflexivity|]. split; [reflexivity|].
    split; [apply lookup_insert_eq|reflexivity].
Qed.

(** The token of the session that the API-key tier has just created is
    presented to the JWT tier. *)
Lemma jwt_session_reuse_witness :
  let w :=
    (authenticate Scenario.clock_1ms Scenario.uuidv4 Scenario.jwt_sign
       Scenario.jwt_verify Scenario.config
       (Scenario.api_key_request Scenario.good_key) (fresh_world 0 0)).2 in
  let out :=
    authenticateJWT Scenario.clock_1ms Scenario.uuidv4 Scenario.jwt_verify
      Scenario.config "jwt.session_1_uuid-0" w in
  AuthResult.sessionId out.1 = Some "session_1_uuid-0"
  /\ dom (sessions out.2) = dom (sessions w)
  /\ draws out.2 = draws w.
Proof.
  intros w out.
  destruct (jwt_session_reuse Scenario.clock_1ms Scenario.uuidv4
              Scenario.jwt_verify Scenario.config "jwt.session_1_uuid-0" w
              (JwtClaims.mk "user_89abcdef" (Some ["basic"; "chat"])
                 (Some "session_1_uuid-0")) eq_refl) as [Hreuse _].
  destruct (Hreuse "session_1_uuid-0"
              (Session.mk "session_1_uuid-0" "user_89abcdef"
                 (UserInfo.mk "user_89abcdef" None (Some "API Key User")
                    ["basic"; "chat"] ["api_user"])
                 2 3600002 7 ["basic"; "chat"] []) eq_refl eq_refl)
    as (H1 & _ & H3 & H4).
  - vm_compute. reflexivity.
  - fold out in H1, H3, H4. rewrite H1. split; [reflexivity|].
    split; [exact H3|exact H4].
Defined.

(** C7 as stated fails on the session's data: the user the JWT tier
    returns for a reused session is the one it builds from the claims
    (name JWT User, role jwt_user), not the user the session holds (here
    the API Key User with role api_user). *)
Lemma jwt_tier_returns_claims_user :
  let w :=
    (authenticate Scenario.clock_1ms Scenario.uuidv4 Scenario.jwt_sign
       Scenario.jwt_verify Scenario.config
       (Scenario.api_key_request Scenario.good_key) (fresh_world 0 0)).2 in
  let out :=
    authenticateJWT Scenario.clock_1ms Scenario.uuidv4 Scenario.jwt_verify
      Scenario.config "jwt.session_1_uuid-0" w in
  exists s,
    sessions w !! "session_1_uuid-0" = Some s
    /\ AuthResult.success out.1 = true
    /\ AuthResult.sessionId out.1 = Some (Session.id s)
    /\ draws out.2 = draws w
    /\ AuthResult.user out.1 <> Some (Session.user s)
    /\ (UserInfo.roles <$> AuthResult.user out.1) = Some ["jwt_user"]
    /\ UserInfo.roles (Session.user s) = ["api_user"].
Proof.
  eexists. vm_compute. repeat split; try reflexivity. discriminate.
Qed.

End AuthFacts.

(** ** Password hashing and strength *)

Module PasswordFacts.

(** C8 (as amended). Both [verifyPassword] functions return a boolean
    for every password and every hash string and never throw; on a hash
    string the package cannot take apart they return false.
    [PasswordUtils.verifyPassword] returns true exactly when the password
    derives the key of the hash string again under its parameters; the
    function of utils/password-hashing.ts returns true exactly when, in
    addition, password and hash string are both non-empty. *)
Theorem verify_totality (lib : Argon2.Lib) (password hash : string) :
  (exists b, PasswordUtils.verifyPassword lib password hash = Normal b)
  /\ (exists b, PasswordHashing.verifyPassword lib password hash = Normal b)
  /\ (malformed lib hash ->
      PasswordUtils.verifyPassword lib password hash = Normal false
      /\ PasswordHashing.verifyPassword lib password hash = Normal false)
  /\ (PasswordUtils.verifyPassword lib password hash = Normal true
      <-> rederives lib password hash)
  /\ (PasswordHashing.verifyPassword lib password hash = Normal true
      <-> password <> EmptyString /\ hash <> EmptyString
          /\ rederives lib password hash).
Proof.
  set (v := match Argon2.deserialize lib hash with
            | Normal d =>
                String.eqb (Argon2.rederive lib d password) (Argon2.phc_key d)
            | Throw _ => false
            end).
  assert (PasswordUtils.verifyPassword lib password hash = Normal v) as HA.
  { unfold PasswordUtils.verifyPassword, Argon2.verify, v.
    destruct (Argon2.deserialize lib hash); reflexivity. }
  assert (PasswordHashing.verifyPassword lib password hash
          = Normal (Js.truthy password && Js.truthy hash && v)) as HB.
  { unfold PasswordHashing.verifyPassword, Argon2.verify, v.
    destruct (Js.truthy password); [|reflexivity].
    destruct (Js.truthy hash); [|reflexivity].
    destruct (Argon2.deserialize lib hash); reflexivity. }
  assert (v = true <-> rederives lib password hash) as HC.
  { unfold v, rederives.
    destruct (Argon2.deserialize lib hash) as [d|msg].
    - rewrite String.eqb_eq. split.
      + intros Hk. exists d. split; [reflexivity|exact Hk].
      + intros (d' & Hd' & Hk). injection Hd' as <-. exact Hk.
    - split; [discriminate|]. intros (d' & Hd' & _). discriminate. }
  assert (malformed lib hash -> v = false) as HD.
  { unfold v, malformed. intros Hm.
    destruct (Argon2.deserialize lib hash) as [d|msg]; [|reflexivity].
    exfalso. apply (Hm d). reflexivity. }
  assert (forall s, Js.truthy s = true <-> s <> EmptyString) as HE.
  { intros s0. unfold Js.truthy. rewrite Bool.negb_true_iff.
    destruct (String.eqb_spec s0 EmptyString); split; congruence. }
  rewrite HA, HB.
  split; [eauto|]. split; [eauto|]. split.
  - intros Hm. rewrite (HD Hm). split; [reflexivity|].
    rewrite Bool.andb_false_r. reflexivity.
  - split.
    + rewrite <- HC. split; [intros [= ->]; reflexivity|intros ->; reflexivity].
    + rewrite <- HC, <- !HE. split.
      * intros [= H]. apply Bool.andb_true_iff in H as [H ->].
        apply Bool.andb_true_iff in H as [-> ->]. auto.
      * intros (-> & -> & ->). reflexivity.
Qed.

(** C8 as stated fails for the function of utils/password-hashing.ts on
    the empty password: its guard answers false whatever the hash string
    is, also for the digest that [PasswordUtils.hashPassword] returns for
    the empty password, under which the empty password derives the same
    key again, as [PasswordUtils.verifyPassword] confirms. *)
Lemma empty_password_never_verifies :
  (forall lib hash,
      PasswordHashing.verifyPassword lib EmptyString hash = Normal false)
  /\ PasswordUtils.hashPassword Scenario.argon2 "salt" EmptyString None
     = Normal "$argon2id$"
  /\ rederives Scenario.argon2 EmptyString "$argon2id$"
  /\ PasswordUtils.verifyPassword Scenario.argon2 EmptyString "$argon2id$"
     = Normal true
  /\ PasswordHashing.verifyPassword Scenario.argon2 EmptyString "$argon2id$"
     <> Normal true.
Proof.
  split; [reflexivity|]. split; [reflexivity|].
  split; [eexists; split; reflexivity|].
  split; [reflexivity|discriminate].
Qed.




Lemma length_12_8 password :
  (12 <=? String.length password)%nat = true ->
  (8 <=? String.length password)%nat = true.
Proof. rewrite !Nat.leb_le. lia. Qed.

(** Case analysis on the seven tests of a password. *)
Ltac strength_cases password :=
  pose proof (length_12_8 password) as Hlen;
  destruct (8 <=? String.length password)%nat;
  destruct (12 <=? String.length password)%nat;
  destruct (Js.test_class Js.lower password);
  destruct (Js.test_class Js.upper password);
  destruct (Js.test_class Js.digit password);
  destruct (Js.test_class Js.other password);
  destruct (Js.test_repeat password);
  try (specialize (Hlen eq_refl); discriminate Hlen).

(** C10 (as amended). Both [validatePasswordStrength] functions award
    one point for each criterion met among: length at least 8, length at
    least 12, a lowercase letter, an uppercase letter, a digit, a symbol,
    and no match of the repetition pattern (a character other than a line
    terminator three times in a row); the score is at most 7. In
    [PasswordUtils] the result is valid when the score is at least 6, and
    then the feedback is the single line that the strength is good;
    otherwise the feedback holds, in order, the line of every unmet
    criterion other than length at least 12, which has none. In
    utils/password-hashing.ts the feedback always holds those lines, and
    the result is valid when the score is at least 5 and the feedback is
    empty. *)
Theorem strength_score_contract (password : string) :
  let r := PasswordUtils.validatePasswordStrength password in
  let r' := PasswordHashing.validatePasswordStrength password in
  Strength.score r = points met password
  /\ Strength.score r' = points met password
  /\ 0 <= points met password <= 7
  /\ Strength.isValid r = (6 <=? Strength.score r)
  /\ (Strength.isValid r = true ->
      Strength.feedback r = ["Password strength is good"])
  /\ (Strength.isValid r = false ->
      Strength.feedback r = unmet_lines line_PasswordUtils password)
  /\ Strength.feedback r' = unmet_lines line_PasswordHashing password
  /\ Strength.isValid r' =
     (5 <=? Strength.score r') && (length (Strength.feedback r') =? 0)%nat.
Proof.
  unfold PasswordUtils.validatePasswordStrength,
    PasswordHashing.validatePasswordStrength, points, unmet_lines, criteria.
  cbn [filter list_filter omap list_omap met met_as_worded].
  strength_cases password; vm_compute;
    repeat split; intros; congruence.
Qed.

(** C10 as stated fails in three places. The password abcdefgh misses
    four criteria, among them length at least 12, and the feedback has
    the lines of the other three only. The function of
    utils/password-hashing.ts answers a valid password with an empty
    feedback, not with an affirmative line. And three line feeds in a row
    are a run of three identical characters, yet the repetition point is
    awarded. *)
Lemma feedback_is_not_the_unmet_criteria :
  (filter (fun c => met_as_worded c "abcdefgh" = false) criteria
     = [Len12; Uppercase; Digit; Symbol]
   /\ Strength.isValid (PasswordUtils.validatePasswordStrength "abcdefgh") = false
   /\ Strength.feedback (PasswordUtils.validatePasswordStrength "abcdefgh")
      = ["Include uppercase letters"; "Include numbers";
         "Include special characters"])
  /\ (Strength.isValid
        (PasswordHashing.validatePasswordStrength "MyStr0ng!P@ssw0rd2024") = true
      /\ Strength.feedback
           (PasswordHashing.validatePasswordStrength "MyStr0ng!P@ssw0rd2024") = [])
  /\ (has_run3 Scenario.three_newlines = true
      /\ points met_as_worded Scenario.three_newlines = 1
      /\ Strength.score
           (PasswordUtils.validatePasswordStrength Scenario.three_newlines) = 2).
Proof. vm_compute. repeat split; reflexivity. Qed.

End PasswordFacts.

(** ** Further properties of the session table *)

Module SessionExtras.

Import SessionManager.

(** X1. [destroySession] of the service succeeds exactly when the table
    holds the identifier, removes that entry and no other; after it, a
    [validateSession] of the identifier fails with SESSION_NOT_FOUND and
    a second [destroySession] fails with SESSION_DESTROY_FAILED. *)
Theorem destroy_then_gone (clock : nat -> Z) (sessionId : string) (w : World) :
  let destroyed := AuthServiceSession.destroySession clock sessionId w in
  (AuthResult.success destroyed.1 = true <-> is_Some (sessions w !! sessionId))
  /\ sessions destroyed.2 !! sessionId = None
  /\ (forall other, other <> sessionId ->
        sessions destroyed.2 !! other = sessions w !! other)
  /\ AuthResult.success
       (AuthServiceSession.validateSession clock sessionId destroyed.2).1 = false
  /\ error_code (AuthServiceSession.validateSession clock sessionId destroyed.2).1
     = Some "SESSION_NOT_FOUND"
  /\ AuthResult.success
       (AuthServiceSession.destroySession clock sessionId destroyed.2).1 = false
  /\ error_code (AuthServiceSession.destroySession clock sessionId destroyed.2).1
     = Some "SESSION_DESTROY_FAILED".
Proof.
  cbn zeta.
  assert (forall w0,
             sessions w0 !! sessionId = None ->
             AuthServiceSession.destroySession clock sessionId w0 =
             AuthService.fail_with clock "SESSION_DESTROY_FAILED"
               "Session not found"
               (mkWorld (delete sessionId (sessions w0)) (ticks w0) (draws w0)
                        (signed w0))) as Hgone.
  { intros w0 H0. unfold AuthServiceSession.destroySession.
    unfold mbind at 1. unfold M_bind at 1.
    rewrite SessionFacts.destroySession_eq, H0.
    rewrite bool_decide_eq_false_2 by (intros [? ?]; discriminate).
    reflexivity. }
  assert (sessions (AuthServiceSession.destroySession clock sessionId w).2
          = delete sessionId (sessions w)) as Hafter.
  { unfold AuthServiceSession.destroySession.
    unfold mbind at 1. unfold M_bind at 1.
    rewrite SessionFacts.destroySession_eq.
    destruct (bool_decide (is_Some (sessions w !! sessionId))); reflexivity. }
  assert (sessions (AuthServiceSession.destroySession clock sessionId w).2
            !! sessionId = None) as Hnone.
  { rewrite Hafter. apply lookup_delete_eq. }
  split; [|split; [exact Hnone|split; [|split; [|split; [|split]]]]].
  - unfold AuthServiceSession.destroySession.
    unfold mbind at 1. unfold M_bind at 1.
    rewrite SessionFacts.destroySession_eq.
    destruct (bool_decide_reflect (is_Some (sessions w !! sessionId))) as [H|H];
      simpl; split; auto; discriminate.
  - intros other Hne. rewrite Hafter. apply lookup_delete_ne. congruence.
  - unfold AuthServiceSession.validateSession.
    unfold mbind at 1. unfold M_bind at 1.
    rewrite (SessionFacts.validateSession_absent clock _ _ Hnone). reflexivity.
  - unfold AuthServiceSession.validateSession.
    unfold mbind at 1. unfold M_bind at 1.
    rewrite (SessionFacts.validateSession_absent clock _ _ Hnone). reflexivity.
  - rewrite (Hgone _ Hnone). reflexivity.
  - rewrite (Hgone _ Hnone). reflexivity.
Qed.

Lemma sweep_lookup (clock : nat -> Z) (w : World) (i : string) :
  sessions (startCleanup_tick clock w).2 !! i =
  match sessions w !! i with
  | Some s => if Session.expiresAt s <? clock (ticks w) then None else Some s
  | None => None
  end.
Proof.
  change (sessions (startCleanup_tick clock w).2)
    with (filter (fun kv : string * Session.t =>
                    ¬ (Session.expiresAt kv.2 < clock (ticks w))) (sessions w)).
  destruct (sessions w !! i) as [s|] eqn:E.
  - destruct (Z.ltb_spec (Session.expiresAt s) (clock (ticks w))).
    + apply map_lookup_filter_None. right. intros s' Hs'.
      assert (s' = s) by congruence. subst s'. simpl. lia.
    + apply map_lookup_filter_Some. split; [exact E|]. simpl. lia.
  - apply map_lookup_filter_None. left. exact E.
Qed.

(** X2. The sweep of the cleanup timer removes exactly the sessions with
    [expiresAt < now] and leaves every other record as it is; when the
    clock does not run backwards, no [validateSession] can tell whether
    the sweep has run: it answers as it would have without the sweep. *)
Theorem sweep_is_unobservable
  (clock : nat -> Z) (w : World) :
  clock (ticks w) <= clock (S (ticks w)) ->
  let swept := (startCleanup_tick clock w).2 in
  (forall i,
      sessions swept !! i =
      match sessions w !! i with
      | Some s => if Session.expiresAt s <? clock (ticks w) then None else Some s
      | None => None
      end)
  /\ (forall sessionId,
        (validateSession clock sessionId swept).1
        = (validateSession clock sessionId (after_reading w)).1).
Proof.
  intros Hmono swept. split; [intros i; apply sweep_lookup|].
  intros sessionId.
  pose proof (sweep_lookup clock w sessionId) as Hl. fold swept in Hl.
  assert (ticks swept = S (ticks w)) as Ht by reflexivity.
  destruct (sessions w !! sessionId) as [s|] eqn:E.
  - assert (sessions (after_reading w) !! sessionId = Some s) as E' by exact E.
    rewrite (SessionFacts.validateSession_present clock _ _ _ E'). cbn zeta.
    cbn [after_reading ticks].
    destruct (Z.ltb_spec (Session.expiresAt s) (clock (ticks w))).
    + rewrite (SessionFacts.validateSession_absent clock _ _ Hl).
      destruct (Z.ltb_spec (Session.expiresAt s) (clock (S (ticks w))));
        [reflexivity|lia].
    + rewrite (SessionFacts.validateSession_present clock _ _ _ Hl). cbn zeta.
      rewrite Ht.
      destruct (Session.expiresAt s <? clock (S (ticks w))); reflexivity.
  - assert (sessions (after_reading w) !! sessionId = None) as E' by exact E.
    rewrite (SessionFacts.validateSession_absent clock _ _ Hl).
    rewrite (SessionFacts.validateSession_absent clock _ _ E'). reflexivity.
Qed.

(** Alice's session, created at time 1 with a one-second timeout,
    survives a sweep at time 2 and validates at time 3. *)
Lemma sweep_is_unobservable_witness :
  let w :=
    (createSession Scenario.clock_1ms Scenario.uuidv4 Scenario.one_second
       Scenario.alice ["basic"] (fresh_world 0 0)).2 in
  let swept := (startCleanup_tick Scenario.clock_1ms w).2 in
  (validateSession Scenario.clock_1ms "session_0_uuid-0" swept).1
  = (validateSession Scenario.clock_1ms "session_0_uuid-0" (after_reading w)).1.
Proof.
  intros w swept.
  destruct (sweep_is_unobservable Scenario.clock_1ms w) as [_ H].
  - vm_compute. discriminate.
  - apply H.
Defined.

(** X3. [refreshSession] of an identifier that is unknown, or whose
    session has expired, returns null and draws no identifier; afterwards
    the table has no entry under that identifier and all other entries
    are as before. *)
Theorem refresh_of_unknown_or_expired
  (clock : nat -> Z) (uuidv4 : nat -> string) (config : Config)
  (sessionId : string) (w : World) :
  (sessions w !! sessionId = None
   \/ exists s, sessions w !! sessionId = Some s
               /\ Session.expiresAt s < clock (ticks w)) ->
  let refreshed := refreshSession clock uuidv4 config sessionId w in
  refreshed.1 = None
  /\ draws refreshed.2 = draws w
  /\ sessions refreshed.2 !! sessionId = None
  /\ (forall other, other <> sessionId ->
        sessions refreshed.2 !! other = sessions w !! other).
Proof.
  intros Hcase refreshed. subst refreshed.
  rewrite SessionFacts.refreshSession_eq.
  destruct Hcase as [Habsent|(s & Hs & Hexp)].
  - rewrite (SessionFacts.validateSession_absent clock _ _ Habsent). simpl.
    auto.
  - rewrite (SessionFacts.validateSession_present clock _ _ _ Hs). cbn zeta.
    destruct (Z.ltb_spec (Session.expiresAt s) (clock (ticks w))); [|lia].
    simpl. split; [reflexivity|]. split; [reflexivity|].
    split; [apply lookup_delete_eq|].
    intros other Hne. apply lookup_delete_ne. congruence.
Qed.

Lemma refresh_of_unknown_or_expired_witness :
  (refreshSession Scenario.clock_1ms Scenario.uuidv4 Scenario.one_second
     "no-such-session" (fresh_world 0 0)).1 = None.
Proof.
  apply (refresh_of_unknown_or_expired Scenario.clock_1ms Scenario.uuidv4
           Scenario.one_second "no-such-session" (fresh_world 0 0)).
  left. reflexivity.
Defined.

(** X4. [getStats] counts the entries of the table: a [createSession]
    under an unused identifier adds one, a [destroySession] of a stored
    identifier takes one away and of an unknown identifier none, a
    successful [validateSession] keeps the count and one that finds an
    expired session takes one away, a [refreshSession] that succeeds
    under an unused identifier keeps the count, and after [cleanup] the
    count is 0. *)
Theorem stats_accounting
  (clock : nat -> Z) (uuidv4 : nat -> string) (config : Config) (w : World) :
  (forall user permissions,
      sessions w !! next_id clock uuidv4 w = None ->
      (getStats (createSession clock uuidv4 config user permissions w).2).1
      = S (getStats w).1)
  /\ (forall sessionId,
        is_Some (sessions w !! sessionId) ->
        S (getStats (destroySession sessionId w).2).1 = (getStats w).1)
  /\ (forall sessionId,
        sessions w !! sessionId = None ->
        (getStats (destroySession sessionId w).2).1 = (getStats w).1)
  /\ (forall sessionId s,
        (validateSession clock sessionId w).1 = Some s ->
        (getStats (validateSession clock sessionId w).2).1 = (getStats w).1)
  /\ (forall sessionId s,
        sessions w !! sessionId = Some s ->
        Session.expiresAt s < clock (ticks w) ->
        S (getStats (validateSession clock sessionId w).2).1 = (getStats w).1)
  /\ (forall sessionId s,
        (validateSession clock sessionId w).1 = Some s ->
        unique_id clock uuidv4 config (OpRefresh sessionId) w ->
        (getStats (refreshSession clock uuidv4 config sessionId w).2).1
        = (getStats w).1)
  /\ (getStats (cleanup w).2).1 = 0%nat.
Proof.
  assert (forall w0, (getStats w0).1 = size (sessions w0)) as Hstats
    by reflexivity.
  assert (forall (m : gmap string Session.t) i s,
             m !! i = Some s -> S (size (delete i m)) = size m) as Hdel.
  { intros m i s Hs. rewrite <- (insert_delete_id m i s Hs) at 2.
    symmetry. apply map_size_insert_None, lookup_delete_eq. }
  rewrite !Hstats.
  split; [|split; [|split; [|split; [|split; [|split]]]]].
  - intros user permissions Hfresh. rewrite Hstats.
    rewrite SessionFacts.createSession_eq. cbn zeta. cbn [snd sessions].
    apply map_size_insert_None. exact Hfresh.
  - intros sessionId [s Hs]. rewrite Hstats.
    rewrite SessionFacts.destroySession_eq. cbn [snd sessions].
    eapply Hdel. exact Hs.
  - intros sessionId Hnone. rewrite Hstats.
    rewrite SessionFacts.destroySession_eq. cbn [snd sessions].
    apply map_size_delete_None. exact Hnone.
  - intros sessionId s Hv. rewrite Hstats.
    apply SessionFacts.validateSession_Some in Hv as (s0 & Hs0 & _ & _ & ->).
    cbn [sessions]. apply map_size_insert_Some. eauto.
  - intros sessionId s Hs Hexp. rewrite Hstats.
    rewrite (SessionFacts.validateSession_present clock _ _ _ Hs). cbn zeta.
    destruct (Z.ltb_spec (Session.expiresAt s) (clock (ticks w))); [|lia].
    cbn [snd sessions]. eapply Hdel. exact Hs.
  - intros sessionId s Hv Hu. rewrite Hstats.
    unfold unique_id in Hu. rewrite SessionFacts.run_op_refresh in Hu.
    rewrite (SessionFacts.refreshSession_Some clock uuidv4 config _ _ _ Hv) in Hu |- *.
    cbn zeta in *. simpl in Hu. cbn [snd sessions].
    rewrite SessionFacts.createSession_eq. cbn zeta. cbn [fst Session.id].
    set (newId := next_id clock uuidv4 (validateSession clock sessionId w).2) in *.
    specialize (Hu newId eq_refl). clearbody newId.
    apply SessionFacts.validateSession_Some in Hv as (s0 & Hs0 & _ & _ & ->).
    cbn [sessions].
    assert (newId <> sessionId) as Hne.
    { intros ->. rewrite Hs0 in Hu. discriminate. }
    apply Nat.succ_inj.
    rewrite (Hdel _ sessionId s).
    + rewrite map_size_insert_None.
      * f_equal. apply map_size_insert_Some. eauto.
      * rewrite lookup_insert_ne by congruence. exact Hu.
    + rewrite lookup_insert_ne by exact Hne. apply lookup_insert_eq.
  - reflexivity.
Qed.

Lemma same_but_lastAccessedAt_touch s s1 s' t :
  s1 = s \/ s1 = Session.touch t s ->
  same_but_lastAccessedAt s1 s' ->
  same_but_lastAccessedAt s s'.
Proof.
  unfold same_but_lastAccessedAt. intros [->| ->] H; [exact H|].
  rewrite H at 1. reflexivity.
Qed.

(** A record that is still in the table after a run of operations, none
    of which created its identifier, is the record that was there at the
    start, up to [lastAccessedAt]. *)
Lemma run_ops_frame (clock : nat -> Z) (uuidv4 : nat -> string)
  (config : Config) (os : list Op) : forall w i s',
  i ∉ (run_ops clock uuidv4 config os w).1 ->
  sessions (run_ops clock uuidv4 config os w).2 !! i = Some s' ->
  exists s, sessions w !! i = Some s /\ same_but_lastAccessedAt s s'.
Proof.
  induction os as [|o rest IH]; intros w i s' Hnot Hs'.
  - exists s'. split; [exact Hs'|apply SessionFacts.touch_same].
  - rewrite SessionFacts.run_ops_cons in Hnot, Hs'. cbn zeta in *. simpl in *.
    assert ((run_op clock uuidv4 config o w).1 <> Some i) as Hno.
    { intros Hc. rewrite Hc in Hnot. apply Hnot. left. }
    assert (i ∉ (run_ops clock uuidv4 config rest
                   (run_op clock uuidv4 config o w).2).1) as Hrest.
    { destruct ((run_op clock uuidv4 config o w).1); [|exact Hnot].
      intros Hin. apply Hnot. right. exact Hin. }
    destruct (IH _ _ _ Hrest Hs') as (s1 & Hs1 & Hsame).
    destruct (SessionFacts.run_op_frame clock uuidv4 config _ _ _ _ Hno Hs1)
      as (s & Hs & Hcase).
    exists s. split; [exact Hs|].
    eapply same_but_lastAccessedAt_touch; [|exact Hsame].
    destruct Hcase as [->|(_ & -> & _)]; [left|right]; reflexivity.
Qed.

(** X5. Validation does not extend a session's life. After any run of
    create, validate, refresh, destroy and sweep operations that does
    not create the identifier anew, a session still stored under it has
    the [createdAt], [expiresAt], user and permissions it started with,
    and once the clock has passed that [expiresAt], [validateSession]
    rejects it. *)
Theorem no_sliding_expiration
  (clock : nat -> Z) (uuidv4 : nat -> string) (config : Config)
  (os : list Op) (w : World) (sessionId : string) (s : Session.t) :
  sessions w !! sessionId = Some s ->
  sessionId ∉ (run_ops clock uuidv4 config os w).1 ->
  let later := (run_ops clock uuidv4 config os w).2 in
  (forall s', sessions later !! sessionId = Some s' ->
     same_but_lastAccessedAt s s'
     /\ Session.expiresAt s' = Session.expiresAt s)
  /\ (Session.expiresAt s < clock (ticks later) ->
      (validateSession clock sessionId later).1 = None).
Proof.
  intros Hs Hnot later.
  assert (forall s', sessions later !! sessionId = Some s' ->
            same_but_lastAccessedAt s s'
            /\ Session.expiresAt s' = Session.expiresAt s) as Hsame.
  { intros s' Hs'.
    destruct (run_ops_frame clock uuidv4 config os w _ _ Hnot Hs')
      as (s0 & Hs0 & Hsame).
    assert (s0 = s) by congruence. subst s0.
    split; [exact Hsame|]. rewrite Hsame. reflexivity. }
  split; [exact Hsame|].
  intros Hexp.
  destruct (sessions later !! sessionId) as [s'|] eqn:E.
  - rewrite (SessionFacts.validateSession_present clock _ _ _ E). cbn zeta.
    destruct (Hsame s' eq_refl) as [_ He].
    destruct (Z.ltb_spec (Session.expiresAt s') (clock (ticks later)));
      [reflexivity|lia].
  - rewrite (SessionFacts.validateSession_absent clock _ _ E). reflexivity.
Qed.

(** Alice's session, created at time 1 with a one-second timeout, is
    validated three times; its [expiresAt] is still 1001. *)
Lemma no_sliding_expiration_witness :
  let w :=
    (createSession Scenario.clock_1ms Scenario.uuidv4 Scenario.one_second
       Scenario.alice ["basic"] (fresh_world 0 0)).2 in
  let os := [OpValidate "session_0_uuid-0"; OpValidate "session_0_uuid-0";
             OpValidate "session_0_uuid-0"] in
  let later :=
    (run_ops Scenario.clock_1ms Scenario.uuidv4 Scenario.one_second os w).2 in
  exists s', sessions later !! "session_0_uuid-0" = Some s'
             /\ Session.expiresAt s' = 1001.
Proof.
  intros w os later.
  destruct (sessions later !! "session_0_uuid-0") as [s'|] eqn:Hs';
    [|vm_compute in Hs'; discriminate Hs'].
  exists s'. split; [reflexivity|].
  destruct (no_sliding_expiration Scenario.clock_1ms Scenario.uuidv4
              Scenario.one_second os w "session_0_uuid-0"
              (Session.mk "session_0_uuid-0" "alice" Scenario.alice 1 1001 1
                 ["basic"] [])) as [H _].
  - vm_compute. reflexivity.
  - vm_compute. intros Hin. inversion Hin.
  - apply H in Hs' as [_ ->]. reflexivity.
Defined.

End SessionExtras.

(** ** Further properties of the service *)

Module AuthExtras.

Import AuthService.

Section Tiers.

Variable clock : nat -> Z.
Variable uuidv4 : nat -> string.
Variable jwt_sign : Z -> JwtPayload.t -> string -> string -> Completion string.
Variable jwt_verify : Z -> string -> string -> Completion JwtClaims.t.
Variable config : Config.

Lemma well_formed_key_checks k :
  well_formed_key k = true ->
  Js.truthy k = true
  /\ Js.startsWith k "agentui_" = true
  /\ (String.length k <? 32)%nat = false
  /\ (32 <=? String.length k)%nat = true.
Proof.
  unfold well_formed_key. intros H. apply Bool.andb_true_iff in H as [Hp Hl].
  split; [destruct k; [discriminate Hp|reflexivity]|].
  split; [exact Hp|]. split; [|exact Hl].
  rewrite Nat.ltb_antisym, Hl. reflexivity.
Qed.

(** What [authenticate] computes for a well-formed API key. *)
Lemma authenticate_api_key_eq request w k :
  AuthRequest.method request = "api-key" ->
  AuthRequest.apiKey request = Some k ->
  well_formed_key k = true ->
  let user := api_key_user k (default [] (AuthRequest.permissions request)) in
  let created :=
    SessionManager.createSession clock uuidv4 (sessionManager config) user
      (UserInfo.permissions user) (after_reading w) in
  let payload :=
    JwtPayload.mk (UserInfo.id user) (UserInfo.permissions user)
                  (Session.id created.1) None in
  let t0 := clock (ticks w) in
  let w' := after_signing payload created.2 in
  authenticate clock uuidv4 jwt_sign jwt_verify config request w =
  match jwt_sign (clock (ticks created.2)) payload (jwtSecret config)
                 (jwtExpiresIn config) with
  | Normal token =>
      (AuthResult.with_steps
         (AuthResult.succeeded (Session.id created.1) token
            (Session.expiresAt created.1) (UserInfo.permissions user) user)
         [AuthStep.mk 1 "api-key" (clock (ticks w') - t0) true
            (Some (UserInfo.permissions user)) "basic"]
         (clock (S (ticks w')) - t0) "standard",
       after_readings 2 w')
  | Throw message =>
      (no_method_result
         [AuthStep.mk 1 "api-key" (clock (S (ticks w')) - t0) false None "basic"]
         (clock (S (S (ticks w'))) - t0) (clock (S (S (S (ticks w'))))),
       after_readings 4 w')
  end.
Proof.
  destruct request as [method apiKey token clientId clientSecret redirectUri
                         provider permissions].
  cbn [AuthRequest.method AuthRequest.apiKey AuthRequest.permissions].
  intros -> -> Hk.
  destruct (well_formed_key_checks k Hk) as (Ht & Hp & Hl & Hl').
  cbn zeta.
  AuthFacts.unfold_authenticate.
  cbn [String.eqb Ascii.eqb Bool.eqb andb Js.truthy_opt default from_option id].
  rewrite Ht, Hp, Hl, Hl'. cbn [andb orb negb].
  fold (api_key_user k (default [] permissions)).
  rewrite !SessionFacts.createSession_eq. cbn zeta.
  unfold after_reading, after_signing, after_readings.
  cbn [fst snd ticks sessions draws signed Session.id Session.expiresAt].
  match goal with
  | |- context [jwt_sign ?now ?p _ _] =>
      destruct (jwt_sign now p (jwtSecret config) (jwtExpiresIn config))
  end; reflexivity.
Qed.

(** What [authenticate] computes for a request that presents a token. *)
Lemma authenticate_jwt_eq request w t :
  AuthRequest.method request = "jwt" ->
  AuthRequest.token request = Some t ->
  Js.truthy t = true ->
  let inner := authenticateJWT clock uuidv4 jwt_verify config t (after_reading w) in
  let t0 := clock (ticks w) in
  let step :=
    AuthStep.mk 2 "jwt" (clock (ticks inner.2) - t0 - 0)
      (AuthResult.success inner.1) (AuthResult.permissions inner.1) "standard" in
  authenticate clock uuidv4 jwt_sign jwt_verify config request w =
  if AuthResult.success inner.1 then
    (AuthResult.with_steps inner.1 [step] (clock (S (ticks inner.2)) - t0) "high",
     after_readings 2 inner.2)
  else
    (no_method_result [step] (clock (S (ticks inner.2)) - t0)
       (clock (S (S (ticks inner.2)))),
     after_readings 3 inner.2).
Proof.
  destruct request as [method apiKey token clientId clientSecret redirectUri
                         provider permissions].
  cbn [AuthRequest.method AuthRequest.token].
  intros -> -> Ht. cbn zeta.
  unfold authenticate, step_api_key, step_jwt, step_oauth2,
    SessionManager.Date_now, mbind, M_bind, mret, M_ret.
  cbn [AuthRequest.method AuthRequest.apiKey AuthRequest.token
       AuthRequest.clientId AuthRequest.clientSecret String.eqb Ascii.eqb
       Bool.eqb andb Js.truthy_opt default from_option id].
  rewrite Ht. fold (after_reading w).
  destruct (authenticateJWT clock uuidv4 jwt_verify config t (after_reading w))
    as [r w2].
  cbn [fst snd]. destruct (AuthResult.success r) eqn:Es; reflexivity.
Qed.

End Tiers.

(** What [authenticate] returns, and the world it leaves, for a
    well-formed API key whose token is signed. *)
Lemma api_key_success_eq
  (clock : nat -> Z) (uuidv4 : nat -> string)
  (jwt_sign : Z -> JwtPayload.t -> string -> string -> Completion string)
  (jwt_verify : Z -> string -> string -> Completion JwtClaims.t)
  (config : Config) (request : AuthRequest.t) (w : World)
  (k token : string) :
  AuthRequest.method request = "api-key" ->
  AuthRequest.apiKey request = Some k ->
  well_formed_key k = true ->
  let user := api_key_user k (default [] (AuthRequest.permissions request)) in
  let sid := SessionManager.next_id clock uuidv4 (after_reading w) in
  let payload :=
    JwtPayload.mk (UserInfo.id user) (UserInfo.permissions user) sid None in
  let created := clock (S (S (ticks w))) in
  let session :=
    Session.mk sid (UserInfo.id user) user created
      (created + sessionTimeout config) created (UserInfo.permissions user) [] in
  jwt_sign (clock (S (S (S (ticks w))))) payload (jwtSecret config)
           (jwtExpiresIn config) = Normal token ->
  authenticate clock uuidv4 jwt_sign jwt_verify config request w =
  (AuthResult.with_steps
     (AuthResult.succeeded sid token (created + sessionTimeout config)
        (UserInfo.permissions user) user)
     [AuthStep.mk 1 "api-key" (clock (4 + ticks w)%nat - clock (ticks w)) true
        (Some (UserInfo.permissions user)) "basic"]
     (clock (5 + ticks w)%nat - clock (ticks w)) "standard",
   mkWorld (<[sid := session]> (sessions w)) (6 + ticks w)%nat (S (draws w))
           (payload :: signed w)).
Proof.
  intros Hm Hk Hwf user sid payload created session Hsign.
  rewrite (authenticate_api_key_eq clock uuidv4 jwt_sign jwt_verify config
             request w k Hm Hk Hwf).
  cbn zeta. rewrite SessionFacts.createSession_eq. cbn zeta.
  cbn [fst snd ticks sessions draws signed after_reading Session.id].
  fold user. fold sid. fold payload. rewrite Hsign. reflexivity.
Qed.

(** X6. For a well-formed API key (prefix agentui_, at least 32
    characters) and a signer that returns a token, [authenticate]
    succeeds at security level standard; the permissions granted are the
    requested ones, or basic and read when none were requested; the user
    id is user_ followed by the last eight characters of the key; a
    session for that user is stored under the returned identifier and
    expires one timeout after its creation; exactly one payload, naming
    that session, has been signed; no other table entry has changed. *)
Theorem api_key_authenticate_succeeds
  (clock : nat -> Z) (uuidv4 : nat -> string)
  (jwt_sign : Z -> JwtPayload.t -> string -> string -> Completion string)
  (jwt_verify : Z -> string -> string -> Completion JwtClaims.t)
  (config : Config) (request : AuthRequest.t) (w : World)
  (k token : string) :
  AuthRequest.method request = "api-key" ->
  AuthRequest.apiKey request = Some k ->
  well_formed_key k = true ->
  let user := api_key_user k (default [] (AuthRequest.permissions request)) in
  let sid := SessionManager.next_id clock uuidv4 (after_reading w) in
  let payload :=
    JwtPayload.mk (UserInfo.id user) (UserInfo.permissions user) sid None in
  let expiry := clock (S (S (ticks w))) + sessionTimeout config in
  jwt_sign (clock (S (S (S (ticks w))))) payload (jwtSecret config)
           (jwtExpiresIn config) = Normal token ->
  let out := authenticate clock uuidv4 jwt_sign jwt_verify config request w in
  AuthResult.success out.1 = true
  /\ AuthResult.securityLevel out.1 = Some "standard"
  /\ AuthResult.sessionId out.1 = Some sid
  /\ AuthResult.token out.1 = Some token
  /\ AuthResult.expiresAt out.1 = Some expiry
  /\ AuthResult.permissions out.1 = Some (UserInfo.permissions user)
  /\ AuthResult.user out.1 = Some user
  /\ sessions out.2 !! sid
     = Some (Session.mk sid (UserInfo.id user) user (clock (S (S (ticks w))))
               expiry (clock (S (S (ticks w)))) (UserInfo.permissions user) [])
  /\ (forall other, other <> sid -> sessions out.2 !! other = sessions w !! other)
  /\ signed out.2 = payload :: signed w.
Proof.
  intros Hm Hk Hwf user sid payload expiry Hsign out. subst out.
  rewrite (api_key_success_eq clock uuidv4 jwt_sign jwt_verify config request
             w k token Hm Hk Hwf Hsign).
  cbn [fst snd AuthResult.success AuthResult.securityLevel AuthResult.sessionId
       AuthResult.token AuthResult.expiresAt AuthResult.permissions
       AuthResult.user AuthResult.with_steps AuthResult.succeeded
       sessions signed].
  repeat (split; [reflexivity|]).
  split; [apply lookup_insert_eq|]. split; [|reflexivity].
  intros other Hne. apply lookup_insert_ne.
  intros Heq. apply Hne. symmetry. exact Heq.
Qed.

(** The scenario's key, with the permissions basic and chat requested. *)
Lemma api_key_authenticate_succeeds_witness :
  let out :=
    authenticate Scenario.clock_1ms Scenario.uuidv4 Scenario.jwt_sign
      Scenario.jwt_verify Scenario.config
      (Scenario.api_key_request Scenario.good_key) (fresh_world 0 0) in
  AuthResult.success out.1 = true
  /\ AuthResult.sessionId out.1 = Some "session_1_uuid-0"
  /\ AuthResult.permissions out.1 = Some ["basic"; "chat"].
Proof.
  intros out.
  destruct (api_key_authenticate_succeeds Scenario.clock_1ms Scenario.uuidv4
              Scenario.jwt_sign Scenario.jwt_verify Scenario.config
              (Scenario.api_key_request Scenario.good_key) (fresh_world 0 0)
              Scenario.good_key "jwt.session_1_uuid-0"
              eq_refl eq_refl eq_refl eq_refl)
    as (H1 & _ & H3 & _ & _ & H6 & _).
  split; [exact H1|]. split; [exact H3|exact H6].
Defined.

(** X7. When [jwt.sign] throws for a well-formed API key, [authenticate]
    reports a failure that carries no session identifier and no token;
    the session that the tier created before signing stays in the
    table. *)
Theorem signing_failure_leaves_session
  (clock : nat -> Z) (uuidv4 : nat -> string)
  (jwt_sign : Z -> JwtPayload.t -> string -> string -> Completion string)
  (jwt_verify : Z -> string -> string -> Completion JwtClaims.t)
  (config : Config) (request : AuthRequest.t) (w : World)
  (k message : string) :
  AuthRequest.method request = "api-key" ->
  AuthRequest.apiKey request = Some k ->
  well_formed_key k = true ->
  let user := api_key_user k (default [] (AuthRequest.permissions request)) in
  let sid := SessionManager.next_id clock uuidv4 (after_reading w) in
  let payload :=
    JwtPayload.mk (UserInfo.id user) (UserInfo.permissions user) sid None in
  jwt_sign (clock (S (S (S (ticks w))))) payload (jwtSecret config)
           (jwtExpiresIn config) = Throw message ->
  let out := authenticate clock uuidv4 jwt_sign jwt_verify config request w in
  AuthResult.success out.1 = false
  /\ AuthResult.sessionId out.1 = None
  /\ AuthResult.token out.1 = None
  /\ (exists s, sessions out.2 !! sid = Some s /\ Session.user s = user)
  /\ draws out.2 = S (draws w).
Proof.
  intros Hm Hk Hwf user sid payload Hsign out. subst out.
  rewrite (authenticate_api_key_eq clock uuidv4 jwt_sign jwt_verify config
             request w k Hm Hk Hwf).
  cbn zeta. rewrite SessionFacts.createSession_eq. cbn zeta.
  cbn [fst snd ticks sessions draws signed after_reading Session.id].
  fold user. fold sid. fold payload. rewrite Hsign.
  cbn [fst snd AuthResult.success AuthResult.sessionId AuthResult.token
       no_method_result after_readings after_signing sessions draws].
  repeat (split; [reflexivity|]). split; [|reflexivity].
  eexists. split; [apply lookup_insert_eq|reflexivity].
Qed.

Lemma signing_failure_leaves_session_witness :
  let out :=
    authenticate Scenario.clock_1ms Scenario.uuidv4 Faulty.jwt_sign
      Scenario.jwt_verify Scenario.config
      (Scenario.api_key_request Scenario.good_key) (fresh_world 0 0) in
  AuthResult.success out.1 = false
  /\ is_Some (sessions out.2 !! "session_1_uuid-0").
Proof.
  intros out.
  destruct (signing_failure_leaves_session Scenario.clock_1ms Scenario.uuidv4
              Faulty.jwt_sign Scenario.jwt_verify Scenario.config
              (Scenario.api_key_request Scenario.good_key) (fresh_world 0 0)
              Scenario.good_key "secretOrPrivateKey must have a value"
              eq_refl eq_refl eq_refl eq_refl)
    as (H1 & _ & _ & (s & Hs & _) & _).
  split; [exact H1|]. exists s. exact Hs.
Defined.

(** X8. The session identifier that a successful API-key [authenticate]
    returns validates: as long as the clock has not passed the expiry,
    [validateSession] of the service succeeds for it and returns the
    same identifier, expiry, permissions and user that [authenticate]
    returned. *)
Theorem authenticate_then_validate
  (clock : nat -> Z) (uuidv4 : nat -> string)
  (jwt_sign : Z -> JwtPayload.t -> string -> string -> Completion string)
  (jwt_verify : Z -> string -> string -> Completion JwtClaims.t)
  (config : Config) (request : AuthRequest.t) (w : World)
  (k token : string) :
  AuthRequest.method request = "api-key" ->
  AuthRequest.apiKey request = Some k ->
  well_formed_key k = true ->
  let user := api_key_user k (default [] (AuthRequest.permissions request)) in
  let sid := SessionManager.next_id clock uuidv4 (after_reading w) in
  let payload :=
    JwtPayload.mk (UserInfo.id user) (UserInfo.permissions user) sid None in
  jwt_sign (clock (S (S (S (ticks w))))) payload (jwtSecret config)
           (jwtExpiresIn config) = Normal token ->
  let out := authenticate clock uuidv4 jwt_sign jwt_verify config request w in
  clock (ticks out.2) <= clock (S (S (ticks w))) + sessionTimeout config ->
  let validated := (AuthServiceSession.validateSession clock sid out.2).1 in
  AuthResult.success validated = true
  /\ AuthResult.sessionId validated = AuthResult.sessionId out.1
  /\ AuthResult.expiresAt validated = AuthResult.expiresAt out.1
  /\ AuthResult.permissions validated = AuthResult.permissions out.1
  /\ AuthResult.user validated = AuthResult.user out.1.
Proof.
  intros Hm Hk Hwf user sid payload Hsign out Hlive validated.
  pose proof (api_key_success_eq clock uuidv4 jwt_sign jwt_verify config
                request w k token Hm Hk Hwf Hsign) as Heq.
  cbn zeta in Heq. fold user sid payload out in Heq.
  subst validated. revert Hlive. rewrite Heq. cbn [fst snd ticks]. intros Hlive.
  match goal with
  | |- context [AuthServiceSession.validateSession clock sid ?w0] =>
      assert ((AuthServiceSession.validateSession clock sid w0).1 =
              AuthResult.mk true (Some sid) None
                (Some (clock (S (S (ticks w))) + sessionTimeout config))
                (Some (UserInfo.permissions user)) (Some user)
                None None None None) as ->
  end.
  { unfold AuthServiceSession.validateSession.
    unfold mbind at 1. unfold M_bind at 1.
    erewrite SessionFacts.validateSession_present
      by (cbn [sessions]; apply lookup_insert_eq).
    cbn zeta. cbn [Session.expiresAt ticks].
    destruct (Z.ltb_spec (clock (S (S (ticks w))) + sessionTimeout config)
                (clock (6 + ticks w)%nat)); [lia|reflexivity]. }
  repeat split; reflexivity.
Qed.

Lemma authenticate_then_validate_witness :
  let out :=
    authenticate Scenario.clock_1ms Scenario.uuidv4 Scenario.jwt_sign
      Scenario.jwt_verify Scenario.config
      (Scenario.api_key_request Scenario.good_key) (fresh_world 0 0) in
  AuthResult.success
    (AuthServiceSession.validateSession Scenario.clock_1ms
       "session_1_uuid-0" out.2).1 = true.
Proof.
  intros out.
  destruct (authenticate_then_validate Scenario.clock_1ms Scenario.uuidv4
              Scenario.jwt_sign Scenario.jwt_verify Scenario.config
              (Scenario.api_key_request Scenario.good_key) (fresh_world 0 0)
              Scenario.good_key "jwt.session_1_uuid-0"
              eq_refl eq_refl eq_refl eq_refl) as [H _].
  - vm_compute. discriminate.
  - exact H.
Defined.

(** X9. A request that presents a token which [jwt.verify] rejects gets a
    failure with exactly one recorded step, the failed jwt step; the call
    creates no session, draws no identifier and signs nothing. *)
Theorem rejected_token_changes_nothing
  (clock : nat -> Z) (uuidv4 : nat -> string)
  (jwt_sign : Z -> JwtPayload.t -> string -> string -> Completion string)
  (jwt_verify : Z -> string -> string -> Completion JwtClaims.t)
  (config : Config) (request : AuthRequest.t) (w : World)
  (t message : string) :
  AuthRequest.method request = "jwt" ->
  AuthRequest.token request = Some t ->
  Js.truthy t = true ->
  jwt_verify (clock (S (ticks w))) t (jwtSecret config) = Throw message ->
  let out := authenticate clock uuidv4 jwt_sign jwt_verify config request w in
  AuthResult.success out.1 = false
  /\ AuthResult.sessionId out.1 = None
  /\ (exists step,
        AuthResult.authSteps out.1 = Some [step]
        /\ AuthStep.method step = "jwt" /\ AuthStep.success step = false)
  /\ sessions out.2 = sessions w
  /\ draws out.2 = draws w
  /\ signed out.2 = signed w.
Proof.
  intros Hm Ht Htruthy Hverify out. subst out.
  rewrite (authenticate_jwt_eq clock uuidv4 jwt_sign jwt_verify config
             request w t Hm Ht Htruthy).
  cbn zeta. rewrite AuthFacts.authenticateJWT_eq. cbn zeta.
  cbn [after_reading ticks]. rewrite Hverify.
  unfold fail_with, SessionManager.Date_now, mbind, M_bind, mret, M_ret.
  cbn. repeat (split; [reflexivity|]).
  split; [eexists; repeat split; reflexivity|]. repeat split; reflexivity.
Qed.

Lemma rejected_token_changes_nothing_witness :
  let request :=
    AuthRequest.mk "jwt" None (Some "invalid.jwt.token") None None None None
                   None in
  let out :=
    authenticate Scenario.clock_1ms Scenario.uuidv4 Scenario.jwt_sign
      Scenario.jwt_verify Scenario.config request (fresh_world 0 0) in
  AuthResult.success out.1 = false /\ sessions out.2 = ∅.
Proof.
  intros request out.
  destruct (rejected_token_changes_nothing Scenario.clock_1ms Scenario.uuidv4
              Scenario.jwt_sign Scenario.jwt_verify Scenario.config request
              (fresh_world 0 0) "invalid.jwt.token" "jwt malformed"
              eq_refl eq_refl eq_refl eq_refl) as (H1 & _ & _ & H4 & _).
  split; [exact H1|exact H4].
Defined.

Lemma next_id_truthy (clock : nat -> Z) (uuidv4 : nat -> string) (w : World) :
  Js.truthy (SessionManager.next_id clock uuidv4 w) = true.
Proof. reflexivity. Qed.

(** X10. The token that a successful API-key [authenticate] returns can
    be presented to the JWT tier: when [jwt.verify] decodes it to the
    user, permissions and session it was signed for and the session has
    not expired, [authenticate] succeeds at security level high with the
    same session identifier, expiry and permissions; it creates no
    session and signs nothing. *)
Theorem issued_token_reuses_session
  (clock : nat -> Z) (uuidv4 : nat -> string)
  (jwt_sign : Z -> JwtPayload.t -> string -> string -> Completion string)
  (jwt_verify : Z -> string -> string -> Completion JwtClaims.t)
  (config : Config) (request : AuthRequest.t) (w : World)
  (k token : string) :
  AuthRequest.method request = "api-key" ->
  AuthRequest.apiKey request = Some k ->
  well_formed_key k = true ->
  let user := api_key_user k (default [] (AuthRequest.permissions request)) in
  let sid := SessionManager.next_id clock uuidv4 (after_reading w) in
  let payload :=
    JwtPayload.mk (UserInfo.id user) (UserInfo.permissions user) sid None in
  jwt_sign (clock (S (S (S (ticks w))))) payload (jwtSecret config)
           (jwtExpiresIn config) = Normal token ->
  Js.truthy token = true ->
  let out := authenticate clock uuidv4 jwt_sign jwt_verify config request w in
  jwt_verify (clock (S (ticks out.2))) token (jwtSecret config)
    = Normal (JwtClaims.mk (UserInfo.id user) (Some (UserInfo.permissions user))
                (Some sid)) ->
  clock (S (S (ticks out.2))) <= clock (S (S (ticks w))) + sessionTimeout config ->
  let again :=
    authenticate clock uuidv4 jwt_sign jwt_verify config
      (AuthRequest.mk "jwt" None (Some token) None None None None None) out.2 in
  AuthResult.success again.1 = true
  /\ AuthResult.securityLevel again.1 = Some "high"
  /\ AuthResult.sessionId again.1 = AuthResult.sessionId out.1
  /\ AuthResult.expiresAt again.1 = AuthResult.expiresAt out.1
  /\ AuthResult.permissions again.1 = AuthResult.permissions out.1
  /\ dom (sessions again.2) = dom (sessions out.2)
  /\ draws again.2 = draws out.2
  /\ signed again.2 = signed out.2.
Proof.
  intros Hm Hk Hwf user sid payload Hsign Htoken out Hverify Hlive again.
  pose proof (api_key_success_eq clock uuidv4 jwt_sign jwt_verify config
                request w k token Hm Hk Hwf Hsign) as Heq.
  cbn zeta in Heq. fold user sid payload out in Heq.
  subst again. revert Hverify Hlive. rewrite Heq. cbn [fst snd ticks].
  intros Hverify Hlive.
  match goal with
  | |- context [authenticate _ _ _ _ _ _ ?w0] => set (w2 := w0)
  end.
  rewrite (authenticate_jwt_eq clock uuidv4 jwt_sign jwt_verify config
             (AuthRequest.mk "jwt" None (Some token) None None None None None)
             w2 token eq_refl eq_refl Htoken).
  cbn zeta. rewrite AuthFacts.authenticateJWT_eq. cbn zeta.
  cbn [after_reading ticks SessionManager.Date_now snd w2].
  change (S (6 + ticks w)%nat) with (7 + ticks w)%nat.
  change (S (6 + ticks w)%nat) with (7 + ticks w)%nat in Hverify.
  rewrite Hverify.
  cbn [JwtClaims.sessionId Js.truthy_opt default from_option id].
  rewrite (next_id_truthy clock uuidv4 (after_reading w) : Js.truthy sid = true).
  match goal with
  | |- context [SessionManager.validateSession clock sid ?x] => set (w1 := x)
  end.
  erewrite SessionFacts.validateSession_present
    by (subst w1 w2; cbn [sessions after_reading]; apply lookup_insert_eq).
  cbn zeta. cbn [Session.expiresAt w1 ticks after_reading].
  match goal with
  | |- context [Z.ltb ?a ?b] => destruct (Z.ltb_spec a b) as [Hlt|_]
  end.
  { exfalso. change (S (7 + ticks w)%nat) with (S (S (6 + ticks w)%nat)) in Hlt.
    lia. }
  cbn [fst snd AuthResult.success AuthResult.succeeded AuthResult.with_steps
       AuthResult.securityLevel AuthResult.sessionId AuthResult.expiresAt
       AuthResult.permissions Session.touch Session.id Session.expiresAt
       jwt_user UserInfo.permissions JwtClaims.permissions default from_option
       id after_readings sessions draws signed w1 w2 after_reading].
  repeat (split; [reflexivity|]).
  split; [|split; reflexivity].
  rewrite dom_insert_L. apply subseteq_union_1_L, singleton_subseteq_l.
  rewrite dom_insert_L. apply elem_of_union_l, elem_of_singleton. reflexivity.
Qed.

(** The scenario's key is used, and then the token it was given. *)
Lemma issued_token_reuses_session_witness :
  let out :=
    authenticate Scenario.clock_1ms Scenario.uuidv4 Scenario.jwt_sign
      Scenario.jwt_verify Scenario.config
      (Scenario.api_key_request Scenario.good_key) (fresh_world 0 0) in
  let again :=
    authenticate Scenario.clock_1ms Scenario.uuidv4 Scenario.jwt_sign
      Scenario.jwt_verify Scenario.config
      (AuthRequest.mk "jwt" None (Some "jwt.session_1_uuid-0") None None None
                      None None) out.2 in
  AuthResult.success again.1 = true
  /\ AuthResult.sessionId again.1 = AuthResult.sessionId out.1
  /\ draws again.2 = draws out.2.
Proof.
  intros out again.
  destruct (issued_token_reuses_session Scenario.clock_1ms Scenario.uuidv4
              Scenario.jwt_sign Scenario.jwt_verify Scenario.config
              (Scenario.api_key_request Scenario.good_key) (fresh_world 0 0)
              Scenario.good_key "jwt.session_1_uuid-0"
              eq_refl eq_refl eq_refl eq_refl eq_refl eq_refl)
    as (H1 & _ & H3 & _ & _ & _ & H7 & _).
  - vm_compute. discriminate.
  - split; [exact H1|]. split; [exact H3|exact H7].
Defined.

(** X11. The OAuth2 tier accepts every non-empty client id and client
    secret without looking at their values: when signing does not throw,
    the call succeeds at security level enterprise and grants basic,
    read, write and admin, whatever permissions the request asked for;
    the user id is oauth2_ followed by the last eight characters of the
    client id. *)
Theorem oauth2_grants_admin
  (clock : nat -> Z) (uuidv4 : nat -> string)
  (jwt_sign : Z -> JwtPayload.t -> string -> string -> Completion string)
  (jwt_verify : Z -> string -> string -> Completion JwtClaims.t)
  (config : Config) (request : AuthRequest.t) (w : World)
  (clientId clientSecret : string) :
  AuthRequest.method request = "oauth2" ->
  AuthRequest.clientId request = Some clientId ->
  AuthRequest.clientSecret request = Some clientSecret ->
  Js.truthy clientId = true ->
  Js.truthy clientSecret = true ->
  (forall now p, exists token,
      jwt_sign now p (jwtSecret config) (jwtExpiresIn config) = Normal token) ->
  let out := authenticate clock uuidv4 jwt_sign jwt_verify config request w in
  AuthResult.success out.1 = true
  /\ AuthResult.securityLevel out.1 = Some "enterprise"
  /\ AuthResult.permissions out.1 = Some ["basic"; "read"; "write"; "admin"]
  /\ (UserInfo.id <$> AuthResult.user out.1)
     = Some ("oauth2_" +:+ Js.slice_last 8 clientId)
  /\ (UserInfo.roles <$> AuthResult.user out.1)
     = Some ["oauth2_user"; "premium_user"].
Proof.
  destruct request as [method apiKey token cid csecret redirectUri
                         provider permissions].
  cbn [AuthRequest.method AuthRequest.clientId AuthRequest.clientSecret].
  intros -> -> -> Hid Hsecret Hsign. cbn zeta.
  AuthFacts.unfold_authenticate.
  cbn [String.eqb Ascii.eqb Bool.eqb andb Js.truthy_opt].
  rewrite Hid, Hsecret.
  cbn [andb default from_option id OAuth2Params.clientId
       OAuth2Params.clientSecret OAuth2Params.provider
       OAuth2Params.redirectUri].
  rewrite AuthFacts.truthy_length in Hid, Hsecret.
  rewrite Hid, Hsecret. cbn [andb negb].
  rewrite SessionFacts.createSession_eq. cbn zeta.
  cbn [ticks sessions draws signed].
  match goal with
  | |- context [jwt_sign ?now ?p _ _] => destruct (Hsign now p) as [tok ->]
  end.
  cbn. repeat split; reflexivity.
Qed.

Lemma oauth2_grants_admin_witness :
  let request :=
    AuthRequest.mk "oauth2" None None (Some "anything") (Some "whatever")
                   None None (Some ["basic"]) in
  AuthResult.permissions
    (authenticate Scenario.clock_1ms Scenario.uuidv4 Scenario.jwt_sign
       Scenario.jwt_verify Scenario.config request (fresh_world 0 0)).1
  = Some ["basic"; "read"; "write"; "admin"].
Proof.
  intros request.
  destruct (oauth2_grants_admin Scenario.clock_1ms Scenario.uuidv4
              Scenario.jwt_sign Scenario.jwt_verify Scenario.config request
              (fresh_world 0 0) "anything" "whatever"
              eq_refl eq_refl eq_refl eq_refl eq_refl) as (_ & _ & H & _).
  - intros now p. eexists. reflexivity.
  - exact H.
Defined.

(** What [refreshSession] of the service computes. *)
Lemma service_refresh_eq
  (clock : nat -> Z) (uuidv4 : nat -> string)
  (jwt_sign : Z -> JwtPayload.t -> string -> string -> Completion string)
  (config : Config) (sessionId : string) (w : World) :
  AuthServiceSession.refreshSession clock uuidv4 jwt_sign config sessionId w =
  match SessionManager.refreshSession clock uuidv4 (sessionManager config)
          sessionId w with
  | (None, w1) =>
      fail_with clock "SESSION_REFRESH_FAILED" "Unable to refresh session" w1
  | (Some newSession, w1) =>
      let payload :=
        JwtPayload.mk (Session.userId newSession)
          (Session.permissions newSession) (Session.id newSession) None in
      match jwt_sign (clock (ticks w1)) payload (jwtSecret config)
                     (jwtExpiresIn config) with
      | Normal token =>
          (AuthResult.succeeded (Session.id newSession) token
             (Session.expiresAt newSession) (Session.permissions newSession)
             (Session.user newSession),
           after_signing payload w1)
      | Throw message =>
          fail_with clock "SESSION_REFRESH_ERROR" message
                    (after_signing payload w1)
      end
  end.
Proof.
  unfold AuthServiceSession.refreshSession.
  unfold mbind at 1. unfold M_bind at 1.
  destruct (SessionManager.refreshSession clock uuidv4 (sessionManager config)
              sessionId w) as [[newSession|] w1]; [|reflexivity].
  unfold sign, SessionManager.Date_now, log_signed, mbind, M_bind, mret, M_ret.
  cbn zeta. cbn [sessions ticks draws signed]. unfold after_signing.
  destruct (jwt_sign (clock (ticks w1)) _ (jwtSecret config)
              (jwtExpiresIn config)); reflexivity.
Qed.

(** X12. [refreshSession] of the service, for a session that validates
    and a refresh that draws an unused identifier: the session manager
    has replaced the session before the token is signed. When signing
    returns a token, the result carries the new identifier, different
    from the old one, and that token, and the payload signed names the
    new session. When signing throws, the result is a failure with code
    SESSION_REFRESH_ERROR and no identifier, although the old session is
    gone from the table and the new one is in it. *)
Theorem service_refresh_outcome
  (clock : nat -> Z) (uuidv4 : nat -> string)
  (jwt_sign : Z -> JwtPayload.t -> string -> string -> Completion string)
  (config : Config) (sessionId : string) (w : World) (s : Session.t) :
  (SessionManager.validateSession clock sessionId w).1 = Some s ->
  unique_id clock uuidv4 (sessionManager config) (OpRefresh sessionId) w ->
  let rotated :=
    SessionManager.refreshSession clock uuidv4 (sessionManager config)
      sessionId w in
  let out := AuthServiceSession.refreshSession clock uuidv4 jwt_sign config
               sessionId w in
  exists newSession,
    rotated.1 = Some newSession
    /\ Session.id newSession <> sessionId
    /\ sessions out.2 = sessions rotated.2
    /\ sessions out.2 !! sessionId = None
    /\ sessions out.2 !! Session.id newSession = Some newSession
    /\ (exists payload,
          signed out.2 = payload :: signed w
          /\ JwtPayload.sessionId payload = Session.id newSession
          /\ (forall token,
                jwt_sign (clock (ticks rotated.2)) payload (jwtSecret config)
                         (jwtExpiresIn config) = Normal token ->
                AuthResult.success out.1 = true
                /\ AuthResult.sessionId out.1 = Some (Session.id newSession)
                /\ AuthResult.token out.1 = Some token)
          /\ (forall message,
                jwt_sign (clock (ticks rotated.2)) payload (jwtSecret config)
                         (jwtExpiresIn config) = Throw message ->
                AuthResult.success out.1 = false
                /\ AuthResult.sessionId out.1 = None
                /\ error_code out.1 = Some "SESSION_REFRESH_ERROR")).
Proof.
  intros Hv Hu rotated out.
  destruct (SessionFacts.refresh_new_id clock uuidv4 (sessionManager config)
              _ _ _ Hv Hu)
    as (newSession & Hr & Hne & _ & _ & Hold & Hnew).
  fold rotated in Hr, Hold, Hnew.
  assert (signed rotated.2 = signed w) as Hsigned.
  { subst rotated.
    rewrite (SessionFacts.refreshSession_Some clock uuidv4 _ _ _ _ Hv).
    cbn zeta. cbn [snd signed].
    apply SessionFacts.validateSession_Some in Hv as (s0 & _ & _ & _ & ->).
    reflexivity. }
  exists newSession. split; [exact Hr|]. split; [exact Hne|].
  subst out. rewrite service_refresh_eq. fold rotated.
  destruct rotated as [r w1]. cbn [fst snd] in *. subst r. cbn zeta.
  destruct (jwt_sign (clock (ticks w1))
              (JwtPayload.mk (Session.userId newSession)
                 (Session.permissions newSession) (Session.id newSession) None)
              (jwtSecret config) (jwtExpiresIn config)) as [tok|msg] eqn:Es;
    unfold fail_with, SessionManager.Date_now, mbind, M_bind, mret, M_ret;
    cbn [fst snd sessions signed after_signing ticks draws];
    (split; [reflexivity|]); (split; [exact Hold|]); (split; [exact Hnew|]);
    eexists; (split; [rewrite Hsigned; reflexivity|]);
    (split; [reflexivity|]); rewrite Es; split; intros x Hx;
    try discriminate Hx; repeat split; try reflexivity.
  injection Hx as <-. reflexivity.
Qed.

(** Alice's session is refreshed through a service whose signer throws. *)
Lemma service_refresh_outcome_witness :
  let w :=
    (SessionManager.createSession Scenario.clock_1ms Scenario.uuidv4
       (sessionManager Scenario.config) Scenario.alice ["basic"]
       (fresh_world 0 0)).2 in
  let out :=
    AuthServiceSession.refreshSession Scenario.clock_1ms Scenario.uuidv4
      Faulty.jwt_sign Scenario.config "session_0_uuid-0" w in
  AuthResult.success out.1 = false
  /\ sessions out.2 !! "session_0_uuid-0" = None.
Proof.
  intros w out.
  destruct (service_refresh_outcome Scenario.clock_1ms Scenario.uuidv4
              Faulty.jwt_sign Scenario.config "session_0_uuid-0" w
              (Session.mk "session_0_uuid-0" "alice" Scenario.alice 1 3600001 2
                 ["basic"] []))
    as (newSession & _ & _ & _ & Hold & _ & (payload & _ & _ & _ & Hthrow)).
  - vm_compute. reflexivity.
  - intros i Hi. vm_compute in Hi. injection Hi as <-. vm_compute. reflexivity.
  - fold out in Hold, Hthrow. split; [|exact Hold].
    destruct (Hthrow "secretOrPrivateKey must have a value" eq_refl) as [H _].
    exact H.
Defined.

End AuthExtras.

(** ** Further properties of the password utilities *)

Module PasswordExtras.

(** X13. In utils/password-hashing.ts a password is valid exactly when it
    has at least 8 characters, a lowercase letter, an uppercase letter, a
    digit, a symbol and no match of the repetition pattern; reaching 12
    characters plays no part, and the threshold of 5 points is implied by
    the empty feedback. *)
Theorem utils_valid_iff (password : string) :
  Strength.isValid (PasswordHashing.validatePasswordStrength password) = true
  <-> (forall c, c <> Len12 -> met c password = true).
Proof.
  unfold PasswordHashing.validatePasswordStrength.
  split.
  - intros H c Hc. revert H.
    destruct c; try congruence; cbn [met met_as_worded];
      PasswordFacts.strength_cases password; vm_compute; congruence.
  - intros H.
    pose proof (H Len8 ltac:(discriminate)) as H8.
    pose proof (H Lowercase ltac:(discriminate)) as Hl.
    pose proof (H Uppercase ltac:(discriminate)) as Hu.
    pose proof (H Digit ltac:(discriminate)) as Hd.
    pose proof (H Symbol ltac:(discriminate)) as Hs.
    pose proof (H NoRepeat ltac:(discriminate)) as Hr.
    cbn [met met_as_worded] in *.
    rewrite H8, Hl, Hu, Hd, Hs.
    apply Bool.negb_true_iff in Hr. rewrite Hr.
    destruct (12 <=? String.length password)%nat; reflexivity.
Qed.

(** X14. In [PasswordUtils] a password is valid exactly when it meets at
    least six of the seven criteria. Hence every password valid in
    utils/password-hashing.ts is valid in [PasswordUtils], and in both
    functions a valid password has at least 8 characters; but a password
    of 12 or more characters that misses exactly one other criterion (a
    whole character class, say) is valid in [PasswordUtils] and invalid
    in utils/password-hashing.ts. *)
Theorem validators_compared (password : string) :
  let pu := PasswordUtils.validatePasswordStrength password in
  let ph := PasswordHashing.validatePasswordStrength password in
  (Strength.isValid pu = true <-> 6 <= points met password)
  /\ (Strength.isValid ph = true -> Strength.isValid pu = true)
  /\ (Strength.isValid pu = true -> (8 <= String.length password)%nat)
  /\ (Strength.isValid ph = true -> (8 <= String.length password)%nat)
  /\ ((12 <= String.length password)%nat ->
      points met password = 6 ->
      Strength.isValid pu = true /\ Strength.isValid ph = false).
Proof.
  cbn zeta.
  assert ((8 <=? String.length password)%nat = true ->
          (8 <= String.length password)%nat) as H8 by apply Nat.leb_le.
  assert ((12 <= String.length password)%nat ->
          (12 <=? String.length password)%nat = true) as H12 by apply Nat.leb_le.
  revert H8 H12.
  unfold PasswordUtils.validatePasswordStrength,
    PasswordHashing.validatePasswordStrength, points, criteria.
  cbn [filter list_filter met met_as_worded].
  PasswordFacts.strength_cases password; intros H8 H12; vm_compute;
    repeat split; intros; try congruence; try (apply H8; reflexivity);
    try (exfalso; match goal with
                  | Hx : (12 <= _)%nat |- _ => specialize (H12 Hx); discriminate
                  end).
Qed.

Lemma all_chars_app p a b :
  all_chars p (a +:+ b) = all_chars p a && all_chars p b.
Proof.
  induction a as [|c a IH]; [reflexivity|].
  simpl. rewrite IH. apply Bool.andb_assoc.
Qed.

Lemma length_app (a b : string) :
  String.length (a +:+ b) = (String.length a + String.length b)%nat.
Proof. induction a as [|c a IH]; [reflexivity|]. simpl. rewrite IH. reflexivity. Qed.

(** Whatever the byte, the generator appends one character, and that
    character is in the alphabet. *)
Lemma charset_at_byte (b : ascii) :
  String.length (SecurePassword.charset_at (SecurePassword.index_of_byte b)) = 1%nat
  /\ all_chars in_charset
       (SecurePassword.charset_at (SecurePassword.index_of_byte b)) = true.
Proof.
  destruct b as [[] [] [] [] [] [] [] []]; vm_compute; split; reflexivity.
Qed.

Lemma loop_spec array count : forall i password,
  (i + count <= length array)%nat ->
  String.length (SecurePassword.loop array i count password)
  = (String.length password + count)%nat
  /\ all_chars in_charset (SecurePassword.loop array i count password)
     = all_chars in_charset password.
Proof.
  induction count as [|count IH]; intros i password Hi.
  - cbn. split; [lia|reflexivity].
  - cbn [SecurePassword.loop].
    destruct (IH (S i) (password +:+ SecurePassword.appended array i))
      as [Hl Ha]; [lia|].
    unfold SecurePassword.appended in *.
    destruct (lookup_lt_is_Some_2 array i) as [b Hb]; [lia|].
    rewrite Hb in *.
    destruct (charset_at_byte b) as [H1 H2].
    rewrite Hl, Ha, length_app, all_chars_app, H1, H2.
    split; [lia|apply Bool.andb_true_r].
Qed.

(** One more round appends what that round appends. *)
Lemma loop_last array count : forall i password,
  SecurePassword.loop array i (S count) password
  = SecurePassword.loop array i count password
    +:+ SecurePassword.appended array (i + count).
Proof.
  induction count as [|count IH]; intros i password.
  - cbn [SecurePassword.loop]. rewrite Nat.add_0_r. reflexivity.
  - change (SecurePassword.loop array i (S (S count)) password)
      with (SecurePassword.loop array (S i) (S count)
              (password +:+ SecurePassword.appended array i)).
    rewrite IH. cbn [SecurePassword.loop].
    replace (S i + count)%nat with (i + S count)%nat by lia. reflexivity.
Qed.

(** The array of a number whose integer part is in range has that many
    bytes. *)
Lemma array_length_whole (max_length : Z) (length : JsNumber.t) (size : Z) :
  65536 <= max_length ->
  match length with
  | JsNumber.Int n => n = size
  | JsNumber.Frac floor => floor = size
  | _ => False
  end ->
  0 <= size <= 65536 ->
  SecurePassword.array_length max_length length = Normal size.
Proof.
  intros Hmax Hl Hs.
  destruct length as [n|floor| | |]; try contradiction; subst;
    unfold SecurePassword.array_length.
  - destruct (Z.ltb_spec size 0); [lia|].
    destruct (Z.ltb_spec max_length size); [lia|]. reflexivity.
  - destruct (Z.ltb_spec size 0); [lia|].
    destruct (Z.ltb_spec size 0); [lia|].
    destruct (Z.ltb_spec max_length size); [lia|]. reflexivity.
Qed.

(** X15. [generateSecurePassword(length)], whatever bytes the random
    source delivers, in an engine that allocates arrays of 65536 bytes:
    for a whole number from 0 to 65536 it returns a string of exactly
    that many characters, each of them a letter, a digit or one of the
    eight symbols of the generator's alphabet, and without an argument
    one of 16 such characters; for a negative whole number, and for one
    above 65536, it throws; for a number between two whole numbers from
    0 to 65536 it returns as many characters of the alphabet as the
    whole number below it says, followed by the text undefined; for NaN
    it returns the empty string. *)
Theorem generated_password_shape
  (max_length : Z) (random_byte : nat -> ascii) :
  65536 <= max_length ->
  let generate := SecurePassword.generateSecurePassword max_length random_byte in
  (forall n, 0 <= n <= 65536 ->
     exists s,
       generate (Some (JsNumber.Int n)) = Normal s
       /\ String.length s = Z.to_nat n
       /\ all_chars in_charset s = true)
  /\ (exists s,
        generate None = Normal s
        /\ String.length s = 16%nat
        /\ all_chars in_charset s = true)
  /\ (forall n, n < 0 \/ 65536 < n ->
        exists message, generate (Some (JsNumber.Int n)) = Throw message)
  /\ (forall floor, 0 <= floor <= 65536 ->
        exists s,
          generate (Some (JsNumber.Frac floor)) = Normal (s +:+ "undefined")
          /\ String.length s = Z.to_nat floor
          /\ all_chars in_charset s = true)
  /\ generate (Some JsNumber.NaN) = Normal EmptyString.
Proof.
  intros Hmax generate.
  assert (forall n, 0 <= n <= 65536 ->
            exists s,
              generate (Some (JsNumber.Int n)) = Normal s
              /\ String.length s = Z.to_nat n
              /\ all_chars in_charset s = true) as Hwhole.
  { intros n Hn. unfold generate, SecurePassword.generateSecurePassword.
    cbn [default from_option id].
    rewrite (array_length_whole max_length (JsNumber.Int n) n Hmax eq_refl Hn).
    destruct (Z.ltb_spec 65536 n); [lia|].
    eexists. split; [reflexivity|]. cbn [SecurePassword.rounds].
    destruct (loop_spec (map random_byte (seq 0 (Z.to_nat n))) (Z.to_nat n)
                0%nat EmptyString) as [Hl Ha].
    { rewrite length_map, length_seq. lia. }
    rewrite Hl, Ha. split; reflexivity. }
  split; [exact Hwhole|]. split; [|split; [|split]].
  - destruct (Hwhole 16) as (s & Hs & Hl & Ha); [lia|].
    exists s. split; [exact Hs|]. split; [exact Hl|exact Ha].
  - intros n Hn. unfold generate, SecurePassword.generateSecurePassword.
    cbn [default from_option id].
    destruct (SecurePassword.array_length max_length (JsNumber.Int n))
      as [size|message] eqn:E; [|eexists; reflexivity].
    cbn in E.
    destruct ((n <? 0) || (max_length <? n)) eqn:En; [discriminate|].
    injection E as <-.
    apply Bool.orb_false_iff in En as [En _]. apply Z.ltb_ge in En.
    destruct (Z.ltb_spec 65536 n); [|lia]. eexists. reflexivity.
  - intros floor Hf. unfold generate, SecurePassword.generateSecurePassword.
    cbn [default from_option id].
    rewrite (array_length_whole max_length (JsNumber.Frac floor) floor Hmax
               eq_refl Hf).
    destruct (Z.ltb_spec 65536 floor); [lia|].
    cbn [SecurePassword.rounds].
    replace (Z.to_nat (floor + 1)) with (S (Z.to_nat floor)) by lia.
    rewrite loop_last. cbn [Nat.add].
    unfold SecurePassword.appended.
    rewrite (lookup_ge_None_2 (map random_byte (seq 0 (Z.to_nat floor))))
      by (rewrite length_map, length_seq; lia).
    eexists. split; [reflexivity|].
    destruct (loop_spec (map random_byte (seq 0 (Z.to_nat floor)))
                (Z.to_nat floor) 0%nat EmptyString) as [Hl Ha].
    { rewrite length_map, length_seq. lia. }
    rewrite Hl, Ha. split; reflexivity.
  - unfold generate, SecurePassword.generateSecurePassword.
    cbn [default from_option id SecurePassword.array_length].
    destruct (Z.ltb_spec 65536 0); [lia|]. reflexivity.
Qed.

(** Twelve characters from bytes that count up, in an engine with arrays
    of up to 2^32 - 1 bytes; and a request for 65537. *)
Lemma generated_password_shape_witness :
  let generate :=
    SecurePassword.generateSecurePassword (2 ^ 32 - 1) ascii_of_nat in
  generate (Some (JsNumber.Int 12)) = Normal "ABCDEFGHIJKL"
  /\ (exists message, generate (Some (JsNumber.Int 65537)) = Throw message)
  /\ generate (Some (JsNumber.Frac 2)) = Normal "ABundefined".
Proof.
  intros generate.
  destruct (generated_password_shape (2 ^ 32 - 1) ascii_of_nat)
    as (_ & _ & Hthrow & _); [vm_compute; discriminate|].
  split; [reflexivity|]. split; [|reflexivity].
  apply Hthrow. right. reflexivity.
Defined.

(** X16. The generator does not draw its characters uniformly: of the
    256 values of a random byte, four are mapped to each of the first 46
    characters of the alphabet (A to t) and three to each of the other
    24. *)
Theorem generated_characters_are_biased (i : nat) :
  (i < String.length SecurePassword.charset)%nat ->
  length (filter (fun b => SecurePassword.index_of_byte b = i)
                 SecurePassword.all_bytes)
  = if (i <? 46)%nat then 4%nat else 3%nat.
Proof.
  change (String.length SecurePassword.charset) with 70%nat. intros Hi.
  do 70 (destruct i as [|i]; [vm_compute; reflexivity|]). lia.
Qed.

Lemma generated_characters_are_biased_witness :
  length (filter (fun b => SecurePassword.index_of_byte b = 0%nat)
                 SecurePassword.all_bytes) = 4%nat
  /\ length (filter (fun b => SecurePassword.index_of_byte b = 69%nat)
                    SecurePassword.all_bytes) = 3%nat.
Proof.
  split.
  - apply (generated_characters_are_biased 0). vm_compute. lia.
  - apply (generated_characters_are_biased 69). vm_compute. lia.
Defined.

End PasswordExtras.

(** ** Regular expressions and the email pattern *)

Module RegexFacts.

Import Regex.

Lemma app_nil_l (s : string) : EmptyString +:+ s = s.
Proof. reflexivity. Qed.

Lemma app_cons (c : ascii) (a b : string) :
  String c a +:+ b = String c (a +:+ b).
Proof. reflexivity. Qed.

Lemma app_nil_inv (a b : string) :
  a +:+ b = EmptyString -> a = EmptyString /\ b = EmptyString.
Proof. destruct a; [auto|discriminate]. Qed.

Lemma nullable_lang r : nullable r = true <-> lang r EmptyString.
Proof.
  split.
  - induction r; cbn; intros H; try discriminate.
    + constructor.
    + apply Bool.andb_true_iff in H as [Ha Hb].
      change EmptyString with (EmptyString +:+ EmptyString).
      constructor; auto.
    + apply Bool.orb_true_iff in H as [Ha|Hb];
        [apply lang_alt_l|apply lang_alt_r]; auto.
    + constructor.
  - intros H. remember EmptyString as s eqn:Es.
    induction H; cbn; try reflexivity; try discriminate.
    + apply app_nil_inv in Es as [-> ->].
      rewrite IHlang1, IHlang2; reflexivity.
    + rewrite IHlang by assumption. reflexivity.
    + rewrite IHlang by assumption. apply Bool.orb_true_r.
Qed.

Lemma deriv_sound r : forall c s, lang (deriv c r) s -> lang r (String c s).
Proof.
  induction r as [| |p|a IHa b IHb|a IHa b IHb|a IHa]; intros c s H; cbn in H.
  - inversion H.
  - inversion H.
  - destruct (p c) eqn:Ep; inversion H; subst. constructor. exact Ep.
  - assert (forall s0, lang (Cat (deriv c a) b) s0 -> lang (Cat a b) (String c s0))
      as Hcat.
    { intros s0 H0. inversion H0; subst.
      change (String c (s1 +:+ s2)) with (String c s1 +:+ s2).
      constructor; auto. }
    destruct (nullable a) eqn:En.
    + inversion H; subst; [auto|].
      change (String c s) with (EmptyString +:+ String c s).
      constructor; [apply nullable_lang; exact En|auto].
    + auto.
  - inversion H; subst; [apply lang_alt_l|apply lang_alt_r]; auto.
  - inversion H; subst.
    change (String c (s1 +:+ s2)) with (String c s1 +:+ s2).
    constructor; auto.
Qed.

Lemma deriv_complete r s' :
  lang r s' -> forall c s, s' = String c s -> lang (deriv c r) s.
Proof.
  induction 1 as [|p c0 Hp|a b s1 s2 H1 IH1 H2 IH2|a b s0 H0 IH0|a b s0 H0 IH0
                  |a|a s1 s2 H1 IH1 H2 IH2]; intros c s Es; cbn.
  - discriminate.
  - injection Es as -> <-. rewrite Hp. constructor.
  - destruct s1 as [|c1 s1'].
    + rewrite app_nil_l in Es. subst s2.
      assert (nullable a = true) as -> by (apply nullable_lang; exact H1).
      apply lang_alt_r. apply IH2. reflexivity.
    + rewrite app_cons in Es. injection Es as -> <-.
      assert (lang (Cat (deriv c a) b) (s1' +:+ s2)) as Hc
        by (constructor; [apply IH1; reflexivity|exact H2]).
      destruct (nullable a); [apply lang_alt_l|]; exact Hc.
  - apply lang_alt_l. apply IH0. exact Es.
  - apply lang_alt_r. apply IH0. exact Es.
  - discriminate.
  - destruct s1 as [|c1 s1'].
    + rewrite app_nil_l in Es. apply IH2. exact Es.
    + rewrite app_cons in Es. injection Es as -> <-.
      constructor; [apply IH1; reflexivity|exact H2].
Qed.

(** The matcher decides the language. *)
Lemma test_lang s : forall r, test r s = true <-> lang r s.
Proof.
  induction s as [|c s IH]; intros r; cbn.
  - apply nullable_lang.
  - rewrite IH. split; [apply deriv_sound|].
    intros H. eapply deriv_complete; [exact H|reflexivity].
Qed.

Lemma lang_star_cls p s : lang (Star (Cls p)) s <-> all_chars p s = true.
Proof.
  split.
  - intros H. remember (Star (Cls p)) as r eqn:Er.
    induction H; try discriminate; [reflexivity|].
    injection Er as ->. inversion H; subst.
    rewrite app_cons, app_nil_l. cbn [all_chars].
    rewrite IHlang2 by reflexivity.
    match goal with Hp : p _ = true |- _ => rewrite Hp end. reflexivity.
  - induction s as [|c s IH]; cbn; intros H; [constructor|].
    apply Bool.andb_true_iff in H as [Hc Hs].
    change (String c s) with (String c EmptyString +:+ s).
    constructor; [constructor; exact Hc|auto].
Qed.

Lemma lang_plus_cls p s :
  lang (Plus (Cls p)) s <-> s <> EmptyString /\ all_chars p s = true.
Proof.
  unfold Plus. split.
  - intros H. inversion H; subst. inversion H2; subst.
    rewrite app_cons, app_nil_l. cbn [all_chars].
    match goal with Hs : lang (Star _) _ |- _ => apply lang_star_cls in Hs; rewrite Hs end.
    match goal with Hp : p _ = true |- _ => rewrite Hp end.
    split; [discriminate|reflexivity].
  - intros [Hne Hall]. destruct s as [|c s]; [congruence|].
    cbn in Hall. apply Bool.andb_true_iff in Hall as [Hc Hs].
    change (String c s) with (String c EmptyString +:+ s).
    constructor; [constructor; exact Hc|apply lang_star_cls; exact Hs].
Qed.

Lemma lang_chr c s : lang (Chr c) s <-> s = String c EmptyString.
Proof.
  unfold Chr. split.
  - intros H. inversion H; subst.
    match goal with Hp : Ascii.eqb _ _ = true |- _ => apply Ascii.eqb_eq in Hp; subst end.
    reflexivity.
  - intros ->. constructor. apply Ascii.eqb_refl.
Qed.

Lemma lang_cat a b s :
  lang (Cat a b) s <-> exists s1 s2, s = s1 +:+ s2 /\ lang a s1 /\ lang b s2.
Proof.
  split.
  - intros H. inversion H; subst. eauto.
  - intros (s1 & s2 & -> & H1 & H2). constructor; assumption.
Qed.

Lemma count_char_app c (a b : string) :
  JsText.count_char c (a +:+ b)
  = (JsText.count_char c a + JsText.count_char c b)%nat.
Proof.
  induction a as [|d a IH]; [reflexivity|].
  rewrite app_cons. cbn [JsText.count_char]. rewrite IH. lia.
Qed.

Lemma test_class_app p (a b : string) :
  Js.test_class p (a +:+ b) = Js.test_class p a || Js.test_class p b.
Proof.
  induction a as [|d a IH]; [reflexivity|].
  rewrite app_cons. cbn [Js.test_class]. rewrite IH. apply Bool.orb_assoc.
Qed.

Lemma word_plain w :
  all_chars Email.plain w = true ->
  JsText.count_char "@" w = 0%nat /\ Js.test_class JsText.space w = false.
Proof.
  induction w as [|c w IH]; [split; reflexivity|].
  cbn [all_chars JsText.count_char Js.test_class]. intros H.
  apply Bool.andb_true_iff in H as [Hc Hw]. destruct (IH Hw) as [-> ->].
  unfold Email.plain in Hc. apply Bool.negb_true_iff in Hc.
  apply Bool.orb_false_iff in Hc as [Hs Ha]. rewrite Hs.
  rewrite Ascii.eqb_sym, Ha. split; reflexivity.
Qed.

(** X17. The email pattern of the signup, login and forgot-password
    endpoints accepts exactly the strings of the form local@domain.rest
    in which local, domain and rest are non-empty and contain neither
    white space nor an at sign (dots are allowed in all three). An
    accepted string therefore holds no white space and exactly one at
    sign. *)
Theorem email_accepted_iff (s : string) :
  (test Email.emailRegex s = true
   <-> exists l d r,
         s = l +:+ "@" +:+ d +:+ "." +:+ r
         /\ Email.word l /\ Email.word d /\ Email.word r)
  /\ (test Email.emailRegex s = true ->
      Js.test_class JsText.space s = false
      /\ JsText.count_char "@" s = 1%nat).
Proof.
  assert (test Email.emailRegex s = true
          <-> exists l d r,
                s = l +:+ "@" +:+ d +:+ "." +:+ r
                /\ Email.word l /\ Email.word d /\ Email.word r) as Hiff.
  { rewrite test_lang. unfold Email.emailRegex, Email.word. split.
    - intros H.
      apply lang_cat in H as (l & s1 & -> & Hl & H).
      apply lang_cat in H as (a & s2 & -> & Ha & H).
      apply lang_cat in H as (d & s3 & -> & Hd & H).
      apply lang_cat in H as (p & r & -> & Hp & Hr).
      apply lang_chr in Ha, Hp. subst a p.
      apply lang_plus_cls in Hl, Hd, Hr.
      exists l, d, r. auto.
    - intros (l & d & r & -> & Hl & Hd & Hr).
      apply lang_plus_cls in Hl, Hd, Hr.
      apply lang_cat. exists l, ("@" +:+ d +:+ "." +:+ r).
      split; [reflexivity|]. split; [exact Hl|].
      apply lang_cat. exists "@", (d +:+ "." +:+ r).
      split; [reflexivity|]. split; [apply lang_chr; reflexivity|].
      apply lang_cat. exists d, ("." +:+ r).
      split; [reflexivity|]. split; [exact Hd|].
      apply lang_cat. exists ".", r.
      split; [reflexivity|]. split; [apply lang_chr; reflexivity|exact Hr]. }
  split; [exact Hiff|].
  intros H. apply Hiff in H as (l & d & r & -> & [_ Hl] & [_ Hd] & [_ Hr]).
  apply word_plain in Hl as [Hl1 Hl2], Hd as [Hd1 Hd2], Hr as [Hr1 Hr2].
  rewrite !test_class_app, !count_char_app, Hl1, Hl2, Hd1, Hd2, Hr1, Hr2.
  split; reflexivity.
Qed.

End RegexFacts.

(* ===================================================================== *)
(** ** The signup and login endpoints                                     *)
(* ===================================================================== *)

Module EndpointFacts.

Import JsText.

Lemma lower_char_idem c : lower_char (lower_char c) = lower_char c.
Proof. destruct c as [[] [] [] [] [] [] [] []]; reflexivity. Qed.

Lemma toLowerCase_idem s : toLowerCase (toLowerCase s) = toLowerCase s.
Proof.
  induction s as [|c s IH]; [reflexivity|].
  cbn [toLowerCase]. rewrite lower_char_idem, IH. reflexivity.
Qed.

Lemma toLowerCase_length s : String.length (toLowerCase s) = String.length s.
Proof. induction s as [|c s IH]; [reflexivity|]. cbn. rewrite IH. reflexivity. Qed.

Lemma toLowerCase_truthy s : Js.truthy (toLowerCase s) = Js.truthy s.
Proof. destruct s; reflexivity. Qed.

Lemma deriv_stable f r c :
  class_stable f r -> Regex.deriv (f c) r = Regex.deriv c r.
Proof.
  induction r as [| |p|a IHa b IHb|a IHa b IHb|a IHa]; cbn; intros H.
  - reflexivity.
  - reflexivity.
  - rewrite H. reflexivity.
  - destruct H as [Ha Hb]. rewrite IHa, IHb by assumption. reflexivity.
  - destruct H as [Ha Hb]. rewrite IHa, IHb by assumption. reflexivity.
  - rewrite IHa by assumption. reflexivity.
Qed.

Lemma class_stable_deriv f r c :
  class_stable f r -> class_stable f (Regex.deriv c r).
Proof.
  induction r as [| |p|a IHa b IHb|a IHa b IHb|a IHa]; cbn; intros H.
  - exact I.
  - exact I.
  - destruct (p c); exact I.
  - destruct H as [Ha Hb]. destruct (Regex.nullable a); cbn; auto.
  - destruct H as [Ha Hb]. auto.
  - auto.
Qed.

Lemma test_toLowerCase s : forall r,
  class_stable lower_char r ->
  Regex.test r (toLowerCase s) = Regex.test r s.
Proof.
  induction s as [|c s IH]; intros r Hr; [reflexivity|].
  cbn [toLowerCase Regex.test].
  rewrite deriv_stable by assumption.
  apply IH, class_stable_deriv, Hr.
Qed.

Lemma emailRegex_stable : class_stable lower_char Email.emailRegex.
Proof.
  assert (forall c, Email.plain (lower_char c) = Email.plain c) as Hp.
  { intros [[] [] [] [] [] [] [] []]; reflexivity. }
  assert (forall c, Ascii.eqb "@" (lower_char c) = Ascii.eqb "@" c) as Ha.
  { intros [[] [] [] [] [] [] [] []]; reflexivity. }
  assert (forall c, Ascii.eqb "." (lower_char c) = Ascii.eqb "." c) as Hd.
  { intros [[] [] [] [] [] [] [] []]; reflexivity. }
  cbn. tauto.
Qed.

Lemma emailRegex_toLowerCase s :
  Regex.test Email.emailRegex (toLowerCase s) = Regex.test Email.emailRegex s.
Proof. apply test_toLowerCase, emailRegex_stable. Qed.

Lemma find_by_email_toLowerCase email users :
  find_by_email (toLowerCase email) users = find_by_email email users.
Proof. unfold find_by_email. rewrite toLowerCase_idem. reflexivity. Qed.

Lemma find_by_email_None email users :
  find_by_email email users = None
  <-> ~ In (toLowerCase email) (email_keys users).
Proof.
  unfold find_by_email, email_keys.
  induction users as [|u users IH]; cbn.
  - split; [tauto|reflexivity].
  - destruct (String.eqb_spec (toLowerCase (Account.email u))
                (toLowerCase email)) as [He|He].
    + split; [discriminate|]. intros H. contradict H. left. exact He.
    + rewrite IH. tauto.
Qed.

Lemma find_by_email_Some email users u :
  find_by_email email users = Some u ->
  In u users /\ toLowerCase (Account.email u) = toLowerCase email.
Proof.
  unfold find_by_email. intros H. apply find_some in H as [Hin He].
  split; [exact Hin|]. apply String.eqb_eq, He.
Qed.

Lemma email_keys_app a b : email_keys (a ++ b) = (email_keys a ++ email_keys b)%list.
Proof. apply map_app. Qed.



(** The checks of the signup endpoint, one after the other; [tac] closes
    the goals of the requests that are turned away. *)
Ltac signup_checks b users tac :=
  unfold signup_check;
  destruct (SignupBody.email b) as [email|] eqn:He; [|tac];
  destruct (SignupBody.password b) as [password|] eqn:Hp;
    [|cbn [Js.truthy_opt negb]; rewrite ?orb_true_r; tac];
  destruct (SignupBody.name b) as [name|] eqn:Hn;
    [|cbn [Js.truthy_opt negb]; rewrite ?orb_true_r; tac];
  cbn [Js.truthy_opt default from_option id];
  destruct (Js.truthy email); [|tac];
  destruct (Js.truthy password); [|tac];
  destruct (Js.truthy name); [|tac];
  cbn [negb orb];
  destruct (SignupBody.acceptTerms b) eqn:Ht; [|tac];
  cbn [negb];
  destruct (Regex.test Email.emailRegex email) eqn:Hr; [|tac];
  cbn [negb];
  destruct (Nat.ltb_spec (String.length name) 2) as [Hlo|Hlo]; [tac|];
  destruct (Nat.ltb_spec 50 (String.length name)) as [Hhi|Hhi]; [tac|];
  cbn [orb];
  destruct (Strength.isValid
              (PasswordHashing.validatePasswordStrength password)) eqn:Hv;
    [|tac];
  cbn [negb];
  destruct (find_by_email email users) eqn:Hf; [tac|].

Lemma trimStart_length s : (String.length (trimStart s) <= String.length s)%nat.
Proof.
  induction s as [|c s IH]; cbn; [lia|]. destruct (space c); cbn; lia.
Qed.

Lemma trimEnd_length s : (String.length (trimEnd s) <= String.length s)%nat.
Proof.
  induction s as [|c s IH]; cbn; [lia|].
  destruct (trimEnd s); [destruct (space c)|]; cbn in *; lia.
Qed.

Lemma trim_length s : (String.length (trim s) <= String.length s)%nat.
Proof.
  unfold trim. pose proof (trimEnd_length (trimStart s)).
  pose proof (trimStart_length s). lia.
Qed.

(** A request that waits for its hash has passed every check, against
    the array as it was when it arrived. *)
Lemma signup_check_waiting body users p :
  signup_check body users = inr p ->
  exists b,
    body = Some b
    /\ SignupBody.email b = Some (Pending.email p)
    /\ SignupBody.password b = Some (Pending.password p)
    /\ SignupBody.name b = Some (Pending.name p)
    /\ SignupBody.acceptTerms b = true
    /\ Regex.test Email.emailRegex (Pending.email p) = true
    /\ (2 <= String.length (Pending.name p) <= 50)%nat
    /\ Strength.isValid
         (PasswordHashing.validatePasswordStrength (Pending.password p)) = true
    /\ find_by_email (Pending.email p) users = None.
Proof.
  destruct body as [b|]; [|discriminate].
  signup_checks b users ltac:(discriminate).
  intros [= <-]. exists b. cbn.
  repeat (split; [first [reflexivity | assumption | lia]|]). assumption.
Qed.

(** The checks answer 400 or 409 when they answer. *)
Lemma signup_check_refused body users response :
  signup_check body users = inl response ->
  (Response.status response = 400 \/ Response.status response = 409)
  /\ Response.success response = false.
Proof.
  destruct body as [b|]; [|intros [= <-]; auto].
  signup_checks b users ltac:(intros [= <-]; auto).
  discriminate.
Qed.

(** A request that has passed the checks against one array passes them
    against another unless that one holds its email. *)
Lemma signup_check_other_array body users users' p :
  signup_check body users = inr p ->
  signup_check body users' =
  match find_by_email (Pending.email p) users' with
  | Some _ =>
      inl (Response.failure 409 "An account with this email already exists")
  | None => inr p
  end.
Proof.
  destruct body as [b|]; [|discriminate].
  signup_checks b users ltac:(discriminate).
  intros [= <-]. reflexivity.
Qed.

Section Signup.

Variable clock : nat -> Z.
Variable randomUUID : nat -> string.
Variable argon2 : Argon2.Lib.
Variable encode : TokenPayload.t -> Completion string.

(** The account that a waiting request stores when it resumes. *)
Lemma signup_resume_store p salt st :
  let out := signup_resume clock randomUUID argon2 encode p salt st in
  ((exists message,
       PasswordHashing.hashPassword argon2 salt (Pending.password p)
       = Throw message)
   /\ out.2 = st /\ Response.status out.1 = 500)
  \/ exists hashed,
       PasswordHashing.hashPassword argon2 salt (Pending.password p)
       = Normal hashed
       /\ (Response.status out.1 = 201 \/ Response.status out.1 = 500)
       /\ mockUsers out.2 =
          (mockUsers st ++
           [Account.mk (randomUUID (site_draws st))
              (toLowerCase (Pending.email p)) hashed (trim (Pending.name p))
              ["basic"; "chat"] (clock (site_ticks st)) None (Some false)])%list.
Proof.
  cbn zeta. unfold signup_resume.
  destruct (PasswordHashing.hashPassword argon2 salt (Pending.password p))
    as [hashed|message]; [|left; eauto].
  cbn zeta. right. exists hashed. split; [reflexivity|].
  match goal with
  | |- context [encode ?t] => destruct (encode t)
  end; split; first [reflexivity | left; reflexivity | right; reflexivity].
Qed.

(** X18. What the signup endpoint answers and what it stores. The checks
    answer 400 or 409, or the request waits for its hash; a request that
    waits has all fields, accepted terms, an email that matches the
    pattern, a name of 2 to 50 characters and a password the strength
    check accepts, and no account stored when the checks ran has its
    email. The checks change nothing. When the request resumes, it is
    answered 201 or 500; with a 201 exactly one account has been
    appended to the array as it is then: it holds the lower-cased email,
    the trimmed name and the hash, and the permissions basic and chat. *)
Theorem signup_outcomes
  (body : option SignupBody.t) (users : list Account.t) :
  match signup_check body users with
  | inl response =>
      (Response.status response = 400 \/ Response.status response = 409)
      /\ Response.success response = false
  | inr p =>
      exists b,
        body = Some b
        /\ SignupBody.email b = Some (Pending.email p)
        /\ SignupBody.password b = Some (Pending.password p)
        /\ SignupBody.name b = Some (Pending.name p)
        /\ SignupBody.acceptTerms b = true
        /\ Regex.test Email.emailRegex (Pending.email p) = true
        /\ (2 <= String.length (Pending.name p) <= 50)%nat
        /\ Strength.isValid
             (PasswordHashing.validatePasswordStrength (Pending.password p))
           = true
        /\ find_by_email (Pending.email p) users = None
        /\ forall salt st,
             let out := signup_resume clock randomUUID argon2 encode p salt st in
             (Response.status out.1 = 201
              /\ Response.success out.1 = true
              /\ exists hashed,
                   PasswordHashing.hashPassword argon2 salt (Pending.password p)
                   = Normal hashed
                   /\ mockUsers out.2 =
                      (mockUsers st ++
                       [Account.mk (randomUUID (site_draws st))
                          (toLowerCase (Pending.email p)) hashed
                          (trim (Pending.name p)) ["basic"; "chat"]
                          (clock (site_ticks st)) None (Some false)])%list)
             \/ (Response.status out.1 = 500
                 /\ Response.success out.1 = false
                 /\ Response.error out.1 = Some "Internal server error")
  end.
Proof.
  destruct (signup_check body users) as [response|p] eqn:E.
  - destruct body as [b|]; [|injection E as <-; auto].
    revert E. signup_checks b users ltac:(intros [= <-]; auto).
    discriminate.
  - destruct (signup_check_waiting _ _ _ E)
      as (b & Hb & He & Hp & Hn & Ht & Hr & Hlen & Hv & Hf).
    exists b. repeat (split; [assumption|]).
    intros salt st. cbn zeta. unfold signup_resume.
    destruct (PasswordHashing.hashPassword argon2 salt (Pending.password p))
      as [hashed|]; [|right; auto].
    cbn zeta.
    match goal with
    | |- context [encode ?t] => destruct (encode t)
    end; [|right; auto].
    left. split; [reflexivity|]. split; [reflexivity|].
    exists hashed. split; reflexivity.
Qed.

(** A request served on its own either leaves the array as it was or
    appends the account it describes, whose email no stored account
    has. *)
Lemma signup_store (body : option SignupBody.t) (salt : string) (st : Site) :
  let out := signup_POST clock randomUUID argon2 encode body salt st in
  out.2 = st
  \/ exists p hashed,
       signup_check body (mockUsers st) = inr p
       /\ mockUsers out.2 =
          (mockUsers st ++
           [Account.mk (randomUUID (site_draws st))
              (toLowerCase (Pending.email p)) hashed (trim (Pending.name p))
              ["basic"; "chat"] (clock (site_ticks st)) None (Some false)])%list.
Proof.
  cbn zeta. unfold signup_POST.
  destruct (signup_check body (mockUsers st)) as [response|p] eqn:E;
    [left; reflexivity|].
  destruct (signup_resume_store p salt st)
    as [(_ & H & _)|(hashed & _ & _ & H)]; [left; exact H|].
  right. exists p, hashed. split; [reflexivity|exact H].
Qed.

(** The account of a checked request is well formed. *)
Lemma checked_account p (id hashed : string) (createdAt : Z) :
  is_checked p ->
  is_new_account
    (Account.mk id (toLowerCase (Pending.email p)) hashed
       (trim (Pending.name p)) ["basic"; "chat"] createdAt None (Some false)).
Proof.
  intros [Hr Hlen]. unfold is_new_account. cbn.
  rewrite toLowerCase_idem, emailRegex_toLowerCase.
  pose proof (trim_length (Pending.name p)).
  repeat (split; [first [reflexivity | assumption | lia]|]).
  reflexivity.
Qed.

Lemma signup_check_is_checked body users p :
  signup_check body users = inr p -> is_checked p.
Proof.
  intros E. destruct (signup_check_waiting _ _ _ E)
    as (b & _ & _ & _ & _ & _ & Hr & Hlen & _).
  split; [exact Hr|lia].
Qed.

(** X19. As long as the signup endpoint serves its requests one at a
    time (no request arrives while another waits for its hash), no two
    stored accounts have the same email, compared without regard to
    case, and every stored account has a lower-case email that matches
    the email pattern, a name of at most 50 characters, the permissions
    basic and chat, no last login, and an unverified email. *)
Theorem signup_emails_unique (st : Site) :
  signup_serial clock randomUUID argon2 encode st ->
  NoDup (email_keys (mockUsers st))
  /\ Forall is_new_account (mockUsers st).
Proof.
  induction 1 as [t0 d0|st body salt Hst [IH1 IH2]].
  - split; constructor.
  - destruct (signup_store body salt st) as [Hsame|(p & hashed & E & Hu)].
    + rewrite Hsame. auto.
    + rewrite Hu. split.
      * rewrite email_keys_app. apply NoDup_app. split; [exact IH1|].
        split; [|apply NoDup_singleton].
        intros k Hk Hk'. cbn in Hk'. apply list_elem_of_singleton in Hk'.
        subst k. rewrite toLowerCase_idem in Hk.
        destruct (signup_check_waiting _ _ _ E)
          as (b & _ & _ & _ & _ & _ & _ & _ & _ & Hf).
        apply find_by_email_None in Hf. apply Hf, list_elem_of_In, Hk.
      * apply Forall_app. split; [exact IH2|].
        constructor; [|constructor].
        apply checked_account, (signup_check_is_checked _ _ _ E).
Qed.

(** X24. Whatever the order in which arriving and waiting requests of
    the signup endpoint are served, every stored account has a
    lower-case email that matches the email pattern, a name of at most
    50 characters, the permissions basic and chat, no last login, and an
    unverified email. *)
Theorem signup_accounts_well_formed (st : Site) (waiting : list Pending.t) :
  signup_reachable clock randomUUID argon2 encode st waiting ->
  Forall is_new_account (mockUsers st).
Proof.
  intros Hreach.
  assert (Forall is_new_account (mockUsers st) /\ Forall is_checked waiting)
    as [H _]; [|exact H].
  induction Hreach as [t0 d0|st waiting body Hreach [IH1 IH2]
                       |st before p after salt Hreach [IH1 IH2]].
  - split; constructor.
  - split; [exact IH1|].
    destruct (signup_check body (mockUsers st)) as [response|p] eqn:E;
      [exact IH2|].
    constructor; [exact (signup_check_is_checked _ _ _ E)|exact IH2].
  - apply Forall_app in IH2 as [Hb Hpa].
    apply Forall_cons in Hpa as [Hp Ha].
    split; [|apply Forall_app; auto].
    destruct (signup_resume_store p salt st)
      as [(_ & H & _)|(hashed & _ & _ & H)]; rewrite H; [exact IH1|].
    apply Forall_app. split; [exact IH1|].
    constructor; [|constructor]. apply checked_account, Hp.
Qed.

(** X25. Two signup requests with the same email, up to case, that both
    arrive before either is resumed both pass the duplicate check; when
    both are then answered 201, the array holds two accounts with that
    email. The state in which it does is one the endpoint reaches. *)
Theorem signup_race_stores_duplicates
  (body1 body2 : option SignupBody.t) (p1 p2 : Pending.t)
  (salt1 salt2 : string) (st : Site) (waiting : list Pending.t) :
  signup_reachable clock randomUUID argon2 encode st waiting ->
  signup_check body1 (mockUsers st) = inr p1 ->
  signup_check body2 (mockUsers st) = inr p2 ->
  toLowerCase (Pending.email p1) = toLowerCase (Pending.email p2) ->
  let first := signup_resume clock randomUUID argon2 encode p1 salt1 st in
  let second :=
    signup_resume clock randomUUID argon2 encode p2 salt2 first.2 in
  Response.status first.1 = 201 ->
  Response.status second.1 = 201 ->
  signup_reachable clock randomUUID argon2 encode second.2 waiting
  /\ length (mockUsers second.2) = S (S (length (mockUsers st)))
  /\ ~ NoDup (email_keys (mockUsers second.2)).
Proof.
  intros Hreach E1 E2 Hsame first second H1 H2.
  split; [|].
  { pose proof (signup_arrives clock randomUUID argon2 encode st waiting body1
                  Hreach) as Ha1.
    rewrite E1 in Ha1.
    pose proof (signup_arrives clock randomUUID argon2 encode st _ body2 Ha1)
      as Ha2.
    rewrite E2 in Ha2.
    pose proof (signup_resumes clock randomUUID argon2 encode st [p2] p1
                  waiting salt1 Ha2) as Hr1.
    exact (signup_resumes clock randomUUID argon2 encode _ [] p2 waiting salt2
             Hr1). }
  destruct (signup_resume_store p1 salt1 st)
    as [(_ & _ & H)|(h1 & _ & _ & Hu1)].
  { fold first in H. rewrite H in H1. discriminate H1. }
  destruct (signup_resume_store p2 salt2 first.2)
    as [(_ & _ & H)|(h2 & _ & _ & Hu2)].
  { fold second in H. rewrite H in H2. discriminate H2. }
  fold first in Hu1. fold second in Hu2. rewrite Hu2, Hu1. split.
  - rewrite !length_app. cbn. lia.
  - rewrite !email_keys_app. cbn. rewrite !toLowerCase_idem, Hsame.
    intros Hnd. apply NoDup_app in Hnd as (_ & Hnd & _).
    apply (Hnd (toLowerCase (Pending.email p2))).
    + apply elem_of_app. right. left.
    + left.
Qed.

(** X20. When the token cannot be encoded, the signup endpoint answers
    500 although it has already stored the account: the array is one
    entry longer, and the same request sent again, whatever the salt and
    the encoder then are, is answered 409. *)
Theorem signup_error_after_store
  (encode' : TokenPayload.t -> Completion string)
  (b : SignupBody.t) (salt salt' hashed : string) (st : Site) :
  let out := signup_POST clock randomUUID argon2 encode (Some b) salt st in
  Response.status out.1 = 500 ->
  PasswordHashing.hashPassword argon2 salt
    (default EmptyString (SignupBody.password b)) = Normal hashed ->
  length (mockUsers out.2) = S (length (mockUsers st))
  /\ Response.status
       (signup_POST clock randomUUID argon2 encode' (Some b) salt' out.2).1
     = 409.
Proof.
  cbn zeta. unfold signup_POST.
  destruct (signup_check (Some b) (mockUsers st)) as [response|p] eqn:E.
  { destruct (signup_check_refused _ _ _ E) as [[H|H] _];
      cbn [fst]; rewrite H; discriminate. }
  destruct (signup_check_waiting _ _ _ E) as (b0 & [= <-] & _ & Hp & _).
  rewrite Hp. cbn [default from_option id]. intros _ Hh.
  destruct (signup_resume_store p salt st)
    as [([message Hm] & _)|(h & _ & _ & Hu)]; [congruence|].
  rewrite Hu. split; [rewrite length_app; cbn; lia|].
  rewrite (signup_check_other_array _ _ (mockUsers st ++ _)%list _ E).
  destruct (find_by_email (Pending.email p) _) eqn:Hf'; [reflexivity|].
  exfalso. apply find_by_email_None in Hf'. apply Hf'.
  rewrite email_keys_app. apply in_or_app. right. left.
  cbn. apply toLowerCase_idem.
Qed.

End Signup.

(** A well-formed request is encoded by an encoder that throws. *)
Lemma signup_error_after_store_witness :
  let out :=
    signup_POST Scenario.clock_1ms EndpointScenario.randomUUID Scenario.argon2
      EndpointScenario.encode_throws (Some EndpointScenario.body) "salt-1"
      (mkSite [] 0 0) in
  Response.status out.1 = 500
  /\ length (mockUsers out.2) = 1%nat
  /\ Response.status
       (signup_POST Scenario.clock_1ms EndpointScenario.randomUUID
          Scenario.argon2 EndpointScenario.encode (Some EndpointScenario.body)
          "salt-2" out.2).1 = 409.
Proof.
  intros out. split; [reflexivity|].
  exact (signup_error_after_store Scenario.clock_1ms
           EndpointScenario.randomUUID Scenario.argon2
           EndpointScenario.encode_throws EndpointScenario.encode
           EndpointScenario.body "salt-1" "salt-2"
           "$argon2id$Str0ng!Passw0rd" (mkSite [] 0 0) eq_refl eq_refl).
Defined.

(** One request has been served. *)
Lemma signup_emails_unique_witness :
  let st :=
    (signup_POST Scenario.clock_1ms EndpointScenario.randomUUID Scenario.argon2
       EndpointScenario.encode (Some EndpointScenario.body) "salt-1"
       (mkSite [] 0 0)).2 in
  length (mockUsers st) = 1%nat
  /\ NoDup (email_keys (mockUsers st))
  /\ Forall is_new_account (mockUsers st).
Proof.
  intros st. split; [reflexivity|].
  apply (signup_emails_unique Scenario.clock_1ms EndpointScenario.randomUUID
           Scenario.argon2 EndpointScenario.encode st).
  apply serial_step, serial_start.
Defined.

(** Ada's request arrives twice before the first one is resumed. *)
Lemma signup_accounts_well_formed_witness :
  let p :=
    Pending.mk "Ada@Example.org" "Str0ng!Passw0rd" "  Ada Lovelace " in
  let resume :=
    signup_resume Scenario.clock_1ms EndpointScenario.randomUUID
      Scenario.argon2 EndpointScenario.encode p in
  let st := (resume "salt-2" (resume "salt-1" (mkSite [] 0 0)).2).2 in
  length (mockUsers st) = 2%nat
  /\ Forall is_new_account (mockUsers st).
Proof.
  intros p resume st. split; [reflexivity|].
  apply (signup_accounts_well_formed Scenario.clock_1ms
           EndpointScenario.randomUUID Scenario.argon2 EndpointScenario.encode
           st []).
  apply (signup_resumes Scenario.clock_1ms EndpointScenario.randomUUID
           Scenario.argon2 EndpointScenario.encode _ [] p [] "salt-2").
  apply (signup_resumes Scenario.clock_1ms EndpointScenario.randomUUID
           Scenario.argon2 EndpointScenario.encode _ [p] p [] "salt-1").
  apply (signup_arrives Scenario.clock_1ms EndpointScenario.randomUUID
           Scenario.argon2 EndpointScenario.encode (mkSite [] 0 0) [p]
           (Some EndpointScenario.body)).
  apply (signup_arrives Scenario.clock_1ms EndpointScenario.randomUUID
           Scenario.argon2 EndpointScenario.encode (mkSite [] 0 0) []
           (Some EndpointScenario.body)).
  apply signup_start.
Defined.

(** Ada signs up twice, the second time with her email in capitals,
    before the first request is resumed. *)
Lemma signup_race_stores_duplicates_witness :
  let resume :=
    signup_resume Scenario.clock_1ms EndpointScenario.randomUUID
      Scenario.argon2 EndpointScenario.encode in
  let first :=
    resume (Pending.mk "Ada@Example.org" "Str0ng!Passw0rd" "  Ada Lovelace ")
      "salt-1" (mkSite [] 0 0) in
  let second :=
    resume (Pending.mk "ADA@EXAMPLE.ORG" "Str0ng!Passw0rd" "Ada")
      "salt-2" first.2 in
  Response.status first.1 = 201
  /\ Response.status second.1 = 201
  /\ email_keys (mockUsers second.2) = ["ada@example.org"; "ada@example.org"]
  /\ ~ NoDup (email_keys (mockUsers second.2)).
Proof.
  intros resume first second.
  split; [reflexivity|]. split; [reflexivity|]. split; [reflexivity|].
  apply (signup_race_stores_duplicates Scenario.clock_1ms
           EndpointScenario.randomUUID Scenario.argon2 EndpointScenario.encode
           (Some EndpointScenario.body)
           (Some (SignupBody.mk (Some "ADA@EXAMPLE.ORG")
                    (Some "Str0ng!Passw0rd") (Some "Ada") true))
           (Pending.mk "Ada@Example.org" "Str0ng!Passw0rd" "  Ada Lovelace ")
           (Pending.mk "ADA@EXAMPLE.ORG" "Str0ng!Passw0rd" "Ada")
           "salt-1" "salt-2" (mkSite [] 0 0) []
           (signup_start _ _ _ _ 0%nat 0%nat) eq_refl eq_refl eq_refl
           eq_refl eq_refl).
Defined.

Lemma mark_login_without email now users :
  map without_lastLogin (mark_login email now users)
  = map without_lastLogin users.
Proof.
  induction users as [|u users IH]; [reflexivity|].
  cbn [mark_login].
  destruct (String.eqb (toLowerCase (Account.email u)) (toLowerCase email)).
  - reflexivity.
  - cbn [map]. rewrite IH. reflexivity.
Qed.

Lemma mark_login_toLowerCase email now users :
  mark_login (toLowerCase email) now users = mark_login email now users.
Proof.
  induction users as [|u users IH]; [reflexivity|].
  cbn [mark_login]. rewrite toLowerCase_idem, IH. reflexivity.
Qed.

(** The checks of the login endpoint. *)
Ltac login_checks b st tac :=
  unfold login_POST;
  destruct (LoginBody.email b) as [email|] eqn:He; [|tac];
  destruct (LoginBody.password b) as [password|] eqn:Hp;
    [|cbn [Js.truthy_opt negb]; rewrite orb_true_r; tac];
  cbn [Js.truthy_opt default from_option id];
  destruct (Js.truthy email); [|tac];
  destruct (Js.truthy password); [|tac];
  cbn [negb orb];
  destruct (Regex.test Email.emailRegex email) eqn:Hr; [|tac];
  cbn [negb].

Section Login.

Variable clock : nat -> Z.
Variable randomUUID : nat -> string.
Variable argon2 : Argon2.Lib.
Variable encode : TokenPayload.t -> Completion string.

(** X21. What the login endpoint answers. It answers 200 only when the
    array holds an account with the given email, compared without regard
    to case, and [verifyPassword] accepted the password against the hash
    of the first such account; the response then carries that account's
    identifier and permissions, and only the last login of that account
    is set. Every answer 401 is the same response, whether the email is
    unknown or the password is wrong, and leaves the state as it was, as
    does every answer 400; an answer 500 leaves the accounts as they
    were. *)
Theorem login_outcomes (body : option LoginBody.t) (st : Site) :
  let out := login_POST clock randomUUID argon2 encode body st in
  (Response.status out.1 = 200
   /\ Response.success out.1 = true
   /\ exists b email password user,
        body = Some b
        /\ LoginBody.email b = Some email
        /\ LoginBody.password b = Some password
        /\ find_by_email email (mockUsers st) = Some user
        /\ PasswordHashing.verifyPassword argon2 password
             (Account.password user) = Normal true
        /\ Response.sessionId out.1 = Some (randomUUID (site_draws st))
        /\ Response.permissions out.1 = Some (Account.permissions user)
        /\ option_map UserView.id (Response.user out.1)
           = Some (Account.id user)
        /\ mockUsers out.2
           = mark_login email (clock (3 + site_ticks st)%nat) (mockUsers st))
  \/ (Response.status out.1 = 400 /\ Response.success out.1 = false
      /\ out.2 = st)
  \/ (out.1 = Response.failure 401 "Invalid email or password" /\ out.2 = st)
  \/ (out.1 = Response.failure 500 "Internal server error"
      /\ mockUsers out.2 = mockUsers st).
Proof.
  cbn zeta.
  destruct body as [b|]; [|right; left; auto].
  login_checks b st ltac:(right; left; auto).
  destruct (find_by_email email (mockUsers st)) as [user|] eqn:Hf;
    [|right; right; left; auto].
  destruct (PasswordHashing.verifyPassword argon2 password
              (Account.password user)) as [[|]|] eqn:Hv;
    [|right; right; left; auto|right; right; right; auto].
  cbn zeta.
  match goal with
  | |- context [encode ?p] => destruct (encode p)
  end; [|right; right; right; auto].
  left. split; [reflexivity|]. split; [reflexivity|].
  exists b, email, password, user.
  repeat (split; [first [reflexivity | assumption]|]).
  reflexivity.
Qed.

(** A login request changes nothing of an account but its last login. *)
Lemma login_store (body : option LoginBody.t) (st : Site) :
  map without_lastLogin
    (mockUsers (login_POST clock randomUUID argon2 encode body st).2)
  = map without_lastLogin (mockUsers st).
Proof.
  destruct body as [b|]; [|reflexivity].
  login_checks b st ltac:(reflexivity).
  destruct (find_by_email email (mockUsers st)) as [user|]; [|reflexivity].
  destruct (PasswordHashing.verifyPassword argon2 password
              (Account.password user)) as [[|]|]; try reflexivity.
  cbn zeta.
  match goal with
  | |- context [encode ?p] => destruct (encode p)
  end; [|reflexivity].
  cbn [snd mockUsers]. apply mark_login_without.
Qed.

(** An answer 200 was given for an account that [find] returned. *)
Lemma login_200 (body : option LoginBody.t) (st : Site) :
  Response.status (login_POST clock randomUUID argon2 encode body st).1 = 200 ->
  exists b email user,
    body = Some b /\ LoginBody.email b = Some email
    /\ find_by_email email (mockUsers st) = Some user.
Proof.
  destruct body as [b|]; [|cbn; intros; discriminate].
  login_checks b st ltac:(cbn; intros; discriminate).
  destruct (find_by_email email (mockUsers st)) as [user|] eqn:Hf;
    [|cbn; intros; discriminate].
  intros _. exists b, email, user. auto.
Qed.

(** X22. In every state that the login endpoint reaches from its initial
    array, the array holds the two initial accounts, in their order and
    unchanged but for their last login: no request adds or removes an
    account or changes an email, a password hash, a name or a
    permission. Hence an answer 200 is given only to a request whose
    email is, up to case, demo@simone.ai or admin@simone.ai. *)
Theorem login_accounts_fixed (st : Site) :
  login_reachable clock randomUUID argon2 encode st ->
  map without_lastLogin (mockUsers st) = login_mockUsers
  /\ forall body,
       Response.status (login_POST clock randomUUID argon2 encode body st).1
       = 200 ->
       exists b email,
         body = Some b /\ LoginBody.email b = Some email
         /\ (toLowerCase email = "demo@simone.ai"
             \/ toLowerCase email = "admin@simone.ai").
Proof.
  intros Hreach.
  assert (map without_lastLogin (mockUsers st) = login_mockUsers) as Hfixed.
  { induction Hreach as [t0 d0|st body _ IH]; [reflexivity|].
    rewrite login_store. exact IH. }
  split; [exact Hfixed|].
  intros body H200.
  apply login_200 in H200 as (b & email & user & -> & He & Hf).
  exists b, email. split; [reflexivity|]. split; [exact He|].
  apply find_by_email_Some in Hf as [Hin Hkey].
  apply (in_map without_lastLogin) in Hin. rewrite Hfixed in Hin.
  rewrite <- Hkey.
  destruct Hin as [Hu|[Hu|[]]];
    apply (f_equal Account.email) in Hu; cbn in Hu; rewrite <- Hu;
    [left|right]; reflexivity.
Qed.

(** X23. The login endpoint does not tell an email from its lower-case
    form: both requests get the same response and leave the same
    state. *)
Theorem login_ignores_case
  (email : string) (password : option string) (rememberMe : bool)
  (st : Site) :
  login_POST clock randomUUID argon2 encode
    (Some (LoginBody.mk (Some (toLowerCase email)) password rememberMe)) st
  = login_POST clock randomUUID argon2 encode
      (Some (LoginBody.mk (Some email) password rememberMe)) st.
Proof.
  unfold login_POST.
  cbn [LoginBody.email LoginBody.password LoginBody.rememberMe
       Js.truthy_opt default from_option id].
  rewrite toLowerCase_truthy, emailRegex_toLowerCase,
    find_by_email_toLowerCase, mark_login_toLowerCase.
  reflexivity.
Qed.

End Login.

(** The demo account has logged in once, with its email in another case;
    the stand-in library takes the text after the tag for the key. *)
Lemma login_accounts_fixed_witness :
  let out :=
    login_POST Scenario.clock_1ms EndpointScenario.randomUUID Scenario.argon2
      EndpointScenario.encode
      (Some (LoginBody.mk (Some "Demo@SimOne.ai")
               (Some "v=19$m=65536,t=3,p=1$cvixXt9aAHfs24zAKIeiag$JHBg/LEloAPvgLxeF0Xcc/6qnhvaTCaeiGUtMzFm/c8")
               false))
      (mkSite login_mockUsers 0 0) in
  Response.status out.1 = 200
  /\ map Account.lastLogin (mockUsers out.2) = [Some 3; None]
  /\ map without_lastLogin (mockUsers out.2) = login_mockUsers.
Proof.
  intros out. split; [reflexivity|]. split; [reflexivity|].
  apply (login_accounts_fixed Scenario.clock_1ms EndpointScenario.randomUUID
           Scenario.argon2 EndpointScenario.encode out.2).
  apply login_step, login_start.
Defined.

End EndpointFacts.
